(** * 3D_drawing: the geometric core of the wireframe renderer

    A shallow embedding of [shape.js] (Vertex, Edge, HalfLine, Face and the
    ray/face queries) and of the two [Camera] classes of the repository,
    together with the properties of the projection pipeline.

    JavaScript numbers are idealised as real numbers: the development is
    about the geometry, not about rounding.  A division whose divisor is
    zero, which in JavaScript yields [NaN] or an infinity, is made explicit
    as the absence of a result ([None]); where the code goes on to compare
    the signs of such values, which the real numbers do not tell, the
    outcome is left open ([NotFinite]).

    The geometry is written on values; a method that changes its receiver
    and returns something gives both, the receiver after the call and the
    value returned.  Where identity matters (the scene is shared between
    the caller and the cameras, and clipping assigns to Edge objects), the
    methods are written again on a store of objects, and shown to do there
    what they do on values.

    [math.js] is not among the sources.  Each of its operations used below
    carries a comment starting with "Modelled from the spec". *)

From Stdlib Require Import Reals Lra List.
From stdpp Require Import base decidable option list sorting strings gmap.
Import ListNotations.

#[local] Open Scope R_scope.

(** ** JavaScript numbers and comparisons *)

#[global] Instance Rle_decision : RelDecision Rle := Rle_dec.
#[global] Instance Rlt_decision : RelDecision Rlt := Rlt_dec.
#[global] Instance Rge_decision : RelDecision Rge := Rge_dec.
#[global] Instance R_eq_decision : EqDecision R := Req_dec_T.

(** [Math.sign] on a number: 1, -1 or 0. *)
Definition Math_sign (a : R) : R :=
  if decide (0 < a) then 1 else if decide (a < 0) then -1 else 0.

(** ** math.js *)

(** Modelled from the spec: [sin] and [cos] of math.js take degrees
    ("Degrees, not radians, are the external unit; internally convert"). *)
Definition sin_deg (theta : R) : R := sin (theta * PI / 180).
Definition cos_deg (theta : R) : R := cos (theta * PI / 180).

Module Vector.
Record t : Type := mk { x : R; y : R; z : R }.

Definition getClone (v : t) : t := mk (x v) (y v) (z v).

(** Modelled from the spec: the length of a vector (math.js). *)
Definition length (v : t) : R := sqrt (x v * x v + y v * y v + z v * z v).

(** Modelled from the spec: "scalar multiplication" (math.js). *)
Definition multiplication (v : t) (k : R) : t :=
  mk (x v * k) (y v * k) (z v * k).

(** Modelled from the spec: "changeLength — scales vector to given signed
    length while preserving direction" (math.js). *)
Definition changeLength (v : t) (len : R) : t :=
  multiplication v (len / length v).

(** Modelled from the spec: "first rotate the X/Y components by rz, then
    rotate the resulting Y/Z components by rx", angles in degrees
    (math.js).  The 2D rotations are the ones written in the comment of
    [Camera.getConvertedVertex]. *)
Definition rotate (v : t) (rx rz : R) : t :=
  let x1 := cos_deg rz * x v - sin_deg rz * y v in
  let y1 := sin_deg rz * x v + cos_deg rz * y v in
  let z1 := z v in
  mk x1 (cos_deg rx * y1 - sin_deg rx * z1) (sin_deg rx * y1 + cos_deg rx * z1).
End Vector.

Module Point.
Record t : Type := mk { x : R; y : R; z : R }.

Definition getClone (p : t) : t := mk (x p) (y p) (z p).

(** Modelled from the spec: "Mutable in place by translation (move)"
    (math.js); the value returned here is the point after the move. *)
Definition move (p : t) (v : Vector.t) : t :=
  mk (x p + Vector.x v) (y p + Vector.y v) (z p + Vector.z v).
End Point.

(** Modelled from the spec: "Line: point + direction vector; infinite in
    both directions" (math.js): two fields, and no operation of its own. *)
Module Line.
Record t : Type := mk { point : Point.t; vector : Vector.t }.
End Line.

Module Plane.
(** ax + by + cz + d = 0 *)
Record t : Type := mk { a : R; b : R; c : R; d : R }.

Definition eval (pl : t) (x y z : R) : R := a pl * x + b pl * y + c pl * z + d pl.

(** Modelled from the spec: "true iff the signed plane equation evaluated
    at point has the same sign as when evaluated at a point along the
    positive normal direction from the plane's reference point"; at such a
    point the equation is positive, so a point of the plane itself is not
    in front (math.js). *)
Definition isPointInFrontOf (pl : t) (p : Point.t) : bool :=
  bool_decide (0 < eval pl (Point.x p) (Point.y p) (Point.z p)).

(** The value of the plane equation at a point: positive in front of the
    plane, zero on it, negative behind it. *)
Definition side (pl : t) (p : Point.t) : R := eval pl (Point.x p) (Point.y p) (Point.z p).
End Plane.

(** Modelled from the spec: the vector from the first point to the second
    (math.js); an Edge's direction is "vertex2 - vertex1". *)
Definition getVectorFrom2Points (p1 p2 : Point.t) : Vector.t :=
  Vector.mk (Point.x p2 - Point.x p1) (Point.y p2 - Point.y p1) (Point.z p2 - Point.z p1).

(** Modelled from the spec: the distance of two points (math.js). *)
Definition getLengthFrom2Points (p1 p2 : Point.t) : R :=
  Vector.length (getVectorFrom2Points p1 p2).

(** Modelled from the spec: standard inner and cross product (math.js). *)
Definition getInnerProduct (v w : Vector.t) : R :=
  Vector.x v * Vector.x w + Vector.y v * Vector.y w + Vector.z v * Vector.z w.

Definition getCrossProduct (v w : Vector.t) : Vector.t :=
  Vector.mk (Vector.y v * Vector.z w - Vector.z v * Vector.y w)
            (Vector.z v * Vector.x w - Vector.x v * Vector.z w)
            (Vector.x v * Vector.y w - Vector.y v * Vector.x w).

(** Modelled from the spec: "getSumOfVectors (fold-add over a sequence)"
    (math.js). *)
Definition getSumOfVectors (vectors : list Vector.t) : Vector.t :=
  foldl (fun sum v => Vector.mk (Vector.x sum + Vector.x v) (Vector.y sum + Vector.y v)
                                (Vector.z sum + Vector.z v))
        (Vector.mk 0 0 0) vectors.

(** Modelled from the spec: "plane through point with given normal;
    d = -(a.x + b.y + c.z)" (math.js). *)
Definition getPlaneFromVectorAndPoint (n : Vector.t) (p : Point.t) : Plane.t :=
  Plane.mk (Vector.x n) (Vector.y n) (Vector.z n)
           (- (Vector.x n * Point.x p + Vector.y n * Point.y p + Vector.z n * Point.z p)).

(** Modelled from the spec: "solve for scalar t such that
    line.point + t.line.vector satisfies the plane equation" (math.js).
    For a line parallel to the plane ("denominator == 0") the division
    gives no finite number and there is no intersection: [None].  The
    callers in shape.js and main.js hand the result to a range test or read
    its coordinates without a test for null: for them [None] stands for a
    Point whose coordinates are not finite numbers. *)
Definition getIntersectionFromLineAndPlane (l : Line.t) (pl : Plane.t) : option Point.t :=
  let p := Line.point l in
  let v := Line.vector l in
  let denominator :=
    Plane.a pl * Vector.x v + Plane.b pl * Vector.y v + Plane.c pl * Vector.z v in
  if decide (denominator = 0) then None
  else
    let t := - Plane.eval pl (Point.x p) (Point.y p) (Point.z p) / denominator in
    Some (Point.mk (Point.x p + t * Vector.x v)
                   (Point.y p + t * Vector.y v)
                   (Point.z p + t * Vector.z v)).

Module ST.
Record t : Type := mk { s : R; t_ : R }.
End ST.

(** Modelled from the spec: "solve point = s.v1 + t.v2 for barycentric-like
    coefficients s,t via 2x2 linear solve" (math.js).  The 2x2 system is the
    one obtained by taking the inner product of the equation with [v1] and
    with [v2], solved by Cramer's rule; a singular system has no solution. *)
Definition getSTFrom3Vectors (p v1 v2 : Vector.t) : option ST.t :=
  let a11 := getInnerProduct v1 v1 in
  let a12 := getInnerProduct v1 v2 in
  let a22 := getInnerProduct v2 v2 in
  let b1 := getInnerProduct p v1 in
  let b2 := getInnerProduct p v2 in
  let det := a11 * a22 - a12 * a12 in
  if decide (det = 0) then None
  else Some (ST.mk ((b1 * a22 - b2 * a12) / det) ((a11 * b2 - a12 * b1) / det)).

(** ** shape.js *)

Module Vertex.
(** [i] is the number of the vertex; [getVertexFromPoint] leaves it
    undefined. *)
Record t : Type := mk { x : R; y : R; z : R; i : option nat; point : Point.t }.

(** constructor *)
Definition new (x y z : R) (i : option nat) : t := mk x y z i (Point.mk x y z).

Definition getClone (this : t) : t := new (x this) (y this) (z this) (i this).

(** [move] changes the receiver and returns a new Vertex: the result is
    the receiver after the call and the value returned. *)
Definition move (this : t) (vector : Vector.t) : t * t :=
  let this' :=
    mk (x this + Vector.x vector) (y this + Vector.y vector) (z this + Vector.z vector)
       (i this) (Point.move (point this) vector) in
  (this', getClone this').

(** The scalar fields are the coordinates of the embedded point. *)
Definition inv (v : t) : Prop := point v = Point.mk (x v) (y v) (z v).
End Vertex.

Module Edge.
Record t : Type :=
  mk { vertex1 : Vertex.t; vertex2 : Vertex.t; vector : Vector.t; line : Line.t }.

(** constructor *)
Definition new (vertex1 vertex2 : Vertex.t) : t :=
  let vector := getVectorFrom2Points (Vertex.point vertex1) (Vertex.point vertex2) in
  mk vertex1 vertex2 vector (Line.mk (Vertex.point vertex1) vector).

Definition getClone (this : t) : t :=
  new (Vertex.getClone (vertex1 this)) (Vertex.getClone (vertex2 this)).

Definition isPointInRange (this : t) (point : Point.t) : bool :=
  bool_decide (Rmin (Vertex.x (vertex1 this)) (Vertex.x (vertex2 this)) <= Point.x point) &&
  bool_decide (Rmax (Vertex.x (vertex1 this)) (Vertex.x (vertex2 this)) >= Point.x point) &&
  bool_decide (Rmin (Vertex.y (vertex1 this)) (Vertex.y (vertex2 this)) <= Point.y point) &&
  bool_decide (Rmax (Vertex.y (vertex1 this)) (Vertex.y (vertex2 this)) >= Point.y point) &&
  bool_decide (Rmin (Vertex.z (vertex1 this)) (Vertex.z (vertex2 this)) <= Point.z point) &&
  bool_decide (Rmax (Vertex.z (vertex1 this)) (Vertex.z (vertex2 this)) >= Point.z point).

(** A Point whose coordinates are not finite fails the range test: a
    comparison with [NaN] is false, and an infinity is not between the
    coordinates of the two vertices. *)
Definition getIntersectionWithPlane (this : t) (plane : Plane.t) : option Point.t :=
  match getIntersectionFromLineAndPlane (line this) plane with
  | Some intersection =>
      if isPointInRange this intersection then Some intersection else None
  | None => None
  end.

(** The method assigns [this.vertex1] or [this.vertex2] and returns a new
    Edge: the result is the receiver after the call and the value
    returned.  The method does not assign [this.vector] or [this.line].
    ([changeLength] is taken to return a new vector; if it rescales
    [this.vector] in place, the receiver is left with the rescaled vector
    instead, and the Edge returned is the same.) *)
Definition setVertexInFrontOfCamera (this : t) (plane : Plane.t) : t * t :=
  let this' :=
    match getIntersectionWithPlane this plane with
    | Some intersection =>
        if Plane.isPointInFrontOf plane (Vertex.point (vertex1 this)) then
          let fixVector := Vector.changeLength (vector this) (- (1 / 10000)) in
          let intersection := Point.move intersection fixVector in
          mk (vertex1 this)
             (Vertex.new (Point.x intersection) (Point.y intersection) (Point.z intersection)
                         (Vertex.i (vertex2 this)))
             (vector this) (line this)
        else
          let fixVector := Vector.changeLength (vector this) (1 / 10000) in
          let intersection := Point.move intersection fixVector in
          mk (Vertex.new (Point.x intersection) (Point.y intersection) (Point.z intersection)
                         (Vertex.i (vertex1 this)))
             (vertex2 this)
             (vector this) (line this)
    | None => this
    end in
  (this', new (vertex1 this') (vertex2 this')).

(** The stored direction is [vertex2 - vertex1]. *)
Definition inv (e : t) : Prop :=
  vector e = getVectorFrom2Points (Vertex.point (vertex1 e)) (Vertex.point (vertex2 e)).

(** An edge as the constructor builds it from two constructed vertices. *)
Definition wf (e : t) : Prop :=
  Vertex.inv (vertex1 e) /\ Vertex.inv (vertex2 e) /\
  inv e /\ line e = Line.mk (Vertex.point (vertex1 e)) (vector e).
End Edge.

(** What [getIntersectionWithPlane] of a HalfLine returns: a Point, or
    null.  [NotFinite] is the outcome for a line parallel to the plane,
    where the division by zero gives the Point coordinates that are not
    finite numbers: the sign test of [isPointInRange] fails on [NaN] and
    passes on an infinity of the sign of the vector, and which of the two
    the division gives is decided by the sign of a floating-point zero.  The
    method then returns null or a Point whose coordinates are not finite;
    the real numbers do not tell which. *)
Inductive Intersection : Type :=
  | Found (point : Point.t)
  | Null
  | NotFinite.

Module HalfLine.
(** A HalfLine is a Line ([point], [vector]) with one more field [line].
    The class defines the constructor, [getClone], [isPointInRange] and
    [getIntersectionWithPlane], and no other method. *)
Record t : Type := mk { point : Point.t; vector : Vector.t; line : Line.t }.

(** constructor *)
Definition new (point : Point.t) (vector : Vector.t) : t :=
  mk point vector (Line.mk point vector).

Definition getClone (this : t) : t := new (point this) (vector this).

Definition isPointInRange (this : t) (p : Point.t) : bool :=
  bool_decide (Math_sign (Vector.x (vector this)) = Math_sign (Point.x p - Point.x (point this))) &&
  bool_decide (Math_sign (Vector.y (vector this)) = Math_sign (Point.y p - Point.y (point this))) &&
  bool_decide (Math_sign (Vector.z (vector this)) = Math_sign (Point.z p - Point.z (point this))).

(** The point of [getIntersectionFromLineAndPlane] goes to the sign test
    as it is.  For a line parallel to the plane its coordinates are not
    finite numbers, and the method returns [NotFinite]. *)
Definition getIntersectionWithPlane (this : t) (plane : Plane.t) : Intersection :=
  match getIntersectionFromLineAndPlane (line this) plane with
  | Some intersection =>
      if isPointInRange this intersection then Found intersection else Null
  | None => NotFinite
  end.
End HalfLine.

(** Modelled from the spec: the class Color of math.js is not among the
    sources; a Light's colour is documented as [number[]], and the same
    representation is taken for a Face.  No geometric operation reads it. *)
Definition Color : Type := list R.

Module Face.
(** [color] and [roughness] are optional arguments of the constructor. *)
Record t : Type :=
  mk { vertex1 : Vertex.t; vertex2 : Vertex.t; vertex3 : Vertex.t;
       color : option Color; roughness : option R;
       vector1 : Vector.t; vector2 : Vector.t;
       normalVector : Vector.t; plane : Plane.t }.

(** constructor *)
Definition new (vertex1 vertex2 vertex3 : Vertex.t)
    (color : option Color) (roughness : option R) : t :=
  let vector1 := getVectorFrom2Points (Vertex.point vertex1) (Vertex.point vertex2) in
  let vector2 := getVectorFrom2Points (Vertex.point vertex1) (Vertex.point vertex3) in
  let normalVector := getCrossProduct vector1 vector2 in
  mk vertex1 vertex2 vertex3 color roughness vector1 vector2 normalVector
     (getPlaneFromVectorAndPoint normalVector (Vertex.point vertex1)).

(** [getClone] passes no roughness. *)
Definition getClone (this : t) : t :=
  new (Vertex.getClone (vertex1 this)) (Vertex.getClone (vertex2 this))
      (Vertex.getClone (vertex3 this)) (color this) None.

(** A singular system (no [s], [t]) fails the three comparisons. *)
Definition isPointOnFace (this : t) (point : Point.t) : bool :=
  match getSTFrom3Vectors (getVectorFrom2Points (Vertex.point (vertex1 this)) point)
                          (vector1 this) (vector2 this) with
  | Some st =>
      let s := ST.s st in
      let t := ST.t_ st in
      bool_decide (s >= 0) && bool_decide (t >= 0) && bool_decide (s + t <= 1)
  | None => false
  end.

(** A face as the constructor builds it: the normal vector is the cross
    product of the two edge vectors, and the plane goes through [vertex1]
    with that normal. *)
Definition wf (f : t) : Prop :=
  normalVector f = getCrossProduct (vector1 f) (vector2 f) /\
  plane f = getPlaneFromVectorAndPoint (normalVector f) (Vertex.point (vertex1 f)).
End Face.

(** The argument of the two queries is an Edge or a HalfLine; the source
    tells them apart with [instanceof]. *)
Inductive EdgeOrHalfLine : Type :=
  | AnEdge (e : Edge.t)
  | AHalfLine (h : HalfLine.t).

Definition EdgeOrHalfLine_getIntersectionWithPlane
    (edgeOrHalfLine : EdgeOrHalfLine) (plane : Plane.t) : Intersection :=
  match edgeOrHalfLine with
  | AnEdge e =>
      match Edge.getIntersectionWithPlane e plane with
      | Some intersection => Found intersection
      | None => Null
      end
  | AHalfLine h => HalfLine.getIntersectionWithPlane h plane
  end.

(** [if (intersection)] is false of null.  A Point whose coordinates are
    not finite passes it and goes to [isPointOnFace], which rejects it: its
    [s] and [t] are not finite either, and [s >= 0], [t >= 0] and
    [s + t <= 1] do not all hold of such numbers.  So null is returned for
    [NotFinite], whichever of the two it stands for. *)
Definition getIntersectionEdgeOrHalfLineAndFace
    (edgeOrHalfLine : EdgeOrHalfLine) (face : Face.t) : option Point.t :=
  match EdgeOrHalfLine_getIntersectionWithPlane edgeOrHalfLine (Face.plane face) with
  | Found intersection =>
      if Face.isPointOnFace face intersection then Some intersection else None
  | Null => None
  | NotFinite => None
  end.

(** An element of the list returned by
    [getIntersectionsEdgeOrHalfLineAndFaces]. *)
Module Hit.
Record t : Type := mk { face : Face.t; intersection : Point.t; length : R }.
End Hit.

(** The loop over [faces], pushing one element per face that is hit. *)
Fixpoint collectHits (edgeOrHalfLine : EdgeOrHalfLine) (faces : list Face.t) : list Hit.t :=
  match faces with
  | [] => []
  | face :: rest =>
      match getIntersectionEdgeOrHalfLineAndFace edgeOrHalfLine face with
      | None => collectHits edgeOrHalfLine rest
      | Some intersection =>
          let length :=
            match edgeOrHalfLine with
            | AnEdge e => getLengthFrom2Points (Vertex.point (Edge.vertex1 e)) intersection
            | AHalfLine h => getLengthFrom2Points (HalfLine.point h) intersection
            end in
          Hit.mk face intersection length :: collectHits edgeOrHalfLine rest
      end
  end.

(** [Array.prototype.sort] with the comparator [(a, b) => a.length - b.length]:
    a stable sort, here by insertion.  [a] stays before [b] unless the
    comparator is positive. *)
Fixpoint insertHit (a : Hit.t) (l : list Hit.t) : list Hit.t :=
  match l with
  | [] => [a]
  | b :: rest =>
      if decide (Hit.length a - Hit.length b <= 0) then a :: b :: rest
      else b :: insertHit a rest
  end.

Definition sortHits (l : list Hit.t) : list Hit.t := foldr insertHit [] l.

Definition getIntersectionsEdgeOrHalfLineAndFaces
    (edgeOrHalfLine : EdgeOrHalfLine) (faces : list Face.t) : list Hit.t :=
  sortHits (collectHits edgeOrHalfLine faces).

(** [new Vertex(point.x, point.y, point.z)]: the number [i] is left out. *)
Definition getVertexFromPoint (point : Point.t) : Vertex.t :=
  Vertex.new (Point.x point) (Point.y point) (Point.z point) None.

Definition getEdgeFromPoints (point1 point2 : Point.t) : Edge.t :=
  Edge.new (getVertexFromPoint point1) (getVertexFromPoint point2).

(** [new Face(...)] with three arguments: no colour and no roughness. *)
Definition getFaceFrom3Points (point1 point2 point3 : Point.t) : Face.t :=
  Face.new (getVertexFromPoint point1) (getVertexFromPoint point2)
           (getVertexFromPoint point3) None None.

(** ** Objects and the canvas

    Vertex and Edge objects are shared and assigned to: the canonical edges
    of the scene hold the very Vertex objects of the vertex list, and
    [setVertexInFrontOfCamera] assigns to the fields of its receiver.  The
    store maps references to objects; an Edge object holds references to
    its two Vertex objects.  A Vertex object owns its Point, and a Line its
    point and vector: no code of the repository moves the Point of a Vertex
    held by an Edge or a Face, so these are kept as values. *)

Definition loc : Type := positive.

Module EdgeObj.
Record t : Type :=
  mk { vertex1 : loc; vertex2 : loc; vector : Vector.t; line : Line.t }.
End EdgeObj.

Module FaceObj.
Record t : Type :=
  mk { vertex1 : loc; vertex2 : loc; vertex3 : loc;
       color : option Color; roughness : option R;
       vector1 : Vector.t; vector2 : Vector.t;
       normalVector : Vector.t; plane : Plane.t }.
End FaceObj.

Module Light.
Record t : Type := mk { pos : Point.t; power : R; color : Color }.

Definition getClone (this : t) : t := mk (pos this) (power this) (color this).

(** [power ** 2 / (length + power) ** 2]: no number when the divisor is
    zero. *)
Definition getBrightness (this : t) (length : R) : option R :=
  if decide ((length + power this) ^ 2 = 0) then None
  else Some (power this ^ 2 / (length + power this) ^ 2).

Definition getBrightnessFromPoint (this : t) (point : Point.t) : option R :=
  let length := getLengthFrom2Points (pos this) point in
  getBrightness this length.
End Light.

Inductive obj : Type :=
  | OVertex (v : Vertex.t)
  | OEdge (e : EdgeObj.t)
  | OFace (f : FaceObj.t)
  | OLight (l : Light.t).

(** The calls handed to the rasterizer ([drawCircle], [fillText],
    [drawLine]); [ctx] tells the two canvases of main.js apart. *)
Inductive ctx : Type := con | con2.

Inductive DrawCall : Type :=
  | drawCircle (c : ctx) (x y r : R)
  | fillText (c : ctx) (i : option nat) (x y : R)
  | drawLine (c : ctx) (x1 y1 x2 y2 : R).

Module World.
Record t : Type := mk { objects : gmap loc obj; canvas : list DrawCall }.
End World.

(** A call returns a value or ends in a TypeError (a property read off
    [null] or [undefined], or a call of a method that the object does not
    have); what it did to the world before stays done. *)
Inductive completion (A : Type) : Type :=
  | Return (a : A)
  | TypeError.
Arguments Return {A} a.
Arguments TypeError {A}.

Definition M (A : Type) : Type := World.t -> completion A * World.t.

#[global] Instance M_ret : MRet M := fun A a w => (Return a, w).

#[global] Instance M_bind : MBind M := fun A B k m w =>
  match m w with
  | (Return a, w') => k a w'
  | (TypeError, w') => (TypeError, w')
  end.

(** A pure computation that may end in a TypeError. *)
Definition lift {A : Type} (c : completion A) : M A := fun w => (c, w).

Definition alloc (o : obj) : M loc := fun w =>
  let l := fresh (dom (World.objects w)) in
  (Return l, World.mk (<[l := o]> (World.objects w)) (World.canvas w)).

Definition loadVertex (l : loc) : M Vertex.t := fun w =>
  match World.objects w !! l with
  | Some (OVertex v) => (Return v, w)
  | _ => (TypeError, w)
  end.

Definition loadEdge (l : loc) : M EdgeObj.t := fun w =>
  match World.objects w !! l with
  | Some (OEdge e) => (Return e, w)
  | _ => (TypeError, w)
  end.

Definition loadFace (l : loc) : M FaceObj.t := fun w =>
  match World.objects w !! l with
  | Some (OFace f) => (Return f, w)
  | _ => (TypeError, w)
  end.

Definition loadLight (l : loc) : M Light.t := fun w =>
  match World.objects w !! l with
  | Some (OLight o) => (Return o, w)
  | _ => (TypeError, w)
  end.

(** Assignment to the fields of the Edge object at [l]. *)
Definition storeEdge (l : loc) (e : EdgeObj.t) : M unit := fun w =>
  (Return tt, World.mk (<[l := OEdge e]> (World.objects w)) (World.canvas w)).

Definition draw (d : DrawCall) : M unit := fun w =>
  (Return tt, World.mk (World.objects w) (World.canvas w ++ [d])).

(** [Array.prototype.map] and [for ... of] over an array. *)
Fixpoint mapA {A B : Type} (f : A -> M B) (l : list A) : M (list B) :=
  match l with
  | [] => mret []
  | a :: rest => b ← f a; bs ← mapA f rest; mret (b :: bs)
  end.

Fixpoint forOf {A : Type} (l : list A) (body : A -> M unit) : M unit :=
  match l with
  | [] => mret tt
  | a :: rest => body a;; forOf rest body
  end.

Module Ref.
(** The methods of shape.js on objects of the store. *)

Definition Vertex_new (x y z : R) (i : option nat) : M loc :=
  alloc (OVertex (Vertex.new x y z i)).

Definition Vertex_getClone (this : loc) : M loc :=
  v ← loadVertex this;
  Vertex_new (Vertex.x v) (Vertex.y v) (Vertex.z v) (Vertex.i v).

Definition Edge_new (vertex1 vertex2 : loc) : M loc :=
  v1 ← loadVertex vertex1;
  v2 ← loadVertex vertex2;
  let vector := getVectorFrom2Points (Vertex.point v1) (Vertex.point v2) in
  alloc (OEdge (EdgeObj.mk vertex1 vertex2 vector (Line.mk (Vertex.point v1) vector))).

Definition Edge_getClone (this : loc) : M loc :=
  e ← loadEdge this;
  c1 ← Vertex_getClone (EdgeObj.vertex1 e);
  c2 ← Vertex_getClone (EdgeObj.vertex2 e);
  Edge_new c1 c2.

(** The Edge at [this] with its two vertices read off the store. *)
Definition Edge_value (this : loc) : M Edge.t :=
  e ← loadEdge this;
  v1 ← loadVertex (EdgeObj.vertex1 e);
  v2 ← loadVertex (EdgeObj.vertex2 e);
  mret (Edge.mk v1 v2 (EdgeObj.vector e) (EdgeObj.line e)).

Definition Edge_set_vertex1 (this : loc) (v : loc) : M unit :=
  e ← loadEdge this;
  storeEdge this (EdgeObj.mk v (EdgeObj.vertex2 e) (EdgeObj.vector e) (EdgeObj.line e)).

Definition Edge_set_vertex2 (this : loc) (v : loc) : M unit :=
  e ← loadEdge this;
  storeEdge this (EdgeObj.mk (EdgeObj.vertex1 e) v (EdgeObj.vector e) (EdgeObj.line e)).

Definition Edge_setVertexInFrontOfCamera (this : loc) (plane : Plane.t) : M loc :=
  e ← Edge_value this;
  match Edge.getIntersectionWithPlane e plane with
  | Some intersection =>
      if Plane.isPointInFrontOf plane (Vertex.point (Edge.vertex1 e)) then
        let fixVector := Vector.changeLength (Edge.vector e) (- (1 / 10000)) in
        let intersection := Point.move intersection fixVector in
        v ← Vertex_new (Point.x intersection) (Point.y intersection) (Point.z intersection)
                       (Vertex.i (Edge.vertex2 e));
        Edge_set_vertex2 this v
      else
        let fixVector := Vector.changeLength (Edge.vector e) (1 / 10000) in
        let intersection := Point.move intersection fixVector in
        v ← Vertex_new (Point.x intersection) (Point.y intersection) (Point.z intersection)
                       (Vertex.i (Edge.vertex1 e));
        Edge_set_vertex1 this v
  | None => mret tt
  end;;
  r ← loadEdge this;
  Edge_new (EdgeObj.vertex1 r) (EdgeObj.vertex2 r).

Definition Face_new (vertex1 vertex2 vertex3 : loc)
    (color : option Color) (roughness : option R) : M loc :=
  v1 ← loadVertex vertex1;
  v2 ← loadVertex vertex2;
  v3 ← loadVertex vertex3;
  let f := Face.new v1 v2 v3 color roughness in
  alloc (OFace (FaceObj.mk vertex1 vertex2 vertex3 color roughness
                           (Face.vector1 f) (Face.vector2 f)
                           (Face.normalVector f) (Face.plane f))).

Definition Face_getClone (this : loc) : M loc :=
  f ← loadFace this;
  c1 ← Vertex_getClone (FaceObj.vertex1 f);
  c2 ← Vertex_getClone (FaceObj.vertex2 f);
  c3 ← Vertex_getClone (FaceObj.vertex3 f);
  Face_new c1 c2 c3 (FaceObj.color f) None.

Definition Light_getClone (this : loc) : M loc :=
  l ← loadLight this;
  alloc (OLight (Light.getClone l)).
End Ref.

(** ** camera.js *)

(** The key states, a JavaScript object used as a map from key names to
    booleans; a key never pressed is [undefined], which is falsy. *)
Definition held (key : gmap string bool) (k : string) : bool :=
  default false (key !! k).

Module XY.
Record t : Type := mk { x : R; y : R }.
End XY.

Module Camera.
(** The corner vectors, corner points and per-pixel vectors, which only
    [getCameraViewLayHalfLine] reads, are left out.  [key] is owned by the
    host and is an argument of [move]. *)
Record t : Type :=
  mk { pos : Point.t; rx : R; rz : R; focalLength : R; width : R; height : R;
       canW : R; canH : R; expandingRatio : R; fps : R; speed : R;
       vertexes : list loc; edges : list loc; faces : list loc; lights : list loc;
       importedVertexes : list loc; importedEdges : list loc;
       importedFaces : list loc; importedLights : list loc;
       normalVector : Vector.t; focus : Point.t; plane : Plane.t }.

Definition set_imported (this : t) (iv ie ifs il : list loc) : t :=
  mk (pos this) (rx this) (rz this) (focalLength this) (width this) (height this)
     (canW this) (canH this) (expandingRatio this) (fps this) (speed this)
     (vertexes this) (edges this) (faces this) (lights this)
     iv ie ifs il (normalVector this) (focus this) (plane this).

Definition set_pose (this : t) (p : Point.t) (rx' rz' : R) : t :=
  mk p rx' rz' (focalLength this) (width this) (height this)
     (canW this) (canH this) (expandingRatio this) (fps this) (speed this)
     (vertexes this) (edges this) (faces this) (lights this)
     (importedVertexes this) (importedEdges this) (importedFaces this) (importedLights this)
     (normalVector this) (focus this) (plane this).

Definition set_derived (this : t) (n : Vector.t) (f : Point.t) (pl : Plane.t) : t :=
  mk (pos this) (rx this) (rz this) (focalLength this) (width this) (height this)
     (canW this) (canH this) (expandingRatio this) (fps this) (speed this)
     (vertexes this) (edges this) (faces this) (lights this)
     (importedVertexes this) (importedEdges this) (importedFaces this) (importedLights this)
     n f pl.

Definition importShapes (this : t) : M t :=
  iv ← mapA Ref.Vertex_getClone (vertexes this);
  ie ← mapA Ref.Edge_getClone (edges this);
  ifs ← mapA Ref.Face_getClone (faces this);
  il ← mapA Ref.Light_getClone (lights this);
  mret (set_imported this iv ie ifs il).

Definition updateNormalVector (this : t) : t :=
  set_derived this (Vector.rotate (Vector.mk 0 (focalLength this) 0) (rx this) (rz this))
              (focus this) (plane this).

Definition updateFocusPoint (this : t) : t :=
  set_derived this (normalVector this)
    (Point.mk (Point.x (pos this) - Vector.x (normalVector this))
              (Point.y (pos this) - Vector.y (normalVector this))
              (Point.z (pos this) - Vector.z (normalVector this)))
    (plane this).

Definition updatePlane (this : t) : t :=
  set_derived this (normalVector this) (focus this)
              (getPlaneFromVectorAndPoint (normalVector this) (pos this)).

(** [null] for a vertex that is not in front of the plane.  For a vertex
    in front, the method calls [rayHalfLine.isOnIntersectionWithPlane]:
    HalfLine has no method of that name (its method is
    [getIntersectionWithPlane]), and Line is documented as a point and a
    vector with no operation of its own, so the property is [undefined] and
    the call is a TypeError; the lines after it are not reached. *)
Definition getProjectedVertex (this : t) (vertex : Vertex.t) : completion (option Vertex.t) :=
  if negb (Plane.isPointInFrontOf (plane this) (Vertex.point vertex)) then Return None
  else
    let rayVector := getVectorFrom2Points (focus this) (Vertex.point vertex) in
    let rayHalfLine := HalfLine.new (focus this) rayVector in
    TypeError.

Definition getConvertedVertex (this : t) (vertex : Vertex.t) : Vertex.t :=
  let vectorFromCamPos := getVectorFrom2Points (pos this) (Vertex.point vertex) in
  let x := Vector.x vectorFromCamPos in
  let y := Vector.y vectorFromCamPos in
  let z := Vector.z vectorFromCamPos in
  let sinRZ := sin_deg (rz this) in
  let cosRZ := cos_deg (rz this) in
  let sinRX := sin_deg (- rx this) in
  let cosRX := cos_deg (- rx this) in
  let x1 := cosRZ * x - sinRZ * y in
  let y1 := sinRZ * x + cosRZ * y in
  let z1 := z in
  let x2 := x1 in
  let y2 := cosRX * y1 - sinRX * z1 in
  let z2 := sinRX * y1 + cosRX * z1 in
  let x3 := x2 + Point.x (pos this) in
  let y3 := y2 + Point.y (pos this) in
  let z3 := z2 + Point.z (pos this) in
  Vertex.new x3 y3 z3 (Vertex.i vertex).

Definition getToDrawVertex (this : t) (vertex : Vertex.t) : completion (option XY.t) :=
  match getProjectedVertex this vertex with
  | TypeError => TypeError
  | Return None => Return None
  | Return (Some projectedVertex) =>
      let convertedVertex := getConvertedVertex this projectedVertex in
      let x := (Vertex.x convertedVertex - Point.x (pos this)) * expandingRatio this
               + canW this / 2 in
      let y := (Vertex.z convertedVertex - Point.z (pos this)) * - expandingRatio this
               + canH this / 2 in
      Return (Some (XY.mk x y))
  end.

(** The body of the loop of [drawEdges] from [convertedEdge] on: [None] is
    [continue], [Some] the call of [drawLine]; [toDrawVertex1.x] and
    [toDrawVertex2.x] are read whenever the two are not both [null]. *)
Definition drawConvertedEdge (this : t) (convertedEdge : Edge.t) : completion (option DrawCall) :=
  let vertex1 := Edge.vertex1 convertedEdge in
  let vertex2 := Edge.vertex2 convertedEdge in
  match getToDrawVertex this vertex1 with
  | TypeError => TypeError
  | Return toDrawVertex1 =>
      match getToDrawVertex this vertex2 with
      | TypeError => TypeError
      | Return toDrawVertex2 =>
          match toDrawVertex1, toDrawVertex2 with
          | None, None => Return None
          | Some t1, Some t2 =>
              Return (Some (drawLine con (XY.x t1) (XY.y t1) (XY.x t2) (XY.y t2)))
          | None, Some _ => TypeError
          | Some _, None => TypeError
          end
      end
  end.

(** One turn of the loop of [drawEdges] on edge values. *)
Definition drawEdge (this : t) (edge : Edge.t) : completion (option DrawCall) :=
  drawConvertedEdge this
    (snd (Edge.setVertexInFrontOfCamera (Edge.getClone edge) (plane this))).

(** One turn of the loop of [drawEdges] on the objects of the store. *)
Definition drawEdgesTurn (this : t) (edge : loc) : M unit :=
  clone ← Ref.Edge_getClone edge;
  r ← Ref.Edge_setVertexInFrontOfCamera clone (plane this);
  convertedEdge ← Ref.Edge_value r;
  d ← lift (drawConvertedEdge this convertedEdge);
  match d with
  | Some call => draw call
  | None => mret tt
  end.

Definition drawEdges (this : t) : M unit :=
  forOf (importedEdges this) (drawEdgesTurn this).

Definition drawVertexes (this : t) : M unit :=
  forOf (importedVertexes this) (fun l =>
    vertex ← loadVertex l;
    toDrawVertex ← lift (getToDrawVertex this vertex);
    match toDrawVertex with
    | None => mret tt
    | Some xy =>
        draw (drawCircle con (XY.x xy) (XY.y xy) (5 / 2));;
        draw (fillText con (Vertex.i vertex) (XY.x xy) (XY.y xy))
    end).

Definition move (this : t) (key : gmap string bool) : t :=
  let v := speed this / fps this in
  let rz0 := rz this in
  let p := pos this in
  let p := if held key "a"
           then Point.mk (Point.x p - cos_deg rz0 * v) (Point.y p + sin_deg rz0 * v) (Point.z p)
           else p in
  let p := if held key "d"
           then Point.mk (Point.x p + cos_deg rz0 * v) (Point.y p - sin_deg rz0 * v) (Point.z p)
           else p in
  let p := if held key "w"
           then Point.mk (Point.x p + sin_deg rz0 * v) (Point.y p + cos_deg rz0 * v) (Point.z p)
           else p in
  let p := if held key "s"
           then Point.mk (Point.x p - sin_deg rz0 * v) (Point.y p - cos_deg rz0 * v) (Point.z p)
           else p in
  let p := if held key " " then Point.mk (Point.x p) (Point.y p) (Point.z p + v) else p in
  let p := if held key "Shift" then Point.mk (Point.x p) (Point.y p) (Point.z p - v) else p in
  let rv := 2 in
  let rz1 := if held key "ArrowLeft" then rz0 - rv else rz0 in
  let rz2 := if held key "ArrowRight" then rz1 + rv else rz1 in
  let rx1 := if held key "ArrowUp" then rx this + rv else rx this in
  let rx2 := if held key "ArrowDown" then rx1 - rv else rx1 in
  set_pose this p rx2 rz2.

(** The part of [update] that recomputes the camera from [pos], [rx] and
    [rz]. *)
Definition recompute (this : t) : t :=
  updatePlane (updateFocusPoint (updateNormalVector this)).

Definition update (this : t) (key : gmap string bool) : M t :=
  let this := recompute (move this key) in
  drawEdges this;;
  drawVertexes this;;
  mret this.

(** constructor; the fields computed by [update] have no value before it
    runs, and none is read before it is assigned. *)
Definition new (pos : Point.t) (rx rz focalLength width height canW canH
    expandingRatio fps speed : R) (key : gmap string bool)
    (vertexes edges faces lights : list loc) : M t :=
  let this :=
    mk pos rx rz focalLength width height canW canH expandingRatio fps speed
       vertexes edges faces lights [] [] [] []
       (Vector.mk 0 0 0) (Point.mk 0 0 0) (Plane.mk 0 0 0 0) in
  this ← importShapes this;
  update this key.
End Camera.

(** The fields of the camera of camera.js that serve the rays through the
    pixels: the corner vectors and corner points of the view rectangle and
    the vectors of one pixel.  [update] computes them after the normal
    vector; they are kept in a record of their own. *)
Module Corners.
Record t (A : Type) : Type :=
  mk { topLeft : A; topRight : A; bottomLeft : A; bottomRight : A }.
Arguments mk {A} _ _ _ _.
Arguments topLeft {A} _.
Arguments topRight {A} _.
Arguments bottomLeft {A} _.
Arguments bottomRight {A} _.
End Corners.

Module CameraView.
Record t : Type :=
  mk { cornerVectorsFromPos : Corners.t Vector.t;
       cornerPoints : Corners.t Point.t;
       toRight : Vector.t;
       toBottom : Vector.t }.

Definition updateCornerVectorsFromPos (this : Camera.t) : Corners.t Vector.t :=
  let rotate v := Vector.rotate v (Camera.rx this) (Camera.rz this) in
  Corners.mk
    (rotate (Vector.mk (- Camera.width this / 2) 0 (Camera.height this / 2)))
    (rotate (Vector.mk (Camera.width this / 2) 0 (Camera.height this / 2)))
    (rotate (Vector.mk (- Camera.width this / 2) 0 (- Camera.height this / 2)))
    (rotate (Vector.mk (Camera.width this / 2) 0 (- Camera.height this / 2))).

Definition updateCornerPoints (this : Camera.t)
    (cornerVectorsFromPos : Corners.t Vector.t) : Corners.t Point.t :=
  Corners.mk
    (Point.move (Point.getClone (Camera.pos this)) (Corners.topLeft cornerVectorsFromPos))
    (Point.move (Point.getClone (Camera.pos this)) (Corners.topRight cornerVectorsFromPos))
    (Point.move (Point.getClone (Camera.pos this)) (Corners.bottomLeft cornerVectorsFromPos))
    (Point.move (Point.getClone (Camera.pos this)) (Corners.bottomRight cornerVectorsFromPos)).

(** [onCameraPlane1pxVector]: the vectors from the top left corner to the
    top right and to the bottom left corner, multiplied by [1 / canW] and
    [1 / canH]; no vectors when [canW] or [canH] is zero. *)
Definition updateOnCameraPlaneVector (this : Camera.t)
    (cornerPoints : Corners.t Point.t) : option (Vector.t * Vector.t) :=
  let toRight :=
    getVectorFrom2Points (Corners.topLeft cornerPoints) (Corners.topRight cornerPoints) in
  let toBottom :=
    getVectorFrom2Points (Corners.topLeft cornerPoints) (Corners.bottomLeft cornerPoints) in
  if decide (Camera.canW this = 0) then None
  else if decide (Camera.canH this = 0) then None
  else Some (Vector.multiplication toRight (1 / Camera.canW this),
             Vector.multiplication toBottom (1 / Camera.canH this)).

(** The three steps of [update], in its order. *)
Definition update (this : Camera.t) : option t :=
  let cornerVectorsFromPos := updateCornerVectorsFromPos this in
  let cornerPoints := updateCornerPoints this cornerVectorsFromPos in
  match updateOnCameraPlaneVector this cornerPoints with
  | Some (toRight, toBottom) => Some (mk cornerVectorsFromPos cornerPoints toRight toBottom)
  | None => None
  end.

Definition getCameraViewLayHalfLine (this : Camera.t) (view : t) (x y : R) : HalfLine.t :=
  let cameraVectorToBottomPixel :=
    Vector.multiplication (Vector.getClone (toBottom view)) y in
  let cameraVectorToRightPixel :=
    Vector.multiplication (Vector.getClone (toRight view)) x in
  let cameraPixelVectorFromFocus :=
    getSumOfVectors [cameraVectorToBottomPixel; cameraVectorToRightPixel;
                     Corners.topLeft (cornerVectorsFromPos view);
                     Camera.normalVector this] in
  HalfLine.new (Camera.focus this) cameraPixelVectorFromFocus.
End CameraView.

(** ** main.js

    The Camera class of main.js reads the scene and the key states from
    the globals [vertexesList], [edges] and [key], which are arguments
    here, as is the width of the second canvas. *)

Definition CAMERA_W : R := 32 / 10.
Definition CAMERA_H : R := 18 / 10.
Definition expandingRatio : R := 64.
Definition CAN_W : R := CAMERA_W * expandingRatio.
Definition CAN_H : R := CAMERA_H * expandingRatio.

Module MainCamera.
(** The corner vectors and corner points, which nothing reads, are left
    out. *)
Record t : Type :=
  mk { pos : Point.t; rx : R; rz : R; focalLength : R; width : R; height : R;
       normalVector : Vector.t; focus : Point.t; plane : Plane.t;
       importedVertexes : list loc; importedEdges : list loc }.

Definition set_pose (this : t) (p : Point.t) (rx' rz' : R) : t :=
  mk p rx' rz' (focalLength this) (width this) (height this)
     (normalVector this) (focus this) (plane this)
     (importedVertexes this) (importedEdges this).

Definition set_derived (this : t) (n : Vector.t) (f : Point.t) (pl : Plane.t) : t :=
  mk (pos this) (rx this) (rz this) (focalLength this) (width this) (height this)
     n f pl (importedVertexes this) (importedEdges this).

Definition set_imported (this : t) (iv ie : list loc) : t :=
  mk (pos this) (rx this) (rz this) (focalLength this) (width this) (height this)
     (normalVector this) (focus this) (plane this) iv ie.

Definition updateNormalVector (this : t) : t :=
  set_derived this (Vector.rotate (Vector.mk 0 (focalLength this) 0) (rx this) (rz this))
              (focus this) (plane this).

Definition updateFocusPoint (this : t) : t :=
  set_derived this (normalVector this)
    (Point.mk (Point.x (pos this) - Vector.x (normalVector this))
              (Point.y (pos this) - Vector.y (normalVector this))
              (Point.z (pos this) - Vector.z (normalVector this)))
    (plane this).

Definition updatePlane (this : t) : t :=
  set_derived this (normalVector this) (focus this)
              (getPlaneFromVectorAndPoint (normalVector this) (pos this)).

Definition importShapes (this : t) (vertexesList edges : list loc) : M t :=
  iv ← mapA Ref.Vertex_getClone vertexesList;
  ie ← mapA Ref.Edge_getClone edges;
  mret (set_imported this iv ie).

(** No front check and no range check here.  [None]: the ray is parallel
    to the plane and the coordinates of the result are not numbers. *)
Definition getProjectedVertex (this : t) (vertex : Vertex.t) : option Vertex.t :=
  let rayVector :=
    Vector.mk (Point.x (focus this) - Vertex.x vertex)
              (Point.y (focus this) - Vertex.y vertex)
              (Point.z (focus this) - Vertex.z vertex) in
  let rayLine := Line.mk (focus this) rayVector in
  match getIntersectionFromLineAndPlane rayLine (plane this) with
  | Some intersection =>
      Some (Vertex.new (Point.x intersection) (Point.y intersection)
                       (Point.z intersection) (Vertex.i vertex))
  | None => None
  end.

(** The projection by the distance of the vertex to the plane; [abs] and
    [sqrt] of math.js are the absolute value and the square root.
    [vectorFromFocusToVertex.multiplication(ratio)] is called for its effect
    on the vector, which is read afterwards.  No vertex when a divisor is
    zero. *)
Definition getProjectedVertex2 (this : t) (vertex : Vertex.t) : option Vertex.t :=
  let a := Plane.a (plane this) in
  let b := Plane.b (plane this) in
  let c := Plane.c (plane this) in
  let d := Plane.d (plane this) in
  let x0 := Vertex.x vertex in
  let y0 := Vertex.y vertex in
  let z0 := Vertex.z vertex in
  if decide (sqrt (a ^ 2 + b ^ 2 + c ^ 2) = 0) then None
  else
    let lengthFromPointToPlane :=
      Rabs (a * x0 + b * y0 + c * z0 + d) / sqrt (a ^ 2 + b ^ 2 + c ^ 2) in
    if decide (Vector.length (normalVector this) + lengthFromPointToPlane = 0) then None
    else
      let ratio :=
        Vector.length (normalVector this)
        / (Vector.length (normalVector this) + lengthFromPointToPlane) in
      let vectorFromFocusToVertex :=
        Vector.multiplication
          (Vector.mk (Vertex.x vertex - Point.x (focus this))
                     (Vertex.y vertex - Point.y (focus this))
                     (Vertex.z vertex - Point.z (focus this)))
          ratio in
      Some (Vertex.new (Point.x (focus this) + Vector.x vectorFromFocusToVertex)
                       (Point.y (focus this) + Vector.y vectorFromFocusToVertex)
                       (Point.z (focus this) + Vector.z vectorFromFocusToVertex)
                       (Vertex.i vertex)).

Definition getConvertedVertex (this : t) (vertex : Vertex.t) : Vertex.t :=
  let x := Vertex.x vertex - Point.x (pos this) in
  let y := Vertex.y vertex - Point.y (pos this) in
  let z := Vertex.z vertex - Point.z (pos this) in
  let sinRZ := sin_deg (rz this) in
  let cosRZ := cos_deg (rz this) in
  let sinRX := sin_deg (- rx this) in
  let cosRX := cos_deg (- rx this) in
  let x1 := cosRZ * x - sinRZ * y in
  let y1 := sinRZ * x + cosRZ * y in
  let z1 := z in
  let x2 := x1 in
  let y2 := cosRX * y1 - sinRX * z1 in
  let z2 := sinRX * y1 + cosRX * z1 in
  let x3 := x2 + Point.x (pos this) in
  let y3 := y2 + Point.y (pos this) in
  let z3 := z2 + Point.z (pos this) in
  Vertex.new x3 y3 z3 (Vertex.i vertex).

Definition getOnScreenVertex (this : t) (vertex : Vertex.t) : option Vertex.t :=
  match getProjectedVertex this vertex with
  | Some projectedVertex => Some (getConvertedVertex this projectedVertex)
  | None => None
  end.

Definition getToDrawVertex (this : t) (convertedVertex : Vertex.t) : XY.t :=
  XY.mk ((Vertex.x convertedVertex - Point.x (pos this)) * expandingRatio + CAN_W / 2)
        ((Vertex.z convertedVertex - Point.z (pos this)) * - expandingRatio + CAN_H / 2).

(** [isPointInFrontOf] is called on the Vertex itself and reads its
    [x], [y] and [z]. *)
Definition isVertexInFrontOf (plane : Plane.t) (vertex : Vertex.t) : bool :=
  Plane.isPointInFrontOf plane (Point.mk (Vertex.x vertex) (Vertex.y vertex) (Vertex.z vertex)).

(** The loop over the imported edges: each is clipped in place, the value
    returned by [setVertexInFrontOfCamera] is dropped and the fields of the
    edge are read again.  A call of the rasterizer with a coordinate that is
    not a number draws nothing. *)
Definition drawEdges (this : t) : M unit :=
  forOf (importedEdges this) (fun edge =>
    Ref.Edge_setVertexInFrontOfCamera edge (plane this);;
    e ← loadEdge edge;
    v1 ← loadVertex (EdgeObj.vertex1 e);
    v2 ← loadVertex (EdgeObj.vertex2 e);
    if negb (isVertexInFrontOf (plane this) v1) && negb (isVertexInFrontOf (plane this) v2)
    then mret tt
    else
      c1 ← Ref.Vertex_getClone (EdgeObj.vertex1 e);
      c2 ← Ref.Vertex_getClone (EdgeObj.vertex2 e);
      vertex1 ← loadVertex c1;
      vertex2 ← loadVertex c2;
      match getOnScreenVertex this vertex1, getOnScreenVertex this vertex2 with
      | Some onScreenVertex1, Some onScreenVertex2 =>
          let toDrawVertex1 := getToDrawVertex this onScreenVertex1 in
          let toDrawVertex2 := getToDrawVertex this onScreenVertex2 in
          draw (drawLine con (XY.x toDrawVertex1) (XY.y toDrawVertex1)
                             (XY.x toDrawVertex2) (XY.y toDrawVertex2))
      | _, _ => mret tt
      end).

Definition drawVertexes (this : t) : M unit :=
  forOf (importedVertexes this) (fun l =>
    vertex ← loadVertex l;
    if negb (isVertexInFrontOf (plane this) vertex) then mret tt
    else
      match getOnScreenVertex this vertex with
      | Some onScreenVertex1 =>
          let toDrawVertex := getToDrawVertex this onScreenVertex1 in
          draw (drawCircle con (XY.x toDrawVertex) (XY.y toDrawVertex) (5 / 2));;
          draw (fillText con (Vertex.i onScreenVertex1) (XY.x toDrawVertex) (XY.y toDrawVertex))
      | None => mret tt
      end).

(** The top view on the second canvas reads the canonical scene. *)
Definition drawTopView (this : t) (vertexesList edges : list loc) (can2_width : R) : M unit :=
  let can2ER := 10 in
  let can2Half := can2_width / 2 in
  draw (drawCircle con2 (Point.x (pos this) * can2ER + can2Half)
                        (Point.y (pos this) * - can2ER + can2Half) 3);;
  draw (drawCircle con2 (Point.x (focus this) * can2ER + can2Half)
                        (Point.y (focus this) * - can2ER + can2Half) 2);;
  forOf vertexesList (fun l =>
    vertex ← loadVertex l;
    draw (drawCircle con2 (Vertex.x vertex * can2ER + can2Half)
                          (Vertex.y vertex * - can2ER + can2Half) (5 / 2)));;
  forOf edges (fun l =>
    e ← loadEdge l;
    v1 ← loadVertex (EdgeObj.vertex1 e);
    v2 ← loadVertex (EdgeObj.vertex2 e);
    draw (drawLine con2 (Vertex.x v1 * can2ER + can2Half) (Vertex.y v1 * - can2ER + can2Half)
                        (Vertex.x v2 * can2ER + can2Half) (Vertex.y v2 * - can2ER + can2Half))).

Definition draw (this : t) (vertexesList edges : list loc) (can2_width : R) : M unit :=
  drawVertexes this;;
  drawEdges this;;
  drawTopView this vertexesList edges can2_width.

Definition move (this : t) (key : gmap string bool) : t :=
  let v := 1 / 10 in
  let rz0 := rz this in
  let p := pos this in
  let p := if held key "a"
           then Point.mk (Point.x p - cos_deg rz0 * v) (Point.y p + sin_deg rz0 * v) (Point.z p)
           else p in
  let p := if held key "d"
           then Point.mk (Point.x p + cos_deg rz0 * v) (Point.y p - sin_deg rz0 * v) (Point.z p)
           else p in
  let p := if held key "w"
           then Point.mk (Point.x p + sin_deg rz0 * v) (Point.y p + cos_deg rz0 * v) (Point.z p)
           else p in
  let p := if held key "s"
           then Point.mk (Point.x p - sin_deg rz0 * v) (Point.y p - cos_deg rz0 * v) (Point.z p)
           else p in
  let p := if held key " " then Point.mk (Point.x p) (Point.y p) (Point.z p + v) else p in
  let p := if held key "Shift" then Point.mk (Point.x p) (Point.y p) (Point.z p - v) else p in
  let rv := 2 in
  let rz1 := if held key "ArrowLeft" then rz0 - rv else rz0 in
  let rz2 := if held key "ArrowRight" then rz1 + rv else rz1 in
  let rx1 := if held key "ArrowUp" then rx this + rv else rx this in
  let rx2 := if held key "ArrowDown" then rx1 - rv else rx1 in
  set_pose this p rx2 rz2.

Definition update (this : t) (key : gmap string bool)
    (vertexesList edges : list loc) (can2_width : R) : M t :=
  let this := updatePlane (updateFocusPoint (updateNormalVector (move this key))) in
  this ← importShapes this vertexesList edges;
  draw this vertexesList edges can2_width;;
  mret this.

(** constructor *)
Definition new (pos : Point.t) (rx rz focalLength width height : R)
    (key : gmap string bool) (vertexesList edges : list loc) (can2_width : R) : M t :=
  update (mk pos rx rz focalLength width height
             (Vector.mk 0 0 0) (Point.mk 0 0 0) (Plane.mk 0 0 0 0) [] [])
         key vertexesList edges can2_width.
End MainCamera.

(** ** The animation loop

    The host calls [update] once per frame with the key states of the
    moment.  A TypeError that escapes [update] is reported by the host and
    the next frame runs all the same: the camera of camera.js has then been
    moved and recomputed, which [update] does before it draws; for the
    camera of main.js, whose [update] assigns to its fields while it imports,
    any state of the camera is allowed. *)

Inductive Camera_frames : Camera.t -> World.t -> Camera.t -> World.t -> Prop :=
  | Camera_frames_done this w : Camera_frames this w this w
  | Camera_frames_update this key w this' w' this'' w'' :
      Camera.update this key w = (Return this', w') ->
      Camera_frames this' w' this'' w'' ->
      Camera_frames this w this'' w''
  | Camera_frames_error this key w w' this'' w'' :
      Camera.update this key w = (TypeError, w') ->
      Camera_frames (Camera.recompute (Camera.move this key)) w' this'' w'' ->
      Camera_frames this w this'' w''.

Inductive MainCamera_frames (vertexesList edges : list loc) (can2_width : R) :
    MainCamera.t -> World.t -> MainCamera.t -> World.t -> Prop :=
  | MainCamera_frames_done this w : MainCamera_frames vertexesList edges can2_width this w this w
  | MainCamera_frames_update this key w this' w' this'' w'' :
      MainCamera.update this key vertexesList edges can2_width w = (Return this', w') ->
      MainCamera_frames vertexesList edges can2_width this' w' this'' w'' ->
      MainCamera_frames vertexesList edges can2_width this w this'' w''
  | MainCamera_frames_error this key w this' w' this'' w'' :
      MainCamera.update this key vertexesList edges can2_width w = (TypeError, w') ->
      MainCamera_frames vertexesList edges can2_width this' w' this'' w'' ->
      MainCamera_frames vertexesList edges can2_width this w this'' w''.

(** Every object of [w] is found unchanged in [w']. *)
Definition unchanged (w w' : World.t) : Prop :=
  forall (l : loc) (o : obj),
    World.objects w !! l = Some o -> World.objects w' !! l = Some o.

(** ** The scene and the camera of main.js at its start *)

(** The view plane of a camera at (0,-1,0) with [rx = rz = 0] and focal
    length 3: the plane y = -1, seen along the y axis. *)
Definition startPlane : Plane.t :=
  getPlaneFromVectorAndPoint (Vector.mk 0 3 0) (Point.mk 0 (-1) 0).

(** [vertexesList[1]] and [vertexesList[2]], and the first edge of the cube. *)
Definition cubeVertex1 : Vertex.t := Vertex.new 1 2 1 (Some 1%nat).
Definition cubeVertex2 : Vertex.t := Vertex.new 1 2 (-1) (Some 2%nat).
Definition cubeEdge : Edge.t := Edge.new cubeVertex1 cubeVertex2.

(** An edge that runs through the view plane, from behind the camera to
    the vertex (0,3,0). *)
Definition behindVertex : Vertex.t := Vertex.new 0 (-2) 0 (Some 1%nat).
Definition aheadVertex : Vertex.t := Vertex.new 0 3 0 (Some 0%nat).
Definition crossingEdge : Edge.t := Edge.new behindVertex aheadVertex.

(** [m], run in any world that has the objects of [w0] unchanged, leaves
    them unchanged, and a value it returns satisfies [Q]. *)
Definition frame (w0 : World.t) {A : Type} (m : M A) (Q : A -> Prop) : Prop :=
  forall w,
    unchanged w0 w ->
    unchanged w0 (snd (m w)) /\ (forall a, fst (m w) = Return a -> Q a).

(** The world [w] holds the object [o] at [l]. *)
Definition holds (w : World.t) (l : loc) (o : obj) : Prop := World.objects w !! l = Some o.

(** A reference that the world [w0] does not hold. *)
Definition fresh_for (w0 : World.t) (l : loc) : Prop := World.objects w0 !! l = None.

(** A world with the first edge of the cube: its two Vertex objects and
    the Edge object that holds them. *)
Definition cubeEdgeObj : EdgeObj.t :=
  EdgeObj.mk 1%positive 2%positive (Edge.vector cubeEdge) (Edge.line cubeEdge).
Definition cubeWorld : World.t :=
  World.mk (<[3%positive := OEdge cubeEdgeObj]>
             (<[2%positive := OVertex cubeVertex2]>
                (<[1%positive := OVertex cubeVertex1]> ∅))) [].

(** A world with the edge that runs through the view plane. *)
Definition crossingEdgeObj : EdgeObj.t :=
  EdgeObj.mk 1%positive 2%positive (Edge.vector crossingEdge) (Edge.line crossingEdge).
Definition crossingWorld : World.t :=
  World.mk (<[3%positive := OEdge crossingEdgeObj]>
             (<[2%positive := OVertex aheadVertex]>
                (<[1%positive := OVertex behindVertex]> ∅))) [].

(** The camera of main.js before its first [update]. *)
Definition mainCamera0 : MainCamera.t :=
  MainCamera.mk (Point.mk 0 (-1) 0) 0 0 3 CAMERA_W CAMERA_H
                (Vector.mk 0 0 0) (Point.mk 0 0 0) (Plane.mk 0 0 0 0) [] [].

(** The camera of the end-to-end scenario, recomputed from its position
    and angles, with no scene. *)
Definition scenarioCamera0 : Camera.t :=
  Camera.mk (Point.mk 0 (-1) 0) 0 0 3 (32 / 10) (18 / 10) (2048 / 10) (1152 / 10) 64 60 1
            [] [] [] [] [] [] [] []
            (Vector.mk 0 0 0) (Point.mk 0 0 0) (Plane.mk 0 0 0 0).
Definition scenarioCamera : Camera.t := Camera.recompute scenarioCamera0.

(** An edge from behind the view plane of that camera to a vertex of the
    plane itself. *)
Definition touchingEdge : Edge.t :=
  Edge.new (Vertex.new 0 (-2) 0 (Some 1%nat)) (Vertex.new 0 (-1) 0 (Some 2%nat)).

(** Two overlapping triangles of the plane x + y + z = 3, and the ray from
    the origin along (1,1,1), which meets both at (1,1,1); the opposite ray
    meets neither. *)
Definition slantFace : Face.t :=
  Face.new (Vertex.new 3 0 0 None) (Vertex.new 0 3 0 None) (Vertex.new 0 0 3 None) None None.
Definition slantFace' : Face.t :=
  Face.new (Vertex.new 5 (-1) (-1) None) (Vertex.new (-1) 5 (-1) None)
           (Vertex.new (-1) (-1) 5 None) None None.
Definition diagonalRay : HalfLine.t := HalfLine.new (Point.mk 0 0 0) (Vector.mk 1 1 1).

(** A face with three vertices on one line, which the constructor takes as
    any other: its two edge vectors are (1,0,0) and (2,0,0), its normal
    vector is zero and its plane equation is 0 = 0. *)
Definition flatFace : Face.t :=
  Face.new (Vertex.new 0 0 0 None) (Vertex.new 1 0 0 None) (Vertex.new 2 0 0 None) None None.
Definition oppositeRay : HalfLine.t :=
  HalfLine.new (Point.mk 0 0 0) (Vector.mk (-1) (-1) (-1)).

(** The faces of a list that a ray hits. *)
Definition isHit (edgeOrHalfLine : EdgeOrHalfLine) (face : Face.t) : bool :=
  match getIntersectionEdgeOrHalfLineAndFace edgeOrHalfLine face with
  | Some _ => true
  | None => false
  end.

(** The point from which the distances of the hits are measured. *)
Definition rayOrigin (edgeOrHalfLine : EdgeOrHalfLine) : Point.t :=
  match edgeOrHalfLine with
  | AnEdge e => Vertex.point (Edge.vertex1 e)
  | AHalfLine h => HalfLine.point h
  end.

(** The two orders on hits. *)
Definition ascending (a b : Hit.t) : Prop := Hit.length a <= Hit.length b.
Definition strictlyAscending (a b : Hit.t) : Prop := Hit.length a < Hit.length b.

(** ** The values of the objects of a store

    The Vertex, Edge, Face or Light value that a world holds at a
    reference: for an Edge or a Face, the values of the Vertex objects it
    refers to, with its own fields. *)

Definition vertexAt (w : World.t) (l : loc) (v : Vertex.t) : Prop := holds w l (OVertex v).

Definition edgeAt (w : World.t) (l : loc) (e : Edge.t) : Prop :=
  exists eo,
    holds w l (OEdge eo) /\
    holds w (EdgeObj.vertex1 eo) (OVertex (Edge.vertex1 e)) /\
    holds w (EdgeObj.vertex2 eo) (OVertex (Edge.vertex2 e)) /\
    Edge.vector e = EdgeObj.vector eo /\ Edge.line e = EdgeObj.line eo.

Definition faceAt (w : World.t) (l : loc) (f : Face.t) : Prop :=
  exists fo,
    holds w l (OFace fo) /\
    holds w (FaceObj.vertex1 fo) (OVertex (Face.vertex1 f)) /\
    holds w (FaceObj.vertex2 fo) (OVertex (Face.vertex2 f)) /\
    holds w (FaceObj.vertex3 fo) (OVertex (Face.vertex3 f)) /\
    f = Face.mk (Face.vertex1 f) (Face.vertex2 f) (Face.vertex3 f)
                (FaceObj.color fo) (FaceObj.roughness fo) (FaceObj.vector1 fo)
                (FaceObj.vector2 fo) (FaceObj.normalVector fo) (FaceObj.plane fo).

Definition lightAt (w : World.t) (l : loc) (o : Light.t) : Prop := holds w l (OLight o).

(** The Edge or the Face of [w] at [l] refers to Vertex objects that the
    world [w0] does not hold. *)
Definition edgeOnNewVertexes (w0 w : World.t) (l : loc) : Prop :=
  exists eo,
    holds w l (OEdge eo) /\
    fresh_for w0 (EdgeObj.vertex1 eo) /\ fresh_for w0 (EdgeObj.vertex2 eo).

Definition faceOnNewVertexes (w0 w : World.t) (l : loc) : Prop :=
  exists fo,
    holds w l (OFace fo) /\
    fresh_for w0 (FaceObj.vertex1 fo) /\ fresh_for w0 (FaceObj.vertex2 fo) /\
    fresh_for w0 (FaceObj.vertex3 fo).

(** What the loops of [draw] of main.js hand to the rasterizer for one
    imported vertex and for one imported edge, and the calls of the top
    view. *)
Definition MainCamera_vertexCalls (this : MainCamera.t) (vertex : Vertex.t) : list DrawCall :=
  if negb (MainCamera.isVertexInFrontOf (MainCamera.plane this) vertex) then []
  else
    match MainCamera.getOnScreenVertex this vertex with
    | Some onScreenVertex1 =>
        let toDrawVertex := MainCamera.getToDrawVertex this onScreenVertex1 in
        [drawCircle con (XY.x toDrawVertex) (XY.y toDrawVertex) (5 / 2);
         fillText con (Vertex.i onScreenVertex1) (XY.x toDrawVertex) (XY.y toDrawVertex)]
    | None => []
    end.

Definition MainCamera_edgeCalls (this : MainCamera.t) (edge : Edge.t) : list DrawCall :=
  let edge := fst (Edge.setVertexInFrontOfCamera edge (MainCamera.plane this)) in
  if negb (MainCamera.isVertexInFrontOf (MainCamera.plane this) (Edge.vertex1 edge))
     && negb (MainCamera.isVertexInFrontOf (MainCamera.plane this) (Edge.vertex2 edge))
  then []
  else
    match MainCamera.getOnScreenVertex this (Vertex.getClone (Edge.vertex1 edge)),
          MainCamera.getOnScreenVertex this (Vertex.getClone (Edge.vertex2 edge)) with
    | Some onScreenVertex1, Some onScreenVertex2 =>
        let toDrawVertex1 := MainCamera.getToDrawVertex this onScreenVertex1 in
        let toDrawVertex2 := MainCamera.getToDrawVertex this onScreenVertex2 in
        [drawLine con (XY.x toDrawVertex1) (XY.y toDrawVertex1)
                      (XY.x toDrawVertex2) (XY.y toDrawVertex2)]
    | _, _ => []
    end.

Definition topViewCalls (this : MainCamera.t) (vertexes : list Vertex.t) (edges : list Edge.t)
    (can2_width : R) : list DrawCall :=
  let can2ER := 10 in
  let can2Half := can2_width / 2 in
  [drawCircle con2 (Point.x (MainCamera.pos this) * can2ER + can2Half)
                   (Point.y (MainCamera.pos this) * - can2ER + can2Half) 3;
   drawCircle con2 (Point.x (MainCamera.focus this) * can2ER + can2Half)
                   (Point.y (MainCamera.focus this) * - can2ER + can2Half) 2]
  ++ ((fun vertex => drawCircle con2 (Vertex.x vertex * can2ER + can2Half)
                                     (Vertex.y vertex * - can2ER + can2Half) (5 / 2))
        <$> vertexes)
  ++ ((fun edge =>
         drawLine con2 (Vertex.x (Edge.vertex1 edge) * can2ER + can2Half)
                       (Vertex.y (Edge.vertex1 edge) * - can2ER + can2Half)
                       (Vertex.x (Edge.vertex2 edge) * can2ER + can2Half)
                       (Vertex.y (Edge.vertex2 edge) * - can2ER + can2Half))
        <$> edges).

(** * Properties *)

(** ** Vertex *)

Lemma Vertex_new_inv (x y z : R) (i : option nat) : Vertex.inv (Vertex.new x y z i).
Proof. reflexivity. Qed.

Lemma Vertex_getClone_inv (v : Vertex.t) : Vertex.inv (Vertex.getClone v).
Proof. reflexivity. Qed.

(** A vertex that satisfies the invariant is equal to its clone. *)
Lemma Vertex_getClone_eq (v : Vertex.t) : Vertex.inv v -> Vertex.getClone v = v.
Proof.
  destruct v as [x y z i p]. unfold Vertex.inv, Vertex.getClone, Vertex.new. simpl.
  intros ->. reflexivity.
Qed.

(** C10: the scalar fields of a Vertex are the coordinates of its point.
    The constructor establishes this; [getClone] gives a Vertex with the
    same [x], [y], [z] and [i] that satisfies it; [move] adds the vector to
    the scalar fields and to the point of the receiver, keeps [i], keeps the
    invariant, and returns a Vertex equal to the receiver as it has become. *)
Theorem Vertex_invariant :
  (forall x y z i,
      let v := Vertex.new x y z i in
      Vertex.inv v /\ Vertex.x v = x /\ Vertex.y v = y /\ Vertex.z v = z /\ Vertex.i v = i) /\
  (forall v,
      let c := Vertex.getClone v in
      Vertex.inv c /\ Vertex.x c = Vertex.x v /\ Vertex.y c = Vertex.y v /\
      Vertex.z c = Vertex.z v /\ Vertex.i c = Vertex.i v) /\
  (forall v vector,
      Vertex.inv v ->
      let this' := fst (Vertex.move v vector) in
      let returned := snd (Vertex.move v vector) in
      Vertex.x this' = Vertex.x v + Vector.x vector /\
      Vertex.y this' = Vertex.y v + Vector.y vector /\
      Vertex.z this' = Vertex.z v + Vector.z vector /\
      Vertex.point this' = Point.move (Vertex.point v) vector /\
      Vertex.i this' = Vertex.i v /\
      Vertex.inv this' /\
      returned = this').
Proof.
  split; [|split].
  - intros x y z i v. subst v. repeat split.
  - intros v c. subst c. repeat split.
  - intros v vector Hinv this' returned.
    assert (Hinv' : Vertex.inv this').
    { subst this'. unfold Vertex.inv in *. simpl. rewrite Hinv. reflexivity. }
    repeat split; try assumption.
    subst returned this'. simpl. apply Vertex_getClone_eq, Hinv'.
Qed.

Lemma Vertex_invariant_witness :
  Vertex.inv (Vertex.new 1 2 3 (Some 4%nat)) /\
  snd (Vertex.move (Vertex.new 1 2 3 (Some 4%nat)) (Vector.mk 1 0 0))
  = fst (Vertex.move (Vertex.new 1 2 3 (Some 4%nat)) (Vector.mk 1 0 0)).
Proof.
  split; [reflexivity|].
  apply (proj2 (proj2 Vertex_invariant) (Vertex.new 1 2 3 (Some 4%nat)) (Vector.mk 1 0 0)).
  reflexivity.
Defined.

(** ** Lines, planes and the range test of an Edge *)

Lemma isPointInFrontOf_true (pl : Plane.t) (p : Point.t) :
  Plane.isPointInFrontOf pl p = true <-> 0 < Plane.side pl p.
Proof. unfold Plane.isPointInFrontOf, Plane.side. apply bool_decide_eq_true. Qed.

Lemma isPointInFrontOf_false (pl : Plane.t) (p : Point.t) :
  Plane.isPointInFrontOf pl p = false <-> Plane.side pl p <= 0.
Proof.
  unfold Plane.isPointInFrontOf, Plane.side. rewrite bool_decide_eq_false. lra.
Qed.

(** The denominator of the line-plane intersection is the difference of the
    plane equation at the two ends of the direction vector. *)
Lemma side_move (pl : Plane.t) (p : Point.t) (v : Vector.t) :
  Plane.side pl (Point.move p v)
  = Plane.side pl p
    + (Plane.a pl * Vector.x v + Plane.b pl * Vector.y v + Plane.c pl * Vector.z v).
Proof. unfold Plane.side, Plane.eval, Point.move. simpl. ring. Qed.

Lemma intersection_on_plane (l : Line.t) (pl : Plane.t) (p : Point.t) :
  getIntersectionFromLineAndPlane l pl = Some p -> Plane.side pl p = 0.
Proof.
  unfold getIntersectionFromLineAndPlane. case_decide as Hden; [discriminate|].
  intros [= <-]. unfold Plane.side, Plane.eval. simpl. field. exact Hden.
Qed.

Lemma Vector_length_pos (v : Vector.t) :
  Vector.x v <> 0 \/ Vector.y v <> 0 \/ Vector.z v <> 0 -> 0 < Vector.length v.
Proof.
  intros H. unfold Vector.length. apply sqrt_lt_R0.
  destruct H as [H | [H | H]]; nra.
Qed.

Lemma between_Rmin_Rmax (a b t : R) :
  0 <= t <= 1 -> Rmin a b <= a + t * (b - a) /\ Rmax a b >= a + t * (b - a).
Proof.
  intros Ht. unfold Rmin, Rmax. destruct (Rle_dec a b); split; nra.
Qed.

Lemma outside_Rmin_Rmax (a b t : R) :
  a <> b -> t < 0 \/ 1 < t ->
  ~ (Rmin a b <= a + t * (b - a) /\ Rmax a b >= a + t * (b - a)).
Proof.
  intros Hab Ht [H1 H2]. unfold Rmin, Rmax in *.
  destruct (Rle_dec a b); destruct Ht; nra.
Qed.

Lemma isPointInRange_true (e : Edge.t) (p : Point.t) :
  Edge.isPointInRange e p = true <->
  (Rmin (Vertex.x (Edge.vertex1 e)) (Vertex.x (Edge.vertex2 e)) <= Point.x p /\
   Rmax (Vertex.x (Edge.vertex1 e)) (Vertex.x (Edge.vertex2 e)) >= Point.x p) /\
  (Rmin (Vertex.y (Edge.vertex1 e)) (Vertex.y (Edge.vertex2 e)) <= Point.y p /\
   Rmax (Vertex.y (Edge.vertex1 e)) (Vertex.y (Edge.vertex2 e)) >= Point.y p) /\
  (Rmin (Vertex.z (Edge.vertex1 e)) (Vertex.z (Edge.vertex2 e)) <= Point.z p /\
   Rmax (Vertex.z (Edge.vertex1 e)) (Vertex.z (Edge.vertex2 e)) >= Point.z p).
Proof.
  unfold Edge.isPointInRange. rewrite !andb_true_iff, !bool_decide_eq_true. tauto.
Qed.

Section Clipping.
Variables (e : Edge.t) (plane : Plane.t).
Hypothesis Hwf : Edge.wf e.

Let p1 := Vertex.point (Edge.vertex1 e).
Let p2 := Vertex.point (Edge.vertex2 e).

Lemma wf_vector :
  Edge.vector e = getVectorFrom2Points p1 p2 /\ Edge.line e = Line.mk p1 (Edge.vector e).
Proof. destruct Hwf as (_ & _ & Hv & Hl). split; assumption. Qed.

Lemma wf_coordinates :
  p1 = Point.mk (Vertex.x (Edge.vertex1 e)) (Vertex.y (Edge.vertex1 e)) (Vertex.z (Edge.vertex1 e)) /\
  p2 = Point.mk (Vertex.x (Edge.vertex2 e)) (Vertex.y (Edge.vertex2 e)) (Vertex.z (Edge.vertex2 e)).
Proof. destruct Hwf as (H1 & H2 & _). split; assumption. Qed.

(** The denominator of the intersection of the edge's line with the plane
    is the difference of the plane equation at the two endpoints. *)
Lemma wf_denominator :
  Plane.a plane * Vector.x (Edge.vector e) + Plane.b plane * Vector.y (Edge.vector e)
  + Plane.c plane * Vector.z (Edge.vector e)
  = Plane.side plane p2 - Plane.side plane p1.
Proof.
  destruct wf_vector as [-> _].
  unfold getVectorFrom2Points, Plane.side, Plane.eval. simpl. ring.
Qed.

Lemma parallel_no_intersection :
  Plane.side plane p1 = Plane.side plane p2 ->
  getIntersectionFromLineAndPlane (Edge.line e) plane = None.
Proof.
  intros Heq. destruct wf_vector as [_ Hl]. rewrite Hl.
  unfold getIntersectionFromLineAndPlane. simpl.
  rewrite wf_denominator. case_decide as Hd; [reflexivity|]. lra.
Qed.

Lemma crossing_intersection :
  Plane.side plane p1 <> Plane.side plane p2 ->
  exists t I,
    t * (Plane.side plane p2 - Plane.side plane p1) = - Plane.side plane p1 /\
    getIntersectionFromLineAndPlane (Edge.line e) plane = Some I /\
    Point.x I = Point.x p1 + t * (Point.x p2 - Point.x p1) /\
    Point.y I = Point.y p1 + t * (Point.y p2 - Point.y p1) /\
    Point.z I = Point.z p1 + t * (Point.z p2 - Point.z p1).
Proof.
  intros Hne.
  exists (- Plane.side plane p1 / (Plane.side plane p2 - Plane.side plane p1)).
  destruct wf_vector as [Hv Hl]. rewrite Hl.
  unfold getIntersectionFromLineAndPlane. simpl.
  rewrite wf_denominator. case_decide as Hd; [lra|].
  eexists. split; [field; exact Hd|]. split; [reflexivity|].
  rewrite Hv. unfold getVectorFrom2Points, Plane.side. simpl. repeat split.
Qed.

(** An intersection strictly between the endpoints passes the range test. *)
Lemma crossing_in_range (t : R) (I : Point.t) :
  0 <= t <= 1 ->
  Point.x I = Point.x p1 + t * (Point.x p2 - Point.x p1) ->
  Point.y I = Point.y p1 + t * (Point.y p2 - Point.y p1) ->
  Point.z I = Point.z p1 + t * (Point.z p2 - Point.z p1) ->
  Edge.isPointInRange e I = true.
Proof.
  intros Ht Hx Hy Hz. apply isPointInRange_true.
  destruct wf_coordinates as [H1 H2]. rewrite H1, H2 in Hx, Hy, Hz. simpl in *.
  rewrite Hx, Hy, Hz. repeat split; apply between_Rmin_Rmax; assumption.
Qed.

(** An intersection beyond an endpoint fails it. *)
Lemma crossing_out_of_range (t : R) (I : Point.t) :
  t < 0 \/ 1 < t ->
  Plane.side plane p1 <> Plane.side plane p2 ->
  Point.x I = Point.x p1 + t * (Point.x p2 - Point.x p1) ->
  Point.y I = Point.y p1 + t * (Point.y p2 - Point.y p1) ->
  Point.z I = Point.z p1 + t * (Point.z p2 - Point.z p1) ->
  Edge.isPointInRange e I = false.
Proof.
  intros Ht Hne Hx Hy Hz. apply not_true_is_false. rewrite isPointInRange_true.
  destruct wf_coordinates as [H1 H2].
  assert (Hdiff : Point.x p1 <> Point.x p2 \/ Point.y p1 <> Point.y p2 \/ Point.z p1 <> Point.z p2).
  { destruct (decide (Point.x p1 = Point.x p2)) as [Ex|]; [|tauto].
    destruct (decide (Point.y p1 = Point.y p2)) as [Ey|]; [|tauto].
    destruct (decide (Point.z p1 = Point.z p2)) as [Ez|]; [|tauto].
    exfalso. apply Hne. unfold Plane.side. rewrite Ex, Ey, Ez. reflexivity. }
  rewrite H1, H2 in Hx, Hy, Hz, Hdiff. simpl in *.
  rewrite Hx, Hy, Hz. intros (Rx & Ry & Rz).
  destruct Hdiff as [D | [D | D]];
    eapply outside_Rmin_Rmax; eauto.
Qed.

(** A vertex moved from a point of the plane along the edge: the sign of
    the plane equation there is that of the signed length times the
    denominator. *)
Lemma nudged_side (I : Point.t) (len : R) :
  Plane.side plane I = 0 ->
  Plane.side plane p1 <> Plane.side plane p2 ->
  0 < len * (Plane.side plane p2 - Plane.side plane p1) ->
  0 < Plane.side plane (Point.move I (Vector.changeLength (Edge.vector e) len)).
Proof.
  intros HI Hne Hsign. rewrite side_move, HI.
  unfold Vector.changeLength, Vector.multiplication. simpl.
  assert (Hlen : 0 < Vector.length (Edge.vector e)).
  { apply Vector_length_pos.
    destruct (decide (Vector.x (Edge.vector e) = 0)) as [Ex|]; [|tauto].
    destruct (decide (Vector.y (Edge.vector e) = 0)) as [Ey|]; [|tauto].
    destruct (decide (Vector.z (Edge.vector e) = 0)) as [Ez|]; [|tauto].
    exfalso. apply Hne. pose proof wf_denominator as Hd.
    rewrite Ex, Ey, Ez in Hd. lra. }
  pose proof wf_denominator as Hd.
  replace (0 + (Plane.a plane * (Vector.x (Edge.vector e) * (len / Vector.length (Edge.vector e)))
           + Plane.b plane * (Vector.y (Edge.vector e) * (len / Vector.length (Edge.vector e)))
           + Plane.c plane * (Vector.z (Edge.vector e) * (len / Vector.length (Edge.vector e)))))
    with ((len * (Plane.side plane p2 - Plane.side plane p1)) / Vector.length (Edge.vector e)).
  - apply Rdiv_lt_0_compat; assumption.
  - rewrite <- Hd. field. lra.
Qed.

End Clipping.

(** ** Edge.setVertexInFrontOfCamera *)

Lemma Edge_new_inv (v1 v2 : Vertex.t) : Edge.inv (Edge.new v1 v2).
Proof. reflexivity. Qed.

Lemma Edge_new_wf (v1 v2 : Vertex.t) :
  Vertex.inv v1 -> Vertex.inv v2 -> Edge.wf (Edge.new v1 v2).
Proof. intros H1 H2. repeat split; assumption. Qed.

(** A well-formed edge is the edge the constructor builds from its
    endpoints. *)
Lemma Edge_wf_new (e : Edge.t) :
  Edge.wf e -> Edge.new (Edge.vertex1 e) (Edge.vertex2 e) = e.
Proof.
  destruct e as [v1 v2 vec l]. unfold Edge.wf, Edge.inv, Edge.new. simpl.
  intros (_ & _ & -> & ->). reflexivity.
Qed.

Lemma setVertexInFrontOfCamera_returned (e : Edge.t) (plane : Plane.t) :
  snd (Edge.setVertexInFrontOfCamera e plane)
  = Edge.new (Edge.vertex1 (fst (Edge.setVertexInFrontOfCamera e plane)))
             (Edge.vertex2 (fst (Edge.setVertexInFrontOfCamera e plane))).
Proof. reflexivity. Qed.

Lemma setVertexInFrontOfCamera_none (e : Edge.t) (plane : Plane.t) :
  Edge.getIntersectionWithPlane e plane = None ->
  Edge.setVertexInFrontOfCamera e plane = (e, Edge.new (Edge.vertex1 e) (Edge.vertex2 e)).
Proof. intros H. unfold Edge.setVertexInFrontOfCamera. rewrite H. reflexivity. Qed.

Lemma getIntersectionWithPlane_none (e : Edge.t) (plane : Plane.t) :
  Edge.getIntersectionWithPlane e plane = None <->
  (getIntersectionFromLineAndPlane (Edge.line e) plane = None \/
   exists p, getIntersectionFromLineAndPlane (Edge.line e) plane = Some p /\
             Edge.isPointInRange e p = false).
Proof.
  unfold Edge.getIntersectionWithPlane.
  destruct (getIntersectionFromLineAndPlane (Edge.line e) plane) as [p|].
  - destruct (Edge.isPointInRange e p) eqn:Hr; split.
    + discriminate.
    + intros [H | (q & [= <-] & H)]; congruence.
    + intros _. right. exists p. split; [reflexivity | assumption].
    + reflexivity.
  - split; [intros _; left; reflexivity | reflexivity].
Qed.

(** Both endpoints on the same strict side: the line does not meet the
    plane, or meets it beyond an endpoint. *)
Lemma same_side_no_intersection (e : Edge.t) (plane : Plane.t) :
  Edge.wf e ->
  0 < Plane.side plane (Vertex.point (Edge.vertex1 e)) *
      Plane.side plane (Vertex.point (Edge.vertex2 e)) ->
  Edge.getIntersectionWithPlane e plane = None.
Proof.
  intros Hwf Hside. apply getIntersectionWithPlane_none.
  set (f1 := Plane.side plane (Vertex.point (Edge.vertex1 e))) in *.
  set (f2 := Plane.side plane (Vertex.point (Edge.vertex2 e))) in *.
  destruct (decide (f1 = f2)) as [Heq | Hne].
  - left. apply parallel_no_intersection; assumption.
  - right. destruct (crossing_intersection e plane Hwf Hne) as (t & I & Ht & HI & Hx & Hy & Hz).
    exists I. split; [assumption|].
    apply (crossing_out_of_range e plane Hwf t); try assumption.
    fold f1 f2 in Ht.
    destruct (Rlt_le_dec t 0) as [|Ht0]; [left; assumption|].
    destruct (Rlt_le_dec 1 t) as [|Ht1]; [right; assumption|].
    exfalso.
    assert (Hsum : (1 - t) * f1 + t * f2 = 0) by lra.
    destruct (Rlt_le_dec 0 f1) as [Hpos | Hneg].
    + assert (0 < f2) by nra.
      assert (0 <= (1 - t) * f1) by nra. assert (0 <= t * f2) by nra.
      assert (t * f2 = 0) by lra. assert (t = 0) by nra. subst t. lra.
    + assert (f1 < 0) by nra. assert (f2 < 0) by nra.
      assert ((1 - t) * f1 <= 0) by nra. assert (t * f2 <= 0) by nra.
      assert (t * f2 = 0) by lra. assert (t = 0) by nra. subst t. lra.
Qed.

(** C7: when the line of the edge does not meet the plane, or meets it
    outside the bounding box of the two endpoints,
    [setVertexInFrontOfCamera] leaves the receiver as it is and returns an
    edge with the same two vertices (coordinates and [i]); an edge with both
    endpoints in front of the plane is such an edge, and the edge returned
    for it is equal to it. *)
Theorem clip_without_intersection :
  (forall e plane,
      getIntersectionFromLineAndPlane (Edge.line e) plane = None \/
      (exists p, getIntersectionFromLineAndPlane (Edge.line e) plane = Some p /\
                 Edge.isPointInRange e p = false) ->
      fst (Edge.setVertexInFrontOfCamera e plane) = e /\
      Edge.vertex1 (snd (Edge.setVertexInFrontOfCamera e plane)) = Edge.vertex1 e /\
      Edge.vertex2 (snd (Edge.setVertexInFrontOfCamera e plane)) = Edge.vertex2 e) /\
  (forall e plane,
      Edge.wf e ->
      Plane.isPointInFrontOf plane (Vertex.point (Edge.vertex1 e)) = true ->
      Plane.isPointInFrontOf plane (Vertex.point (Edge.vertex2 e)) = true ->
      Edge.setVertexInFrontOfCamera e plane = (e, e)).
Proof.
  split.
  - intros e plane H. apply getIntersectionWithPlane_none in H.
    rewrite (setVertexInFrontOfCamera_none _ _ H). repeat split.
  - intros e plane Hwf H1 H2.
    apply isPointInFrontOf_true in H1, H2.
    rewrite setVertexInFrontOfCamera_none.
    + rewrite (Edge_wf_new e Hwf). reflexivity.
    + apply same_side_no_intersection; [assumption | nra].
Qed.

Lemma clip_without_intersection_witness :
  (fst (Edge.setVertexInFrontOfCamera cubeEdge startPlane) = cubeEdge /\
   Edge.vertex1 (snd (Edge.setVertexInFrontOfCamera cubeEdge startPlane)) = cubeVertex1 /\
   Edge.vertex2 (snd (Edge.setVertexInFrontOfCamera cubeEdge startPlane)) = cubeVertex2) /\
  Edge.setVertexInFrontOfCamera cubeEdge startPlane = (cubeEdge, cubeEdge).
Proof.
  split.
  - apply (proj1 clip_without_intersection cubeEdge startPlane).
    left. unfold getIntersectionFromLineAndPlane. simpl.
    case_decide as Hd; [reflexivity | exfalso; apply Hd; lra].
  - apply (proj2 clip_without_intersection cubeEdge startPlane).
    + apply Edge_new_wf; reflexivity.
    + apply isPointInFrontOf_true. unfold Plane.side, Plane.eval. simpl. lra.
    + apply isPointInFrontOf_true. unfold Plane.side, Plane.eval. simpl. lra.
Defined.

(** The length of a rescaled vector is the absolute value of the length
    asked for. *)
Lemma changeLength_length (v : Vector.t) (len : R) :
  0 < Vector.length v -> Vector.length (Vector.changeLength v len) = Rabs len.
Proof.
  intros HL. unfold Vector.changeLength, Vector.multiplication.
  unfold Vector.length at 1. simpl.
  set (L := Vector.length v) in *.
  assert (HL2 : Vector.x v * Vector.x v + Vector.y v * Vector.y v + Vector.z v * Vector.z v = L * L).
  { unfold L, Vector.length. rewrite sqrt_sqrt; [reflexivity|]. nra. }
  replace (Vector.x v * (len / L) * (Vector.x v * (len / L)) +
           Vector.y v * (len / L) * (Vector.y v * (len / L)) +
           Vector.z v * (len / L) * (Vector.z v * (len / L)))
    with ((len / L) * (len / L) *
          (Vector.x v * Vector.x v + Vector.y v * Vector.y v + Vector.z v * Vector.z v)) by ring.
  rewrite HL2.
  replace (len / L * (len / L) * (L * L)) with (Rsqr len) by (unfold Rsqr; field; lra).
  apply sqrt_Rsqr_abs.
Qed.

(** The two cases of an edge that runs through the plane: what the
    receiver has become, and where the new vertex lies. *)
Lemma clip_front_to_back (e : Edge.t) (plane : Plane.t) :
  Edge.wf e ->
  0 < Plane.side plane (Vertex.point (Edge.vertex1 e)) ->
  Plane.side plane (Vertex.point (Edge.vertex2 e)) <= 0 ->
  exists I,
    getIntersectionFromLineAndPlane (Edge.line e) plane = Some I /\
    Edge.isPointInRange e I = true /\
    0 < Vector.length (Edge.vector e) /\
    let N := Point.move I (Vector.changeLength (Edge.vector e) (- (1 / 10000))) in
    0 < Plane.side plane N /\
    fst (Edge.setVertexInFrontOfCamera e plane)
    = Edge.mk (Edge.vertex1 e)
              (Vertex.new (Point.x N) (Point.y N) (Point.z N) (Vertex.i (Edge.vertex2 e)))
              (Edge.vector e) (Edge.line e).
Proof.
  intros Hwf H1 H2.
  set (f1 := Plane.side plane (Vertex.point (Edge.vertex1 e))) in *.
  set (f2 := Plane.side plane (Vertex.point (Edge.vertex2 e))) in *.
  assert (Hne : f1 <> f2) by lra.
  destruct (crossing_intersection e plane Hwf Hne) as (t & I & Ht & HI & Hx & Hy & Hz).
  fold f1 f2 in Ht.
  assert (Htr : 0 <= t <= 1) by (split; nra).
  assert (Hrange : Edge.isPointInRange e I = true)
    by (apply (crossing_in_range e Hwf t); assumption).
  assert (Hon : Plane.side plane I = 0) by (eapply intersection_on_plane; eassumption).
  exists I. split; [assumption|]. split; [assumption|]. split.
  { apply Vector_length_pos.
    destruct (decide (Vector.x (Edge.vector e) = 0)) as [Ex|]; [|tauto].
    destruct (decide (Vector.y (Edge.vector e) = 0)) as [Ey|]; [|tauto].
    destruct (decide (Vector.z (Edge.vector e) = 0)) as [Ez|]; [|tauto].
    exfalso. apply Hne. pose proof (wf_denominator e plane Hwf) as Hd.
    rewrite Ex, Ey, Ez in Hd. fold f1 f2 in Hd. lra. }
  intros N. split.
  - apply (nudged_side e plane Hwf); [assumption | assumption |]. fold f1 f2. nra.
  - unfold Edge.setVertexInFrontOfCamera, Edge.getIntersectionWithPlane.
    rewrite HI, Hrange.
    rewrite (proj2 (isPointInFrontOf_true plane _) H1). reflexivity.
Qed.

Lemma clip_back_to_front (e : Edge.t) (plane : Plane.t) :
  Edge.wf e ->
  Plane.side plane (Vertex.point (Edge.vertex1 e)) < 0 ->
  0 <= Plane.side plane (Vertex.point (Edge.vertex2 e)) ->
  exists I,
    getIntersectionFromLineAndPlane (Edge.line e) plane = Some I /\
    Edge.isPointInRange e I = true /\
    0 < Vector.length (Edge.vector e) /\
    let N := Point.move I (Vector.changeLength (Edge.vector e) (1 / 10000)) in
    0 < Plane.side plane N /\
    fst (Edge.setVertexInFrontOfCamera e plane)
    = Edge.mk (Vertex.new (Point.x N) (Point.y N) (Point.z N) (Vertex.i (Edge.vertex1 e)))
              (Edge.vertex2 e)
              (Edge.vector e) (Edge.line e).
Proof.
  intros Hwf H1 H2.
  set (f1 := Plane.side plane (Vertex.point (Edge.vertex1 e))) in *.
  set (f2 := Plane.side plane (Vertex.point (Edge.vertex2 e))) in *.
  assert (Hne : f1 <> f2) by lra.
  destruct (crossing_intersection e plane Hwf Hne) as (t & I & Ht & HI & Hx & Hy & Hz).
  fold f1 f2 in Ht.
  assert (Htr : 0 <= t <= 1) by (split; nra).
  assert (Hrange : Edge.isPointInRange e I = true)
    by (apply (crossing_in_range e Hwf t); assumption).
  assert (Hon : Plane.side plane I = 0) by (eapply intersection_on_plane; eassumption).
  exists I. split; [assumption|]. split; [assumption|]. split.
  { apply Vector_length_pos.
    destruct (decide (Vector.x (Edge.vector e) = 0)) as [Ex|]; [|tauto].
    destruct (decide (Vector.y (Edge.vector e) = 0)) as [Ey|]; [|tauto].
    destruct (decide (Vector.z (Edge.vector e) = 0)) as [Ez|]; [|tauto].
    exfalso. apply Hne. pose proof (wf_denominator e plane Hwf) as Hd.
    rewrite Ex, Ey, Ez in Hd. fold f1 f2 in Hd. lra. }
  intros N. split.
  - apply (nudged_side e plane Hwf); [assumption | assumption |]. fold f1 f2. nra.
  - unfold Edge.setVertexInFrontOfCamera, Edge.getIntersectionWithPlane.
    rewrite HI, Hrange.
    assert (Hf : Plane.isPointInFrontOf plane (Vertex.point (Edge.vertex1 e)) = false)
      by (apply isPointInFrontOf_false; fold f1; lra).
    rewrite Hf. reflexivity.
Qed.

(** The distance from a point to the point moved by a rescaled vector. *)
Lemma nudge_distance (I : Point.t) (v : Vector.t) (len : R) :
  0 < Vector.length v ->
  getLengthFrom2Points I (Point.move I (Vector.changeLength v len)) = Rabs len.
Proof.
  intros HL. rewrite <- (changeLength_length v len HL).
  unfold getLengthFrom2Points, getVectorFrom2Points, Point.move, Vector.length. simpl.
  f_equal. ring.
Qed.

(** C1: for an edge with one endpoint strictly in front of the plane and
    the other strictly behind it, the line of the edge meets the plane
    within the bounding box of the endpoints, and the edge returned by
    [setVertexInFrontOfCamera] has the [i] of the two vertices of the input,
    has both endpoints in front of the plane, keeps the endpoint that was in
    front, and has the other one at the intersection moved by 1e-4 along the
    edge towards the front side. *)
Theorem clip_straddling_edge (e : Edge.t) (plane : Plane.t) :
  Edge.wf e ->
  (0 < Plane.side plane (Vertex.point (Edge.vertex1 e)) /\
   Plane.side plane (Vertex.point (Edge.vertex2 e)) < 0) \/
  (Plane.side plane (Vertex.point (Edge.vertex1 e)) < 0 /\
   0 < Plane.side plane (Vertex.point (Edge.vertex2 e))) ->
  let r := snd (Edge.setVertexInFrontOfCamera e plane) in
  Vertex.i (Edge.vertex1 r) = Vertex.i (Edge.vertex1 e) /\
  Vertex.i (Edge.vertex2 r) = Vertex.i (Edge.vertex2 e) /\
  Plane.isPointInFrontOf plane (Vertex.point (Edge.vertex1 r)) = true /\
  Plane.isPointInFrontOf plane (Vertex.point (Edge.vertex2 r)) = true /\
  exists I,
    getIntersectionFromLineAndPlane (Edge.line e) plane = Some I /\
    Edge.isPointInRange e I = true /\
    (0 < Plane.side plane (Vertex.point (Edge.vertex1 e)) ->
     Edge.vertex1 r = Edge.vertex1 e /\
     Vertex.point (Edge.vertex2 r)
     = Point.move I (Vector.changeLength (Edge.vector e) (- (1 / 10000))) /\
     getLengthFrom2Points I (Vertex.point (Edge.vertex2 r)) = 1 / 10000) /\
    (Plane.side plane (Vertex.point (Edge.vertex1 e)) < 0 ->
     Edge.vertex2 r = Edge.vertex2 e /\
     Vertex.point (Edge.vertex1 r)
     = Point.move I (Vector.changeLength (Edge.vector e) (1 / 10000)) /\
     getLengthFrom2Points I (Vertex.point (Edge.vertex1 r)) = 1 / 10000).
Proof.
  intros Hwf Hstraddle r. subst r. rewrite setVertexInFrontOfCamera_returned.
  destruct Hstraddle as [[H1 H2] | [H1 H2]].
  - destruct (clip_front_to_back e plane Hwf H1 (Rlt_le _ _ H2))
      as (I & HI & Hrange & HL & Hnew & ->).
    simpl. split; [reflexivity|]. split; [reflexivity|].
    split; [apply isPointInFrontOf_true; exact H1|].
    split; [apply isPointInFrontOf_true; exact Hnew|].
    exists I. split; [exact HI|]. split; [exact Hrange|]. split.
    + intros _. split; [reflexivity|]. split; [reflexivity|].
      transitivity (Rabs (- (1 / 10000)));
        [rewrite <- (nudge_distance I (Edge.vector e) _ HL); reflexivity|].
      rewrite Rabs_Ropp. apply Rabs_pos_eq. lra.
    + intros Hc. lra.
  - destruct (clip_back_to_front e plane Hwf H1 (Rlt_le _ _ H2))
      as (I & HI & Hrange & HL & Hnew & ->).
    simpl. split; [reflexivity|]. split; [reflexivity|].
    split; [apply isPointInFrontOf_true; exact Hnew|].
    split; [apply isPointInFrontOf_true; exact H2|].
    exists I. split; [exact HI|]. split; [exact Hrange|]. split.
    + intros Hc. lra.
    + intros _. split; [reflexivity|]. split; [reflexivity|].
      transitivity (Rabs (1 / 10000));
        [rewrite <- (nudge_distance I (Edge.vector e) _ HL); reflexivity|].
      apply Rabs_pos_eq. lra.
Qed.

Lemma crossingEdge_sides :
  Edge.wf crossingEdge /\
  Plane.side startPlane (Vertex.point (Edge.vertex1 crossingEdge)) < 0 /\
  0 < Plane.side startPlane (Vertex.point (Edge.vertex2 crossingEdge)).
Proof.
  split; [apply Edge_new_wf; reflexivity|].
  unfold Plane.side, Plane.eval. simpl. split; lra.
Qed.

Lemma clip_straddling_edge_witness :
  Plane.isPointInFrontOf startPlane
    (Vertex.point (Edge.vertex1 (snd (Edge.setVertexInFrontOfCamera crossingEdge startPlane))))
  = true /\
  Plane.isPointInFrontOf startPlane
    (Vertex.point (Edge.vertex2 (snd (Edge.setVertexInFrontOfCamera crossingEdge startPlane))))
  = true.
Proof.
  destruct crossingEdge_sides as (Hwf & H1 & H2).
  destruct (clip_straddling_edge crossingEdge startPlane Hwf (or_intror (conj H1 H2)))
    as (_ & _ & Hf1 & Hf2 & _).
  split; assumption.
Defined.

(** ** The direction vector of an Edge *)

Lemma Edge_getClone_inv (e : Edge.t) : Edge.inv (Edge.getClone e).
Proof. reflexivity. Qed.

Lemma setVertexInFrontOfCamera_returned_inv (e : Edge.t) (plane : Plane.t) :
  Edge.inv (snd (Edge.setVertexInFrontOfCamera e plane)).
Proof. reflexivity. Qed.

(** After the call on the edge from (0,-2,0) to (0,3,0) against the plane
    y = -1, the receiver has a new first vertex and the direction vector
    (0,5,0) it had before. *)
Lemma crossingEdge_receiver_stale :
  ~ Edge.inv (fst (Edge.setVertexInFrontOfCamera crossingEdge startPlane)).
Proof.
  destruct crossingEdge_sides as (Hwf & H1 & H2).
  destruct (clip_back_to_front crossingEdge startPlane Hwf H1 (Rlt_le _ _ H2))
    as (I & _ & _ & _ & Hnew & ->).
  unfold Edge.inv. simpl. intros [= _ Hy _].
  revert Hnew. unfold Plane.side, Plane.eval. simpl. lra.
Qed.

(** C4, as stated, fails on the receiver: built by the constructor, the
    edge from (0,-2,0) to (0,3,0) has the direction [vertex2 - vertex1], and
    after [setVertexInFrontOfCamera] against the plane y = -1 the receiver
    has not. *)
Lemma receiver_direction_is_stale :
  Edge.inv crossingEdge /\
  ~ Edge.inv (fst (Edge.setVertexInFrontOfCamera crossingEdge startPlane)).
Proof. split; [reflexivity | exact crossingEdge_receiver_stale]. Qed.

(** C4, amended: the edge built by the constructor, the clone of an edge
    and the edge returned by [setVertexInFrontOfCamera] have the direction
    [vertex2 - vertex1]; the edge returned is built on the two vertices that
    the receiver holds after the call. *)
Theorem Edge_direction :
  (forall v1 v2, Edge.inv (Edge.new v1 v2)) /\
  (forall e, Edge.inv (Edge.getClone e)) /\
  (forall e plane, Edge.inv (snd (Edge.setVertexInFrontOfCamera e plane))) /\
  (forall e plane,
      Edge.vertex1 (snd (Edge.setVertexInFrontOfCamera e plane))
      = Edge.vertex1 (fst (Edge.setVertexInFrontOfCamera e plane)) /\
      Edge.vertex2 (snd (Edge.setVertexInFrontOfCamera e plane))
      = Edge.vertex2 (fst (Edge.setVertexInFrontOfCamera e plane))).
Proof.
  split; [exact Edge_new_inv|]. split; [exact Edge_getClone_inv|].
  split; [exact setVertexInFrontOfCamera_returned_inv|].
  intros e plane. rewrite setVertexInFrontOfCamera_returned. split; reflexivity.
Qed.

(** ** Face.isPointOnFace and the intersection of a ray with a face *)

(** Lagrange's identity: the determinant of the 2x2 system is the squared
    length of the cross product. *)
Lemma gram_determinant (v w : Vector.t) :
  getInnerProduct v v * getInnerProduct w w - getInnerProduct v w * getInnerProduct v w
  = getInnerProduct (getCrossProduct v w) (getCrossProduct v w).
Proof. unfold getInnerProduct, getCrossProduct. simpl. ring. Qed.

Lemma nonzero_vector_square (v : Vector.t) :
  v <> Vector.mk 0 0 0 -> 0 < getInnerProduct v v.
Proof.
  destruct v as [a b c]. unfold getInnerProduct. simpl. intros Hne.
  destruct (decide (a = 0)) as [->|]; [|nra].
  destruct (decide (b = 0)) as [->|]; [|nra].
  destruct (decide (c = 0)) as [->|]; [|nra].
  exfalso. apply Hne. reflexivity.
Qed.

(** For two independent vectors, the solver finds the coefficients of a
    vector of their plane. *)
Lemma getSTFrom3Vectors_solves (p v1 v2 : Vector.t) (s t : R) :
  getCrossProduct v1 v2 <> Vector.mk 0 0 0 ->
  Vector.x p = s * Vector.x v1 + t * Vector.x v2 ->
  Vector.y p = s * Vector.y v1 + t * Vector.y v2 ->
  Vector.z p = s * Vector.z v1 + t * Vector.z v2 ->
  getSTFrom3Vectors p v1 v2 = Some (ST.mk s t).
Proof.
  intros Hcross Hx Hy Hz. unfold getSTFrom3Vectors.
  pose proof (gram_determinant v1 v2) as Hdet.
  pose proof (nonzero_vector_square _ Hcross) as Hpos.
  case_decide as Hd; [lra|].
  assert (H1 : getInnerProduct p v1
               = s * getInnerProduct v1 v1 + t * getInnerProduct v1 v2).
  { unfold getInnerProduct. rewrite Hx, Hy, Hz. ring. }
  assert (H2 : getInnerProduct p v2
               = s * getInnerProduct v1 v2 + t * getInnerProduct v2 v2).
  { unfold getInnerProduct. rewrite Hx, Hy, Hz. ring. }
  rewrite H1, H2. f_equal. f_equal; field; exact Hd.
Qed.

Lemma isPointOnFace_coefficients (face : Face.t) (p : Point.t) (s t : R) :
  getCrossProduct (Face.vector1 face) (Face.vector2 face) <> Vector.mk 0 0 0 ->
  Point.x p = Point.x (Vertex.point (Face.vertex1 face))
              + s * Vector.x (Face.vector1 face) + t * Vector.x (Face.vector2 face) ->
  Point.y p = Point.y (Vertex.point (Face.vertex1 face))
              + s * Vector.y (Face.vector1 face) + t * Vector.y (Face.vector2 face) ->
  Point.z p = Point.z (Vertex.point (Face.vertex1 face))
              + s * Vector.z (Face.vector1 face) + t * Vector.z (Face.vector2 face) ->
  Face.isPointOnFace face p = true <-> (s >= 0 /\ t >= 0 /\ s + t <= 1).
Proof.
  intros Hcross Hx Hy Hz. unfold Face.isPointOnFace.
  rewrite (getSTFrom3Vectors_solves _ _ _ s t Hcross);
    [| simpl; lra | simpl; lra | simpl; lra].
  simpl. rewrite !andb_true_iff, !bool_decide_eq_true. tauto.
Qed.

(** A vector orthogonal to the cross product of two independent vectors is
    a combination of the two. *)
Lemma plane_decomposition (w u v : Vector.t) :
  getCrossProduct u v <> Vector.mk 0 0 0 ->
  getInnerProduct w (getCrossProduct u v) = 0 ->
  exists s t,
    Vector.x w = s * Vector.x u + t * Vector.x v /\
    Vector.y w = s * Vector.y u + t * Vector.y v /\
    Vector.z w = s * Vector.z u + t * Vector.z v.
Proof.
  intros Hcross Horth.
  pose proof (nonzero_vector_square _ Hcross) as Hpos.
  set (n := getCrossProduct u v) in *.
  set (det := getInnerProduct n n) in *.
  set (S := getInnerProduct w u * getInnerProduct v v
            - getInnerProduct w v * getInnerProduct u v).
  set (T := getInnerProduct u u * getInnerProduct w v
            - getInnerProduct u v * getInnerProduct w u).
  assert (Hx : det * Vector.x w
               = S * Vector.x u + T * Vector.x v + getInnerProduct w n * Vector.x n).
  { unfold det, S, T, n, getInnerProduct, getCrossProduct. simpl. ring. }
  assert (Hy : det * Vector.y w
               = S * Vector.y u + T * Vector.y v + getInnerProduct w n * Vector.y n).
  { unfold det, S, T, n, getInnerProduct, getCrossProduct. simpl. ring. }
  assert (Hz : det * Vector.z w
               = S * Vector.z u + T * Vector.z v + getInnerProduct w n * Vector.z n).
  { unfold det, S, T, n, getInnerProduct, getCrossProduct. simpl. ring. }
  rewrite Horth in Hx, Hy, Hz.
  exists (S / det), (T / det).
  repeat split.
  - apply (Rmult_eq_reg_l det); [|lra]. rewrite Hx. field. lra.
  - apply (Rmult_eq_reg_l det); [|lra]. rewrite Hy. field. lra.
  - apply (Rmult_eq_reg_l det); [|lra]. rewrite Hz. field. lra.
Qed.

Lemma Face_new_wf (v1 v2 v3 : Vertex.t) (color : option Color) (roughness : option R) :
  Face.wf (Face.new v1 v2 v3 color roughness).
Proof. split; reflexivity. Qed.

(** Every point of the plane of a face with independent edge vectors is
    [vertex1 + s.vector1 + t.vector2] for some [s] and [t]. *)
Lemma point_of_face_plane (face : Face.t) (p : Point.t) :
  Face.wf face ->
  Face.normalVector face <> Vector.mk 0 0 0 ->
  Plane.side (Face.plane face) p = 0 ->
  exists s t,
    Point.x p = Point.x (Vertex.point (Face.vertex1 face))
                + s * Vector.x (Face.vector1 face) + t * Vector.x (Face.vector2 face) /\
    Point.y p = Point.y (Vertex.point (Face.vertex1 face))
                + s * Vector.y (Face.vector1 face) + t * Vector.y (Face.vector2 face) /\
    Point.z p = Point.z (Vertex.point (Face.vertex1 face))
                + s * Vector.z (Face.vector1 face) + t * Vector.z (Face.vector2 face).
Proof.
  intros [Hn Hpl] Hne Hside. rewrite Hn in Hne.
  destruct (plane_decomposition
              (getVectorFrom2Points (Vertex.point (Face.vertex1 face)) p)
              (Face.vector1 face) (Face.vector2 face) Hne) as (s & t & Hx & Hy & Hz).
  - rewrite Hpl, Hn in Hside. revert Hside.
    unfold Plane.side, Plane.eval, getPlaneFromVectorAndPoint, getInnerProduct,
      getVectorFrom2Points. simpl. intros Hside. rewrite <- Hside. ring.
  - simpl in Hx, Hy, Hz. exists s, t. repeat split; lra.
Qed.

Lemma getIntersectionEdgeOrHalfLineAndFace_some
    (ray : EdgeOrHalfLine) (face : Face.t) (p : Point.t) :
  getIntersectionEdgeOrHalfLineAndFace ray face = Some p <->
  (EdgeOrHalfLine_getIntersectionWithPlane ray (Face.plane face) = Found p /\
   Face.isPointOnFace face p = true).
Proof.
  unfold getIntersectionEdgeOrHalfLineAndFace.
  destruct (EdgeOrHalfLine_getIntersectionWithPlane ray (Face.plane face)) as [q| |].
  - destruct (Face.isPointOnFace face q) eqn:Hq; split.
    + intros [= <-]. split; [reflexivity | assumption].
    + intros [[= <-] _]. reflexivity.
    + discriminate.
    + intros [[= <-] H]. congruence.
  - split; [discriminate | intros [H _]; discriminate].
  - split; [discriminate | intros [H _]; discriminate].
Qed.

Lemma AnEdge_getIntersectionWithPlane (e : Edge.t) (plane : Plane.t) (p : Point.t) :
  EdgeOrHalfLine_getIntersectionWithPlane (AnEdge e) plane = Found p <->
  Edge.getIntersectionWithPlane e plane = Some p.
Proof.
  simpl. destruct (Edge.getIntersectionWithPlane e plane); split; congruence.
Qed.

(** C8, as stated, fails for a face whose three vertices are on one line:
    the point (1,0,0) is on the plane of [flatFace] and is
    [vertex1 + 1.vector1 + 0.vector2], with 1 >= 0, 0 >= 0 and 1 + 0 <= 1,
    and [isPointOnFace] rejects it, as it rejects every point: the system for
    [s] and [t] is singular.  No ray has an intersection with this face. *)
Lemma collinear_face_rejects :
  Face.wf flatFace /\
  Plane.side (Face.plane flatFace) (Point.mk 1 0 0) = 0 /\
  (Point.x (Point.mk 1 0 0)
   = Point.x (Vertex.point (Face.vertex1 flatFace))
     + 1 * Vector.x (Face.vector1 flatFace) + 0 * Vector.x (Face.vector2 flatFace) /\
   Point.y (Point.mk 1 0 0)
   = Point.y (Vertex.point (Face.vertex1 flatFace))
     + 1 * Vector.y (Face.vector1 flatFace) + 0 * Vector.y (Face.vector2 flatFace) /\
   Point.z (Point.mk 1 0 0)
   = Point.z (Vertex.point (Face.vertex1 flatFace))
     + 1 * Vector.z (Face.vector1 flatFace) + 0 * Vector.z (Face.vector2 flatFace)) /\
  ~ (Face.isPointOnFace flatFace (Point.mk 1 0 0) = true <-> 1 >= 0 /\ 0 >= 0 /\ 1 + 0 <= 1) /\
  (forall q, Face.isPointOnFace flatFace q = false) /\
  (forall ray, getIntersectionEdgeOrHalfLineAndFace ray flatFace = None).
Proof.
  assert (Hrejected : forall q, Face.isPointOnFace flatFace q = false).
  { intros q. unfold Face.isPointOnFace, getSTFrom3Vectors, getInnerProduct. simpl.
    rewrite decide_True by lra. reflexivity. }
  split; [apply Face_new_wf|].
  split; [unfold Plane.side, Plane.eval; simpl; lra|].
  split; [simpl; repeat split; lra|].
  split.
  { intros [_ H]. rewrite Hrejected in H. discriminate H. repeat split; lra. }
  split; [exact Hrejected|].
  intros ray. unfold getIntersectionEdgeOrHalfLineAndFace.
  destruct (EdgeOrHalfLine_getIntersectionWithPlane ray (Face.plane flatFace)) as [q| |];
    [rewrite Hrejected|..]; reflexivity.
Qed.

(** C8, amended: for a face whose two edge vectors are independent (its
    three vertices are not on one line), every point of the plane of the
    face is [vertex1 + s.vector1 + t.vector2] for some [s] and [t], and
    [isPointOnFace] accepts a point written so if and only if
    s >= 0, t >= 0 and s + t <= 1; and
    [getIntersectionEdgeOrHalfLineAndFace] returns the intersection of the
    ray with the plane of the face when that intersection is in the range of
    the ray and is accepted, and null in every other case. *)
Theorem ray_face_intersection :
  (forall face p,
      Face.wf face ->
      Face.normalVector face <> Vector.mk 0 0 0 ->
      Plane.side (Face.plane face) p = 0 ->
      exists s t,
        Point.x p = Point.x (Vertex.point (Face.vertex1 face))
                    + s * Vector.x (Face.vector1 face) + t * Vector.x (Face.vector2 face) /\
        Point.y p = Point.y (Vertex.point (Face.vertex1 face))
                    + s * Vector.y (Face.vector1 face) + t * Vector.y (Face.vector2 face) /\
        Point.z p = Point.z (Vertex.point (Face.vertex1 face))
                    + s * Vector.z (Face.vector1 face) + t * Vector.z (Face.vector2 face)) /\
  (forall face p s t,
      getCrossProduct (Face.vector1 face) (Face.vector2 face) <> Vector.mk 0 0 0 ->
      Point.x p = Point.x (Vertex.point (Face.vertex1 face))
                  + s * Vector.x (Face.vector1 face) + t * Vector.x (Face.vector2 face) ->
      Point.y p = Point.y (Vertex.point (Face.vertex1 face))
                  + s * Vector.y (Face.vector1 face) + t * Vector.y (Face.vector2 face) ->
      Point.z p = Point.z (Vertex.point (Face.vertex1 face))
                  + s * Vector.z (Face.vector1 face) + t * Vector.z (Face.vector2 face) ->
      Face.isPointOnFace face p = true <-> (s >= 0 /\ t >= 0 /\ s + t <= 1)) /\
  (forall ray face,
      match EdgeOrHalfLine_getIntersectionWithPlane ray (Face.plane face) with
      | Found p =>
          getIntersectionEdgeOrHalfLineAndFace ray face
          = if Face.isPointOnFace face p then Some p else None
      | Null | NotFinite => getIntersectionEdgeOrHalfLineAndFace ray face = None
      end).
Proof.
  split; [exact point_of_face_plane|]. split.
  - exact isPointOnFace_coefficients.
  - intros ray face. unfold getIntersectionEdgeOrHalfLineAndFace.
    destruct (EdgeOrHalfLine_getIntersectionWithPlane ray (Face.plane face)); reflexivity.
Qed.

Lemma ray_face_intersection_witness :
  (exists s t,
      Point.x (Point.mk 1 1 1)
      = Point.x (Vertex.point (Face.vertex1 slantFace))
        + s * Vector.x (Face.vector1 slantFace) + t * Vector.x (Face.vector2 slantFace) /\
      Point.y (Point.mk 1 1 1)
      = Point.y (Vertex.point (Face.vertex1 slantFace))
        + s * Vector.y (Face.vector1 slantFace) + t * Vector.y (Face.vector2 slantFace) /\
      Point.z (Point.mk 1 1 1)
      = Point.z (Vertex.point (Face.vertex1 slantFace))
        + s * Vector.z (Face.vector1 slantFace) + t * Vector.z (Face.vector2 slantFace)) /\
  Face.isPointOnFace slantFace (Point.mk 1 1 1) = true.
Proof.
  split.
  - apply (proj1 ray_face_intersection slantFace (Point.mk 1 1 1)).
    + apply Face_new_wf.
    + simpl. intros [= H _ _]. lra.
    + unfold Plane.side, Plane.eval. simpl. lra.
  - apply (proj1 (proj2 ray_face_intersection) slantFace (Point.mk 1 1 1) (1 / 3) (1 / 3)).
    + simpl. intros [= H _ _]. lra.
    + simpl. lra.
    + simpl. lra.
    + simpl. lra.
    + lra.
Defined.

(** ** getIntersectionsEdgeOrHalfLineAndFaces *)

Lemma insertHit_Permutation (a : Hit.t) (l : list Hit.t) : insertHit a l ≡ₚ a :: l.
Proof.
  induction l as [|b l IH]; simpl; [reflexivity|].
  case_decide; [reflexivity|]. rewrite IH. apply Permutation_swap.
Qed.

Lemma sortHits_Permutation (l : list Hit.t) : sortHits l ≡ₚ l.
Proof.
  induction l as [|a l IH]; simpl; [reflexivity|].
  unfold sortHits in *. simpl. rewrite insertHit_Permutation, IH. reflexivity.
Qed.

Lemma insertHit_sorted (a : Hit.t) (l : list Hit.t) :
  StronglySorted ascending l -> StronglySorted ascending (insertHit a l).
Proof.
  induction l as [|b l IH]; simpl; intros Hs.
  - repeat constructor.
  - apply StronglySorted_inv in Hs as [Hl Hb].
    case_decide as Hab.
    + constructor; [constructor; assumption|].
      constructor; [unfold ascending; lra|].
      eapply Forall_impl; [exact Hb|]. unfold ascending. intros c Hc. lra.
    + constructor; [apply IH; assumption|].
      rewrite insertHit_Permutation. constructor; [unfold ascending; lra | assumption].
Qed.

Lemma sortHits_sorted (l : list Hit.t) : StronglySorted ascending (sortHits l).
Proof.
  induction l as [|a l IH]; [constructor|].
  unfold sortHits in *. simpl. apply insertHit_sorted, IH.
Qed.

(** The sort is stable: the hits at one distance keep their order. *)
Lemma insertHit_stable (d : R) (a : Hit.t) (l : list Hit.t) :
  filter (fun h => Hit.length h = d) (insertHit a l)
  = filter (fun h => Hit.length h = d) (a :: l).
Proof.
  induction l as [|b l IH]; simpl; [reflexivity|].
  case_decide as Hab; [reflexivity|].
  rewrite filter_cons, IH, !filter_cons.
  repeat case_decide; try reflexivity. lra.
Qed.

Lemma sortHits_stable (d : R) (l : list Hit.t) :
  filter (fun h => Hit.length h = d) (sortHits l) = filter (fun h => Hit.length h = d) l.
Proof.
  induction l as [|a l IH]; [reflexivity|].
  unfold sortHits in *. simpl. rewrite insertHit_stable, !filter_cons, IH. reflexivity.
Qed.

Lemma collectHits_faces (ray : EdgeOrHalfLine) (faces : list Face.t) :
  Hit.face <$> collectHits ray faces = filter (fun face => isHit ray face = true) faces.
Proof.
  induction faces as [|face faces IH]; [reflexivity|].
  simpl. rewrite filter_cons.
  destruct (getIntersectionEdgeOrHalfLineAndFace ray face) as [p|] eqn:Hp.
  - rewrite decide_True by (unfold isHit; rewrite Hp; reflexivity).
    rewrite fmap_cons, IH. reflexivity.
  - rewrite decide_False by (unfold isHit; rewrite Hp; discriminate). exact IH.
Qed.

Lemma collectHits_elem (ray : EdgeOrHalfLine) (faces : list Face.t) (h : Hit.t) :
  h ∈ collectHits ray faces <->
  Hit.face h ∈ faces /\
  getIntersectionEdgeOrHalfLineAndFace ray (Hit.face h) = Some (Hit.intersection h) /\
  Hit.length h = getLengthFrom2Points (rayOrigin ray) (Hit.intersection h).
Proof.
  induction faces as [|face faces IH]; simpl.
  - rewrite !elem_of_nil. tauto.
  - destruct (getIntersectionEdgeOrHalfLineAndFace ray face) as [p|] eqn:Hp.
    + rewrite !elem_of_cons, IH. split.
      * intros [-> | (Hin & Hi & Hl)].
        -- simpl. split; [left; reflexivity|]. split; [assumption|].
           destruct ray; reflexivity.
        -- split; [right; assumption|]. split; assumption.
      * intros ([Hf | Hin] & Hi & Hl).
        -- left. destruct h as [f i l]. simpl in *. subst f. rewrite Hp in Hi.
           injection Hi as <-. subst l. destruct ray; reflexivity.
        -- right. split; [assumption|]. split; assumption.
    + rewrite elem_of_cons, IH. split.
      * intros (Hin & Hi & Hl). split; [right; assumption|]. split; assumption.
      * intros ([Hf | Hin] & Hi & Hl); [|split; [assumption|split; assumption]].
        rewrite Hf, Hp in Hi. discriminate.
Qed.

Lemma isHit_true (ray : EdgeOrHalfLine) (face : Face.t) :
  isHit ray face = true <->
  exists p, EdgeOrHalfLine_getIntersectionWithPlane ray (Face.plane face) = Found p /\
            Face.isPointOnFace face p = true.
Proof.
  unfold isHit.
  destruct (getIntersectionEdgeOrHalfLineAndFace ray face) as [p|] eqn:Hp; split.
  - intros _. exists p. apply getIntersectionEdgeOrHalfLineAndFace_some, Hp.
  - reflexivity.
  - discriminate.
  - intros (p & H). apply getIntersectionEdgeOrHalfLineAndFace_some in H. congruence.
Qed.

Lemma collectHits_none (ray : EdgeOrHalfLine) (faces : list Face.t) :
  (forall face, face ∈ faces -> isHit ray face = false) -> collectHits ray faces = [].
Proof.
  induction faces as [|face faces IH]; intros Hnone; [reflexivity|].
  simpl. pose proof (Hnone face (list_elem_of_here _ _)) as Hf. unfold isHit in Hf.
  destruct (getIntersectionEdgeOrHalfLineAndFace ray face); [discriminate|].
  apply IH. intros f Hin. apply Hnone. right. exact Hin.
Qed.

(** The diagonal ray meets the plane of each of the two slant faces at
    (1,1,1), inside the triangle. *)
Lemma diagonalRay_hits_slantFace :
  getIntersectionEdgeOrHalfLineAndFace (AHalfLine diagonalRay) slantFace = Some (Point.mk 1 1 1).
Proof.
  apply getIntersectionEdgeOrHalfLineAndFace_some. split.
  - simpl. unfold HalfLine.getIntersectionWithPlane, getIntersectionFromLineAndPlane. simpl.
    case_decide as Hd; [exfalso; lra|].
    replace (Point.mk _ _ _) with (Point.mk 1 1 1)
      by (unfold Plane.eval; simpl; f_equal; field; lra).
    unfold HalfLine.isPointInRange, Math_sign. simpl.
    repeat case_decide; try lra.
    rewrite !bool_decide_eq_true_2 by reflexivity. reflexivity.
  - apply (isPointOnFace_coefficients slantFace (Point.mk 1 1 1) (1 / 3) (1 / 3)).
    + simpl. intros [= H _ _]. lra.
    + simpl. lra.
    + simpl. lra.
    + simpl. lra.
    + lra.
Qed.

Lemma diagonalRay_hits_slantFace' :
  getIntersectionEdgeOrHalfLineAndFace (AHalfLine diagonalRay) slantFace' = Some (Point.mk 1 1 1).
Proof.
  apply getIntersectionEdgeOrHalfLineAndFace_some. split.
  - simpl. unfold HalfLine.getIntersectionWithPlane, getIntersectionFromLineAndPlane. simpl.
    case_decide as Hd; [exfalso; lra|].
    replace (Point.mk _ _ _) with (Point.mk 1 1 1)
      by (unfold Plane.eval; simpl; f_equal; field; lra).
    unfold HalfLine.isPointInRange, Math_sign. simpl.
    repeat case_decide; try lra.
    rewrite !bool_decide_eq_true_2 by reflexivity. reflexivity.
  - apply (isPointOnFace_coefficients slantFace' (Point.mk 1 1 1) (1 / 3) (1 / 3)).
    + simpl. intros [= H _ _]. lra.
    + simpl. lra.
    + simpl. lra.
    + simpl. lra.
    + lra.
Qed.

(** C2, as stated, fails: the diagonal ray meets the two slant faces at the
    same point, so the two hits have the same distance and the result is not
    strictly ascending. *)
Lemma hits_at_equal_distance :
  ~ Sorted strictlyAscending
      (getIntersectionsEdgeOrHalfLineAndFaces (AHalfLine diagonalRay) [slantFace; slantFace']).
Proof.
  unfold getIntersectionsEdgeOrHalfLineAndFaces. simpl.
  rewrite diagonalRay_hits_slantFace, diagonalRay_hits_slantFace'.
  unfold sortHits. simpl. rewrite decide_True by lra.
  intros Hs. apply Sorted_inv in Hs as [_ Hhd]. apply HdRel_inv in Hhd.
  unfold strictlyAscending in Hhd. simpl in Hhd. lra.
Qed.

(** C2, amended: the result is in ascending order of distance, hits at the
    same distance staying in the order of the face list; its faces are
    exactly the faces of the list whose plane the ray meets within its range
    and inside the triangle, each with its intersection and the distance of
    the intersection from the origin of the ray; and it is empty when no
    face is hit. *)
Theorem faces_hit_by_ray (ray : EdgeOrHalfLine) (faces : list Face.t) :
  let hits := getIntersectionsEdgeOrHalfLineAndFaces ray faces in
  StronglySorted ascending hits /\
  (forall d, sublist (Hit.face <$> filter (fun h => Hit.length h = d) hits) faces) /\
  Hit.face <$> hits ≡ₚ filter (fun face => isHit ray face = true) faces /\
  (forall face,
      isHit ray face = true <->
      exists p, EdgeOrHalfLine_getIntersectionWithPlane ray (Face.plane face) = Found p /\
                Face.isPointOnFace face p = true) /\
  (forall h,
      h ∈ hits <->
      Hit.face h ∈ faces /\
      getIntersectionEdgeOrHalfLineAndFace ray (Hit.face h) = Some (Hit.intersection h) /\
      Hit.length h = getLengthFrom2Points (rayOrigin ray) (Hit.intersection h)) /\
  ((forall face, face ∈ faces -> isHit ray face = false) -> hits = []).
Proof.
  intros hits. subst hits. unfold getIntersectionsEdgeOrHalfLineAndFaces.
  split; [apply sortHits_sorted|]. split.
  { intros d. rewrite sortHits_stable.
    transitivity (Hit.face <$> collectHits ray faces).
    - apply fmap_sublist, sublist_filter.
    - rewrite collectHits_faces. apply sublist_filter. }
  split.
  { rewrite <- collectHits_faces. apply fmap_Permutation, sortHits_Permutation. }
  split; [intros face; apply isHit_true|]. split.
  - intros h. rewrite <- collectHits_elem. apply elem_of_Permutation_proper.
    apply sortHits_Permutation.
  - intros Hnone. rewrite (collectHits_none _ _ Hnone). reflexivity.
Qed.

Lemma oppositeRay_misses_slantFace : isHit (AHalfLine oppositeRay) slantFace = false.
Proof.
  unfold isHit, getIntersectionEdgeOrHalfLineAndFace. simpl.
  unfold HalfLine.getIntersectionWithPlane, getIntersectionFromLineAndPlane. simpl.
  case_decide as Hd; [reflexivity|].
  replace (Point.mk _ _ _) with (Point.mk 1 1 1)
    by (unfold Plane.eval; simpl; f_equal; field; lra).
  unfold HalfLine.isPointInRange, Math_sign. simpl.
  repeat case_decide; try lra.
  rewrite (bool_decide_eq_false_2 (-1 = 1)) by lra. reflexivity.
Qed.

Lemma faces_hit_by_ray_witness :
  getIntersectionsEdgeOrHalfLineAndFaces (AHalfLine oppositeRay) [slantFace] = [].
Proof.
  apply (faces_hit_by_ray (AHalfLine oppositeRay) [slantFace]).
  intros face Hin. apply list_elem_of_singleton in Hin. subst face.
  exact oppositeRay_misses_slantFace.
Defined.

(** ** The projection pipeline of camera.js *)

Lemma sin_deg_0 : sin_deg 0 = 0.
Proof. unfold sin_deg. replace (0 * PI / 180) with 0 by lra. exact sin_0. Qed.

Lemma cos_deg_0 : cos_deg 0 = 1.
Proof. unfold cos_deg. replace (0 * PI / 180) with 0 by lra. exact cos_0. Qed.

(** C3: for a vertex that is not in front of the view plane,
    [getProjectedVertex] returns null, and so does [getToDrawVertex]. *)
Theorem behind_vertex_is_null (this : Camera.t) (vertex : Vertex.t) :
  Plane.isPointInFrontOf (Camera.plane this) (Vertex.point vertex) = false ->
  Camera.getProjectedVertex this vertex = Return None /\
  Camera.getToDrawVertex this vertex = Return None.
Proof.
  intros Hbehind.
  assert (Hp : Camera.getProjectedVertex this vertex = Return None).
  { unfold Camera.getProjectedVertex. rewrite Hbehind. reflexivity. }
  split; [exact Hp|]. unfold Camera.getToDrawVertex. rewrite Hp. reflexivity.
Qed.

(** The camera at (0,-1,0) with no rotation and focal length 3: its normal
    vector, focus and view plane. *)
Lemma start_camera_derived (this : Camera.t) :
  Camera.pos this = Point.mk 0 (-1) 0 ->
  Camera.rx this = 0 -> Camera.rz this = 0 -> Camera.focalLength this = 3 ->
  Camera.normalVector (Camera.recompute this) = Vector.mk 0 3 0 /\
  Camera.focus (Camera.recompute this) = Point.mk 0 (-4) 0 /\
  Camera.plane (Camera.recompute this) = Plane.mk 0 3 0 3.
Proof.
  destruct this. simpl. intros -> -> -> ->.
  unfold Camera.recompute, Camera.updatePlane, Camera.updateFocusPoint,
    Camera.updateNormalVector, Camera.set_derived, Vector.rotate,
    getPlaneFromVectorAndPoint. simpl.
  rewrite sin_deg_0, cos_deg_0.
  split; [f_equal; lra|]. split; f_equal; lra.
Qed.

Lemma scenarioCamera_plane : Camera.plane scenarioCamera = Plane.mk 0 3 0 3.
Proof. apply start_camera_derived; reflexivity. Qed.

Lemma behind_vertex_is_null_witness :
  Camera.getProjectedVertex scenarioCamera behindVertex = Return None /\
  Camera.getToDrawVertex scenarioCamera behindVertex = Return None.
Proof.
  apply (behind_vertex_is_null scenarioCamera behindVertex).
  rewrite scenarioCamera_plane. apply isPointInFrontOf_false.
  unfold Plane.side, Plane.eval. simpl. lra.
Defined.

(** For a vertex in front of the view plane, [getProjectedVertex] of
    camera.js ends in a TypeError, and [getToDrawVertex] with it. *)
Lemma getProjectedVertex_front (this : Camera.t) (vertex : Vertex.t) :
  Plane.isPointInFrontOf (Camera.plane this) (Vertex.point vertex) = true ->
  Camera.getProjectedVertex this vertex = TypeError /\
  Camera.getToDrawVertex this vertex = TypeError.
Proof.
  intros Hfront.
  assert (Hp : Camera.getProjectedVertex this vertex = TypeError).
  { unfold Camera.getProjectedVertex. rewrite Hfront. reflexivity. }
  split; [exact Hp|]. unfold Camera.getToDrawVertex. rewrite Hp. reflexivity.
Qed.

(** The camera of main.js at (0,-1,0) with no rotation and focal length
    3. *)
Lemma start_mainCamera_derived (this : MainCamera.t) :
  MainCamera.pos this = Point.mk 0 (-1) 0 ->
  MainCamera.rx this = 0 -> MainCamera.rz this = 0 -> MainCamera.focalLength this = 3 ->
  let this' :=
    MainCamera.updatePlane (MainCamera.updateFocusPoint (MainCamera.updateNormalVector this)) in
  MainCamera.pos this' = Point.mk 0 (-1) 0 /\
  MainCamera.rx this' = 0 /\ MainCamera.rz this' = 0 /\
  MainCamera.focus this' = Point.mk 0 (-4) 0 /\
  MainCamera.plane this' = Plane.mk 0 3 0 3.
Proof.
  destruct this. simpl. intros -> -> -> ->.
  unfold MainCamera.updatePlane, MainCamera.updateFocusPoint,
    MainCamera.updateNormalVector, MainCamera.set_derived, Vector.rotate,
    getPlaneFromVectorAndPoint. simpl.
  rewrite sin_deg_0, cos_deg_0.
  split; [reflexivity|]. split; [reflexivity|]. split; [reflexivity|].
  split; f_equal; lra.
Qed.

(** C6: for a camera of camera.js at (0,-1,0) with rx = rz = 0 and focal
    length 3, recomputed as [update] does, the vertex (0,3,0) passes the
    front check, and [getProjectedVertex] then ends in a TypeError at the
    call of [isOnIntersectionWithPlane]; [getToDrawVertex] ends with it and
    no pixel is computed.  The camera of main.js with the same position,
    angles and focal length, whose [getProjectedVertex] intersects the line
    from the focus with the view plane itself, projects the vertex to
    (0,-1,0) and gives the pixel (102.4, 57.6). *)
Theorem scenario_vertex_not_projected (this : Camera.t) (main : MainCamera.t) (i : option nat) :
  Camera.pos this = Point.mk 0 (-1) 0 ->
  Camera.rx this = 0 -> Camera.rz this = 0 -> Camera.focalLength this = 3 ->
  MainCamera.pos main = Point.mk 0 (-1) 0 ->
  MainCamera.rx main = 0 -> MainCamera.rz main = 0 -> MainCamera.focalLength main = 3 ->
  let main' :=
    MainCamera.updatePlane (MainCamera.updateFocusPoint (MainCamera.updateNormalVector main)) in
  (Plane.isPointInFrontOf (Camera.plane (Camera.recompute this))
     (Vertex.point (Vertex.new 0 3 0 i)) = true /\
   Camera.getProjectedVertex (Camera.recompute this) (Vertex.new 0 3 0 i) = TypeError /\
   Camera.getToDrawVertex (Camera.recompute this) (Vertex.new 0 3 0 i) = TypeError) /\
  (MainCamera.isVertexInFrontOf (MainCamera.plane main') (Vertex.new 0 3 0 i) = true /\
   exists projected,
     MainCamera.getProjectedVertex main' (Vertex.new 0 3 0 i) = Some projected /\
     Vertex.x projected = 0 /\ Vertex.y projected = -1 /\ Vertex.z projected = 0 /\
     MainCamera.getOnScreenVertex main' (Vertex.new 0 3 0 i)
     = Some (MainCamera.getConvertedVertex main' projected) /\
     MainCamera.getToDrawVertex main' (MainCamera.getConvertedVertex main' projected)
     = XY.mk (1024 / 10) (576 / 10)).
Proof.
  intros Hpos Hrx Hrz Hf Mpos Mrx Mrz Mf main'.
  destruct (start_camera_derived this Hpos Hrx Hrz Hf) as (_ & _ & Hplane).
  destruct (start_mainCamera_derived main Mpos Mrx Mrz Mf) as (Mp & Mx & Mz & Mfocus & Mplane).
  fold main' in Mp, Mx, Mz, Mfocus, Mplane.
  assert (Hfront : Plane.isPointInFrontOf (Camera.plane (Camera.recompute this))
                     (Vertex.point (Vertex.new 0 3 0 i)) = true).
  { rewrite Hplane. apply isPointInFrontOf_true. unfold Plane.side, Plane.eval. simpl. lra. }
  split.
  { split; [exact Hfront|]. apply getProjectedVertex_front, Hfront. }
  split.
  { unfold MainCamera.isVertexInFrontOf. rewrite Mplane. apply isPointInFrontOf_true.
    unfold Plane.side, Plane.eval. simpl. lra. }
  assert (Hproj : MainCamera.getProjectedVertex main' (Vertex.new 0 3 0 i)
                  = Some (Vertex.new 0 (-1) 0 i)).
  { unfold MainCamera.getProjectedVertex, getIntersectionFromLineAndPlane.
    rewrite Mfocus, Mplane. simpl.
    case_decide as Hd; [exfalso; lra|].
    unfold Plane.eval. simpl. f_equal. f_equal; field; lra. }
  exists (Vertex.new 0 (-1) 0 i).
  split; [exact Hproj|]. split; [reflexivity|]. split; [reflexivity|]. split; [reflexivity|].
  split.
  { unfold MainCamera.getOnScreenVertex. rewrite Hproj. reflexivity. }
  unfold MainCamera.getToDrawVertex, MainCamera.getConvertedVertex.
  rewrite Mp, Mx, Mz. simpl.
  replace (- 0) with 0 by lra. rewrite sin_deg_0, cos_deg_0.
  unfold CAN_W, CAN_H, CAMERA_W, CAMERA_H, expandingRatio. f_equal; lra.
Qed.

Lemma scenario_vertex_not_projected_witness :
  Camera.getToDrawVertex scenarioCamera aheadVertex = TypeError /\
  exists projected,
    MainCamera.getProjectedVertex
      (MainCamera.updatePlane
         (MainCamera.updateFocusPoint (MainCamera.updateNormalVector mainCamera0)))
      aheadVertex = Some projected /\
    MainCamera.getToDrawVertex
      (MainCamera.updatePlane
         (MainCamera.updateFocusPoint (MainCamera.updateNormalVector mainCamera0)))
      (MainCamera.getConvertedVertex
         (MainCamera.updatePlane
            (MainCamera.updateFocusPoint (MainCamera.updateNormalVector mainCamera0)))
         projected)
    = XY.mk (1024 / 10) (576 / 10).
Proof.
  destruct (scenario_vertex_not_projected scenarioCamera0 mainCamera0 (Some 0%nat)
              eq_refl eq_refl eq_refl eq_refl eq_refl eq_refl eq_refl eq_refl)
    as ((_ & _ & Hthrow) & _ & projected & Hp & _ & _ & _ & _ & Hxy).
  split; [exact Hthrow|]. exists projected. split; [exact Hp | exact Hxy].
Defined.

(** *** The recomputed camera

    Its plane goes through [pos] with the normal vector, and the focus is
    [pos] minus the normal vector. *)

Lemma Math_sign_scale (t a : R) : 0 < t -> Math_sign (t * a) = Math_sign a.
Proof.
  intros Ht. unfold Math_sign.
  destruct (decide (0 < a)) as [Ha|Ha].
  - rewrite decide_True by nra. reflexivity.
  - rewrite (decide_False (P := 0 < t * a)) by nra.
    destruct (decide (a < 0)) as [Hb|Hb].
    + rewrite decide_True by nra. reflexivity.
    + rewrite decide_False by nra. reflexivity.
Qed.

Lemma recompute_plane_focus (this : Camera.t) :
  let this' := Camera.recompute this in
  Camera.plane this' = getPlaneFromVectorAndPoint (Camera.normalVector this') (Camera.pos this') /\
  Camera.focus this'
  = Point.mk (Point.x (Camera.pos this') - Vector.x (Camera.normalVector this'))
             (Point.y (Camera.pos this') - Vector.y (Camera.normalVector this'))
             (Point.z (Camera.pos this') - Vector.z (Camera.normalVector this')).
Proof. destruct this. split; reflexivity. Qed.

(** ** The loop of drawEdges *)

Lemma getToDrawVertex_null (this : Camera.t) (vertex : Vertex.t) :
  Camera.getToDrawVertex this vertex = Return None <->
  Plane.isPointInFrontOf (Camera.plane this) (Vertex.point vertex) = false.
Proof.
  unfold Camera.getToDrawVertex, Camera.getProjectedVertex.
  destruct (Plane.isPointInFrontOf (Camera.plane this) (Vertex.point vertex)); simpl.
  - split; discriminate.
  - split; reflexivity.
Qed.

(** The edge is skipped exactly when both projections are null. *)
Lemma drawConvertedEdge_skip (this : Camera.t) (e : Edge.t) :
  Camera.drawConvertedEdge this e = Return None <->
  Camera.getToDrawVertex this (Edge.vertex1 e) = Return None /\
  Camera.getToDrawVertex this (Edge.vertex2 e) = Return None.
Proof.
  unfold Camera.drawConvertedEdge.
  destruct (Camera.getToDrawVertex this (Edge.vertex1 e)) as [[t1|]|];
    destruct (Camera.getToDrawVertex this (Edge.vertex2 e)) as [[t2|]|];
    split; try discriminate; try (intros [? ?]; discriminate); try reflexivity.
  intros _. split; reflexivity.
Qed.

(** The cases of a turn of the loop: with neither endpoint in front of the
    view plane the edge is skipped; with an endpoint in front the turn ends
    in a TypeError, and nothing is drawn. *)
Lemma drawConvertedEdge_cases (this : Camera.t) (e : Edge.t) :
  let front1 := Plane.isPointInFrontOf (Camera.plane this) (Vertex.point (Edge.vertex1 e)) in
  let front2 := Plane.isPointInFrontOf (Camera.plane this) (Vertex.point (Edge.vertex2 e)) in
  (front1 = false -> front2 = false -> Camera.drawConvertedEdge this e = Return None) /\
  (front1 = true \/ front2 = true -> Camera.drawConvertedEdge this e = TypeError).
Proof.
  intros front1 front2. split.
  - intros H1 H2. apply drawConvertedEdge_skip. split; apply getToDrawVertex_null; assumption.
  - intros Hfront. unfold Camera.drawConvertedEdge.
    destruct front1 eqn:H1.
    + rewrite (proj2 (getProjectedVertex_front this _ H1)). reflexivity.
    + rewrite (proj2 (getToDrawVertex_null this _) H1).
      destruct Hfront as [Hfront | Hfront]; [discriminate|].
      rewrite (proj2 (getProjectedVertex_front this _ Hfront)). reflexivity.
Qed.

(** C5: the draw path does not draw the edge from (0,-2,0) to (0,-1,0) for
    the camera of the scenario, and does not skip it either: the clipped
    edge has its first vertex in front of the view plane and its second
    vertex on it, which is not in front; the two projections are not both
    null, and the turn of the loop ends in a TypeError. *)
Theorem drawEdge_touching_edge :
  Camera.drawEdge scenarioCamera touchingEdge = TypeError.
Proof.
  unfold Camera.drawEdge. rewrite scenarioCamera_plane.
  assert (Hwf : Edge.wf touchingEdge) by (apply Edge_new_wf; reflexivity).
  replace (Edge.getClone touchingEdge) with touchingEdge by reflexivity.
  rewrite setVertexInFrontOfCamera_returned.
  destruct (clip_back_to_front touchingEdge (Plane.mk 0 3 0 3) Hwf)
    as (I & _ & _ & _ & Hnew & ->).
  { unfold Plane.side, Plane.eval. simpl. lra. }
  { unfold Plane.side, Plane.eval. simpl. lra. }
  apply drawConvertedEdge_cases. left. rewrite scenarioCamera_plane. simpl.
  apply isPointInFrontOf_true. exact Hnew.
Qed.

(** ** The store: what a frame leaves unchanged *)

Lemma unchanged_refl (w : World.t) : unchanged w w.
Proof. intros l o H. exact H. Qed.

Lemma unchanged_trans (w1 w2 w3 : World.t) :
  unchanged w1 w2 -> unchanged w2 w3 -> unchanged w1 w3.
Proof. intros H12 H23 l o H. apply H23, H12, H. Qed.

Lemma bind_run {A B : Type} (m : M A) (k : A -> M B) (w : World.t) :
  (m ≫= k) w = match m w with
               | (Return a, w') => k a w'
               | (TypeError, w') => (TypeError, w')
               end.
Proof. reflexivity. Qed.

Lemma bind_return {A B : Type} (m : M A) (k : A -> M B) (w w' : World.t) (a : A) :
  m w = (Return a, w') -> (m ≫= k) w = k a w'.
Proof. intros H. rewrite bind_run, H. reflexivity. Qed.

Section Frame.
Variable w0 : World.t.

Lemma frame_ret {A : Type} (a : A) (Q : A -> Prop) : Q a -> frame w0 (mret a) Q.
Proof. intros HQ w Hw. split; [exact Hw|]. intros b [= <-]. exact HQ. Qed.

Lemma frame_bind {A B : Type} (m : M A) (k : A -> M B) (P : A -> Prop) (Q : B -> Prop) :
  frame w0 m P -> (forall a, P a -> frame w0 (k a) Q) -> frame w0 (m ≫= k) Q.
Proof.
  intros Hm Hk w Hw. rewrite bind_run.
  destruct (Hm w Hw) as [Hw' HP]. destruct (m w) as [[a|] w']; simpl in *.
  - apply (Hk a (HP a eq_refl) w' Hw').
  - split; [exact Hw'|]. discriminate.
Qed.

Lemma frame_lift {A : Type} (c : completion A) : frame w0 (lift c) (fun _ => True).
Proof. intros w Hw. split; [exact Hw|]. intros; exact I. Qed.

Lemma frame_draw (d : DrawCall) : frame w0 (draw d) (fun _ => True).
Proof. intros w Hw. split; [exact Hw|]. intros; exact I. Qed.

Lemma frame_alloc (o : obj) : frame w0 (alloc o) (fresh_for w0).
Proof.
  intros w Hw. unfold alloc. simpl.
  pose proof (is_fresh (dom (World.objects w))) as Hfresh.
  apply not_elem_of_dom in Hfresh.
  assert (Hnew : fresh_for w0 (fresh (dom (World.objects w)))).
  { unfold fresh_for.
    destruct (World.objects w0 !! fresh (dom (World.objects w))) as [o'|] eqn:Ho; [|reflexivity].
    apply Hw in Ho. congruence. }
  split.
  - intros l o' Hl. simpl. rewrite lookup_insert_ne; [apply Hw, Hl|].
    intros <-. unfold fresh_for in Hnew. congruence.
  - intros a [= <-]. exact Hnew.
Qed.

Lemma frame_storeEdge (l : loc) (e : EdgeObj.t) :
  fresh_for w0 l -> frame w0 (storeEdge l e) (fun _ => True).
Proof.
  intros Hl w Hw. split; [|intros; exact I].
  intros l' o Ho. simpl. rewrite lookup_insert_ne; [apply Hw, Ho|].
  intros <-. unfold fresh_for in Hl. congruence.
Qed.

Lemma frame_loadVertex (l : loc) : frame w0 (loadVertex l) (fun _ => True).
Proof.
  intros w Hw. unfold loadVertex.
  destruct (World.objects w !! l) as [[]|]; (split; [exact Hw | intros; exact I]).
Qed.

Lemma frame_loadEdge (l : loc) : frame w0 (loadEdge l) (fun _ => True).
Proof.
  intros w Hw. unfold loadEdge.
  destruct (World.objects w !! l) as [[]|]; (split; [exact Hw | intros; exact I]).
Qed.

Lemma frame_loadFace (l : loc) : frame w0 (loadFace l) (fun _ => True).
Proof.
  intros w Hw. unfold loadFace.
  destruct (World.objects w !! l) as [[]|]; (split; [exact Hw | intros; exact I]).
Qed.

Lemma frame_loadLight (l : loc) : frame w0 (loadLight l) (fun _ => True).
Proof.
  intros w Hw. unfold loadLight.
  destruct (World.objects w !! l) as [[]|]; (split; [exact Hw | intros; exact I]).
Qed.

Lemma frame_mapA {A B : Type} (f : A -> M B) (l : list A) (Q : B -> Prop) :
  (forall a, frame w0 (f a) Q) -> frame w0 (mapA f l) (Forall Q).
Proof.
  intros Hf. induction l as [|a l IH]; simpl.
  - apply frame_ret. constructor.
  - eapply frame_bind; [apply Hf|]. intros b Hb.
    eapply frame_bind; [apply IH|]. intros bs Hbs.
    apply frame_ret. constructor; assumption.
Qed.

Lemma frame_forOf {A : Type} (l : list A) (body : A -> M unit) :
  (forall a, a ∈ l -> frame w0 (body a) (fun _ => True)) ->
  frame w0 (forOf l body) (fun _ => True).
Proof.
  induction l as [|a l IH]; simpl; intros Hbody.
  - apply frame_ret. exact I.
  - eapply frame_bind; [apply Hbody; left|]. intros _ _.
    apply IH. intros b Hb. apply Hbody. right. exact Hb.
Qed.

End Frame.

Create HintDb frame.
#[local] Hint Resolve frame_loadVertex frame_loadEdge frame_loadFace frame_loadLight
  frame_alloc frame_draw frame_lift : frame.

(** One step of a sequence: the first computation by a rule for it, then
    the rest. *)
Ltac frame_seq :=
  eapply frame_bind; [solve [eauto with frame] | intros ? ?].

Section FrameShapes.
Variable w0 : World.t.

Lemma frame_Vertex_new (x y z : R) (i : option nat) :
  frame w0 (Ref.Vertex_new x y z i) (fresh_for w0).
Proof. apply frame_alloc. Qed.

Lemma frame_Vertex_getClone (this : loc) :
  frame w0 (Ref.Vertex_getClone this) (fresh_for w0).
Proof. unfold Ref.Vertex_getClone. frame_seq. apply frame_Vertex_new. Qed.

Lemma frame_Edge_new (v1 v2 : loc) : frame w0 (Ref.Edge_new v1 v2) (fresh_for w0).
Proof. unfold Ref.Edge_new. frame_seq. frame_seq. apply frame_alloc. Qed.

Lemma frame_Edge_getClone (this : loc) : frame w0 (Ref.Edge_getClone this) (fresh_for w0).
Proof.
  unfold Ref.Edge_getClone. frame_seq.
  eapply frame_bind; [apply frame_Vertex_getClone | intros ? ?].
  eapply frame_bind; [apply frame_Vertex_getClone | intros ? ?].
  apply frame_Edge_new.
Qed.

Lemma frame_Edge_value (this : loc) : frame w0 (Ref.Edge_value this) (fun _ => True).
Proof.
  unfold Ref.Edge_value. frame_seq. frame_seq. frame_seq. apply frame_ret. exact I.
Qed.

Lemma frame_Edge_set_vertex1 (this v : loc) :
  fresh_for w0 this -> frame w0 (Ref.Edge_set_vertex1 this v) (fun _ => True).
Proof. intros H. unfold Ref.Edge_set_vertex1. frame_seq. apply frame_storeEdge, H. Qed.

Lemma frame_Edge_set_vertex2 (this v : loc) :
  fresh_for w0 this -> frame w0 (Ref.Edge_set_vertex2 this v) (fun _ => True).
Proof. intros H. unfold Ref.Edge_set_vertex2. frame_seq. apply frame_storeEdge, H. Qed.

(** Clipping writes to its receiver only: it leaves the objects of [w0]
    unchanged when the receiver is not one of them. *)
Lemma frame_Edge_setVertexInFrontOfCamera (this : loc) (plane : Plane.t) :
  fresh_for w0 this ->
  frame w0 (Ref.Edge_setVertexInFrontOfCamera this plane) (fresh_for w0).
Proof.
  intros Hthis. unfold Ref.Edge_setVertexInFrontOfCamera.
  eapply frame_bind; [apply frame_Edge_value | intros e _].
  eapply frame_bind with (P := fun _ => True).
  - destruct (Edge.getIntersectionWithPlane e plane) as [I|]; [|apply frame_ret; exact I].
    destruct (Plane.isPointInFrontOf plane (Vertex.point (Edge.vertex1 e))).
    + eapply frame_bind; [apply frame_Vertex_new | intros v _].
      apply frame_Edge_set_vertex2, Hthis.
    + eapply frame_bind; [apply frame_Vertex_new | intros v _].
      apply frame_Edge_set_vertex1, Hthis.
  - intros _ _. frame_seq. apply frame_Edge_new.
Qed.

Lemma frame_Face_getClone (this : loc) : frame w0 (Ref.Face_getClone this) (fresh_for w0).
Proof.
  unfold Ref.Face_getClone. frame_seq.
  eapply frame_bind; [apply frame_Vertex_getClone | intros ? ?].
  eapply frame_bind; [apply frame_Vertex_getClone | intros ? ?].
  eapply frame_bind; [apply frame_Vertex_getClone | intros ? ?].
  unfold Ref.Face_new. frame_seq. frame_seq. frame_seq. apply frame_alloc.
Qed.

Lemma frame_Light_getClone (this : loc) : frame w0 (Ref.Light_getClone this) (fresh_for w0).
Proof. unfold Ref.Light_getClone. frame_seq. apply frame_alloc. Qed.

(** *** camera.js *)

Lemma frame_Camera_importShapes (this : Camera.t) :
  frame w0 (Camera.importShapes this) (fun _ => True).
Proof.
  unfold Camera.importShapes.
  eapply frame_bind; [apply frame_mapA, frame_Vertex_getClone | intros ? _].
  eapply frame_bind; [apply frame_mapA, frame_Edge_getClone | intros ? _].
  eapply frame_bind; [apply frame_mapA, frame_Face_getClone | intros ? _].
  eapply frame_bind; [apply frame_mapA, frame_Light_getClone | intros ? _].
  apply frame_ret. exact I.
Qed.

(** Each edge is cloned before it is clipped, so that not even the
    imported edges are written to. *)
Lemma frame_Camera_drawEdges (this : Camera.t) :
  frame w0 (Camera.drawEdges this) (fun _ => True).
Proof.
  unfold Camera.drawEdges. apply frame_forOf. intros edge _. unfold Camera.drawEdgesTurn.
  eapply frame_bind; [apply frame_Edge_getClone | intros clone Hclone].
  eapply frame_bind; [apply frame_Edge_setVertexInFrontOfCamera, Hclone | intros r _].
  eapply frame_bind; [apply frame_Edge_value | intros e _].
  eapply frame_bind; [apply frame_lift | intros d _].
  destruct d; [apply frame_draw | apply frame_ret; exact I].
Qed.

Lemma frame_Camera_drawVertexes (this : Camera.t) :
  frame w0 (Camera.drawVertexes this) (fun _ => True).
Proof.
  unfold Camera.drawVertexes. apply frame_forOf. intros l _.
  frame_seq.
  eapply frame_bind; [apply frame_lift | intros toDrawVertex _].
  destruct toDrawVertex; [|apply frame_ret; exact I].
  frame_seq. apply frame_draw.
Qed.

Lemma frame_Camera_update (this : Camera.t) (key : gmap string bool) :
  frame w0 (Camera.update this key) (fun _ => True).
Proof.
  unfold Camera.update.
  eapply frame_bind; [apply frame_Camera_drawEdges | intros _ _].
  eapply frame_bind; [apply frame_Camera_drawVertexes | intros _ _].
  apply frame_ret. exact I.
Qed.

Lemma frame_Camera_new (pos : Point.t) (rx rz focalLength width height canW canH
    expandingRatio fps speed : R) (key : gmap string bool)
    (vertexes edges faces lights : list loc) :
  frame w0 (Camera.new pos rx rz focalLength width height canW canH expandingRatio
                       fps speed key vertexes edges faces lights) (fun _ => True).
Proof.
  unfold Camera.new.
  eapply frame_bind; [apply frame_Camera_importShapes | intros this _].
  apply frame_Camera_update.
Qed.

(** *** main.js *)

Lemma frame_MainCamera_importShapes (this : MainCamera.t) (vertexesList edges : list loc) :
  frame w0 (MainCamera.importShapes this vertexesList edges)
        (fun this' => Forall (fresh_for w0) (MainCamera.importedEdges this')).
Proof.
  unfold MainCamera.importShapes.
  eapply frame_bind; [apply frame_mapA, frame_Vertex_getClone | intros iv _].
  eapply frame_bind; [apply frame_mapA, frame_Edge_getClone | intros ie Hie].
  apply frame_ret. exact Hie.
Qed.

(** The imported edges are clipped in place: they must not be objects of
    [w0]. *)
Lemma frame_MainCamera_drawEdges (this : MainCamera.t) :
  Forall (fresh_for w0) (MainCamera.importedEdges this) ->
  frame w0 (MainCamera.drawEdges this) (fun _ => True).
Proof.
  intros Hfresh. unfold MainCamera.drawEdges. apply frame_forOf. intros edge Hin.
  rewrite Forall_forall in Hfresh.
  eapply frame_bind; [apply frame_Edge_setVertexInFrontOfCamera, Hfresh, Hin | intros _ _].
  frame_seq. frame_seq. frame_seq.
  destruct (negb _ && negb _); [apply frame_ret; exact I|].
  eapply frame_bind; [apply frame_Vertex_getClone | intros ? _].
  eapply frame_bind; [apply frame_Vertex_getClone | intros ? _].
  frame_seq. frame_seq.
  destruct (MainCamera.getOnScreenVertex this _); [|apply frame_ret; exact I].
  destruct (MainCamera.getOnScreenVertex this _); [|apply frame_ret; exact I].
  apply frame_draw.
Qed.

Lemma frame_MainCamera_drawVertexes (this : MainCamera.t) :
  frame w0 (MainCamera.drawVertexes this) (fun _ => True).
Proof.
  unfold MainCamera.drawVertexes. apply frame_forOf. intros l _.
  frame_seq. destruct (negb _); [apply frame_ret; exact I|].
  destruct (MainCamera.getOnScreenVertex this _); [|apply frame_ret; exact I].
  frame_seq. apply frame_draw.
Qed.

Lemma frame_MainCamera_drawTopView (this : MainCamera.t)
    (vertexesList edges : list loc) (can2_width : R) :
  frame w0 (MainCamera.drawTopView this vertexesList edges can2_width) (fun _ => True).
Proof.
  unfold MainCamera.drawTopView. frame_seq. frame_seq.
  eapply frame_bind with (P := fun _ => True).
  - apply frame_forOf. intros l _. frame_seq. apply frame_draw.
  - intros _ _. apply frame_forOf. intros l _.
    frame_seq. frame_seq. frame_seq. apply frame_draw.
Qed.

Lemma frame_MainCamera_update (this : MainCamera.t) (key : gmap string bool)
    (vertexesList edges : list loc) (can2_width : R) :
  frame w0 (MainCamera.update this key vertexesList edges can2_width) (fun _ => True).
Proof.
  unfold MainCamera.update.
  eapply frame_bind; [apply frame_MainCamera_importShapes | intros this' Hfresh].
  eapply frame_bind with (P := fun _ => True); [|intros _ _; apply frame_ret; exact I].
  unfold MainCamera.draw.
  eapply frame_bind; [apply frame_MainCamera_drawVertexes | intros _ _].
  eapply frame_bind; [apply frame_MainCamera_drawEdges, Hfresh | intros _ _].
  apply frame_MainCamera_drawTopView.
Qed.

End FrameShapes.

(** ** The methods on objects of the store and on values *)

Lemma alloc_run (o : obj) (w : World.t) :
  exists l,
    fresh_for w l /\
    alloc o w = (Return l, World.mk (<[l := o]> (World.objects w)) (World.canvas w)).
Proof.
  exists (fresh (dom (World.objects w))). split; [|reflexivity].
  apply not_elem_of_dom, is_fresh.
Qed.

Lemma loadVertex_run (l : loc) (v : Vertex.t) (w : World.t) :
  holds w l (OVertex v) -> loadVertex l w = (Return v, w).
Proof. unfold holds, loadVertex. intros ->. reflexivity. Qed.

Lemma loadEdge_run (l : loc) (e : EdgeObj.t) (w : World.t) :
  holds w l (OEdge e) -> loadEdge l w = (Return e, w).
Proof. unfold holds, loadEdge. intros ->. reflexivity. Qed.

Lemma holds_insert_fresh (w : World.t) (l l' : loc) (o o' : obj) (c : list DrawCall) :
  holds w l o -> fresh_for w l' ->
  holds (World.mk (<[l' := o']> (World.objects w)) c) l o.
Proof.
  unfold holds, fresh_for. simpl. intros Hl Hl'.
  rewrite lookup_insert_ne; [exact Hl|]. intros <-. congruence.
Qed.

Lemma holds_insert_eq (m : gmap loc obj) (l : loc) (o : obj) (c : list DrawCall) :
  holds (World.mk (<[l := o]> m) c) l o.
Proof. unfold holds. simpl. apply lookup_insert_eq. Qed.

Lemma Vertex_getClone_run (this : loc) (v : Vertex.t) (w : World.t) :
  holds w this (OVertex v) ->
  exists c,
    fresh_for w c /\
    Ref.Vertex_getClone this w
    = (Return c, World.mk (<[c := OVertex (Vertex.getClone v)]> (World.objects w))
                          (World.canvas w)).
Proof.
  intros Hv. unfold Ref.Vertex_getClone.
  rewrite (bind_return _ _ _ _ _ (loadVertex_run _ _ _ Hv)).
  apply alloc_run.
Qed.

Lemma Edge_new_run (l1 l2 : loc) (v1 v2 : Vertex.t) (w : World.t) :
  holds w l1 (OVertex v1) -> holds w l2 (OVertex v2) ->
  exists c,
    fresh_for w c /\
    Ref.Edge_new l1 l2 w
    = (Return c,
       World.mk (<[c := OEdge (EdgeObj.mk l1 l2 (Edge.vector (Edge.new v1 v2))
                                          (Edge.line (Edge.new v1 v2)))]>
                   (World.objects w))
                (World.canvas w)).
Proof.
  intros H1 H2. unfold Ref.Edge_new.
  rewrite (bind_return _ _ _ _ _ (loadVertex_run _ _ _ H1)).
  rewrite (bind_return _ _ _ _ _ (loadVertex_run _ _ _ H2)).
  apply alloc_run.
Qed.

Lemma Edge_value_run (this : loc) (eo : EdgeObj.t) (v1 v2 : Vertex.t) (w : World.t) :
  holds w this (OEdge eo) ->
  holds w (EdgeObj.vertex1 eo) (OVertex v1) ->
  holds w (EdgeObj.vertex2 eo) (OVertex v2) ->
  Ref.Edge_value this w = (Return (Edge.mk v1 v2 (EdgeObj.vector eo) (EdgeObj.line eo)), w).
Proof.
  intros He H1 H2. unfold Ref.Edge_value.
  rewrite (bind_return _ _ _ _ _ (loadEdge_run _ _ _ He)).
  rewrite (bind_return _ _ _ _ _ (loadVertex_run _ _ _ H1)).
  rewrite (bind_return _ _ _ _ _ (loadVertex_run _ _ _ H2)).
  reflexivity.
Qed.

(** [getClone] on an Edge object: a new Edge object on two new Vertex
    objects, with the value of the clone of the edge. *)
Lemma Edge_getClone_run (this : loc) (eo : EdgeObj.t) (v1 v2 : Vertex.t) (w : World.t) :
  holds w this (OEdge eo) ->
  holds w (EdgeObj.vertex1 eo) (OVertex v1) ->
  holds w (EdgeObj.vertex2 eo) (OVertex v2) ->
  exists c co w',
    Ref.Edge_getClone this w = (Return c, w') /\
    unchanged w w' /\
    World.canvas w' = World.canvas w /\
    fresh_for w c /\ fresh_for w (EdgeObj.vertex1 co) /\ fresh_for w (EdgeObj.vertex2 co) /\
    holds w' c (OEdge co) /\
    holds w' (EdgeObj.vertex1 co) (OVertex (Vertex.getClone v1)) /\
    holds w' (EdgeObj.vertex2 co) (OVertex (Vertex.getClone v2)) /\
    Ref.Edge_value c w'
    = (Return (Edge.getClone (Edge.mk v1 v2 (EdgeObj.vector eo) (EdgeObj.line eo))), w').
Proof.
  intros He H1 H2. unfold Ref.Edge_getClone.
  rewrite (bind_return _ _ _ _ _ (loadEdge_run _ _ _ He)).
  destruct (Vertex_getClone_run _ _ _ H1) as (c1 & Hc1 & Hrun1).
  rewrite (bind_return _ _ _ _ _ Hrun1). clear Hrun1.
  set (w1 := World.mk (<[c1 := OVertex (Vertex.getClone v1)]> (World.objects w)) (World.canvas w)).
  assert (H2' : holds w1 (EdgeObj.vertex2 eo) (OVertex v2))
    by (apply holds_insert_fresh; assumption).
  destruct (Vertex_getClone_run _ _ _ H2') as (c2 & Hc2 & Hrun2).
  rewrite (bind_return _ _ _ _ _ Hrun2). clear Hrun2.
  set (w2 := World.mk (<[c2 := OVertex (Vertex.getClone v2)]> (World.objects w1)) (World.canvas w1)).
  assert (G1 : holds w2 c1 (OVertex (Vertex.getClone v1))).
  { apply holds_insert_fresh; [apply holds_insert_eq | exact Hc2]. }
  assert (G2 : holds w2 c2 (OVertex (Vertex.getClone v2))) by apply holds_insert_eq.
  destruct (Edge_new_run c1 c2 _ _ w2 G1 G2) as (c & Hc & ->).
  set (co := EdgeObj.mk c1 c2 _ _).
  exists c, co. eexists. split; [reflexivity|].
  assert (U1 : unchanged w w1).
  { intros l o Hl. apply (holds_insert_fresh w l c1 o); assumption. }
  assert (U2 : unchanged w1 w2).
  { intros l o Hl. apply (holds_insert_fresh w1 l c2 o); assumption. }
  assert (Fc2 : fresh_for w c2).
  { unfold fresh_for in *. destruct (World.objects w !! c2) eqn:E; [|reflexivity].
    apply U1 in E. congruence. }
  assert (Fc : fresh_for w c).
  { unfold fresh_for in *. destruct (World.objects w !! c) eqn:E; [|reflexivity].
    apply U1, U2 in E. congruence. }
  split.
  { intros l o Hl. apply (holds_insert_fresh w2 l c o); [|exact Hc]. apply U2, U1, Hl. }
  split; [reflexivity|]. split; [exact Fc|]. split; [exact Hc1|]. split; [exact Fc2|].
  assert (K : holds (World.mk (<[c := OEdge co]> (World.objects w2)) (World.canvas w2)) c (OEdge co))
    by apply holds_insert_eq.
  assert (K1 : holds (World.mk (<[c := OEdge co]> (World.objects w2)) (World.canvas w2))
                 c1 (OVertex (Vertex.getClone v1)))
    by (apply holds_insert_fresh; assumption).
  assert (K2 : holds (World.mk (<[c := OEdge co]> (World.objects w2)) (World.canvas w2))
                 c2 (OVertex (Vertex.getClone v2)))
    by (apply holds_insert_fresh; assumption).
  split; [exact K|]. split; [exact K1|]. split; [exact K2|].
  rewrite (Edge_value_run c co _ _ _ K K1 K2). reflexivity.
Qed.

Lemma holds_insert_ne (m : gmap loc obj) (l l' : loc) (o o' : obj) (c c' : list DrawCall) :
  l <> l' -> holds (World.mk m c) l o -> holds (World.mk (<[l' := o']> m) c') l o.
Proof. unfold holds. simpl. intros Hne Hl. rewrite lookup_insert_ne; [exact Hl | auto]. Qed.

Lemma holds_distinct (w : World.t) (l l' : loc) (e : EdgeObj.t) (v : Vertex.t) :
  holds w l (OEdge e) -> holds w l' (OVertex v) -> l' <> l.
Proof. unfold holds. intros He Hv ->. congruence. Qed.

Lemma holds_fresh_distinct (w : World.t) (l l' : loc) (o : obj) :
  holds w l o -> fresh_for w l' -> l <> l'.
Proof. unfold holds, fresh_for. intros Hl Hl' ->. congruence. Qed.

(** The end of [setVertexInFrontOfCamera]: a new Edge object on the two
    vertices that the receiver holds by then. *)
Lemma clip_return_run (this : loc) (eo : EdgeObj.t) (v1 v2 : Vertex.t) (w : World.t) :
  holds w this (OEdge eo) ->
  holds w (EdgeObj.vertex1 eo) (OVertex v1) ->
  holds w (EdgeObj.vertex2 eo) (OVertex v2) ->
  exists r w',
    (r0 ← loadEdge this; Ref.Edge_new (EdgeObj.vertex1 r0) (EdgeObj.vertex2 r0)) w
    = (Return r, w') /\
    World.canvas w' = World.canvas w /\
    fresh_for w r /\
    (forall l o, holds w l o -> holds w' l o) /\
    Ref.Edge_value r w' = (Return (Edge.new v1 v2), w').
Proof.
  intros He H1 H2.
  rewrite (bind_return _ _ _ _ _ (loadEdge_run _ _ _ He)).
  destruct (Edge_new_run _ _ _ _ w H1 H2) as (c & Hc & Hrun).
  exists c. eexists. split; [exact Hrun|]. split; [reflexivity|]. split; [exact Hc|].
  split.
  - intros l o Hl. apply holds_insert_fresh; assumption.
  - set (co := EdgeObj.mk (EdgeObj.vertex1 eo) (EdgeObj.vertex2 eo)
                          (Edge.vector (Edge.new v1 v2)) (Edge.line (Edge.new v1 v2))).
    change (Edge.new v1 v2) with (Edge.mk v1 v2 (EdgeObj.vector co) (EdgeObj.line co)).
    apply (Edge_value_run c co).
    + apply holds_insert_eq.
    + apply holds_insert_fresh; assumption.
    + apply holds_insert_fresh; assumption.
Qed.

(** [setVertexInFrontOfCamera] on an Edge object does to the object what
    the method on values does to the receiver, and returns a new object with
    the value that method returns; no other object is written to. *)
Lemma Edge_setVertexInFrontOfCamera_run (this : loc) (eo : EdgeObj.t) (v1 v2 : Vertex.t)
    (plane : Plane.t) (w : World.t) :
  holds w this (OEdge eo) ->
  holds w (EdgeObj.vertex1 eo) (OVertex v1) ->
  holds w (EdgeObj.vertex2 eo) (OVertex v2) ->
  let e := Edge.mk v1 v2 (EdgeObj.vector eo) (EdgeObj.line eo) in
  exists r w',
    Ref.Edge_setVertexInFrontOfCamera this plane w = (Return r, w') /\
    World.canvas w' = World.canvas w /\
    fresh_for w r /\
    (forall l o, holds w l o -> l <> this -> holds w' l o) /\
    Ref.Edge_value this w' = (Return (fst (Edge.setVertexInFrontOfCamera e plane)), w') /\
    Ref.Edge_value r w' = (Return (snd (Edge.setVertexInFrontOfCamera e plane)), w').
Proof.
  intros He H1 H2 e. unfold Ref.Edge_setVertexInFrontOfCamera.
  rewrite (bind_return _ _ _ _ _ (Edge_value_run _ _ _ _ _ He H1 H2)). fold e.
  pose proof (holds_distinct _ _ _ _ _ He H1) as D1.
  pose proof (holds_distinct _ _ _ _ _ He H2) as D2.
  unfold Edge.setVertexInFrontOfCamera.
  destruct (Edge.getIntersectionWithPlane e plane) as [I|] eqn:HI.
  - destruct (Plane.isPointInFrontOf plane (Vertex.point (Edge.vertex1 e))) eqn:HF.
    + set (N := Vertex.new _ _ _ _).
      unfold Ref.Vertex_new. fold N.
      destruct (alloc_run (OVertex N) w) as (l & Hl & Hrun).
      assert (Hset : (v ← alloc (OVertex N); Ref.Edge_set_vertex2 this v) w
                     = (Return tt,
                        World.mk (<[this := OEdge (EdgeObj.mk (EdgeObj.vertex1 eo) l
                                                     (EdgeObj.vector eo) (EdgeObj.line eo))]>
                                    (<[l := OVertex N]> (World.objects w)))
                                 (World.canvas w))).
      { rewrite (bind_return _ _ _ _ _ Hrun). unfold Ref.Edge_set_vertex2.
        rewrite (bind_return _ _ _ _ _
                   (loadEdge_run this eo _
                      (holds_insert_fresh w this l (OEdge eo) (OVertex N) (World.canvas w)
                                          He Hl))).
        reflexivity. }
      rewrite (bind_return _ _ _ _ _ Hset).
      set (eo' := EdgeObj.mk (EdgeObj.vertex1 eo) l (EdgeObj.vector eo) (EdgeObj.line eo)).
      set (w2 := World.mk (<[this := OEdge eo']> (<[l := OVertex N]> (World.objects w)))
                          (World.canvas w)).
      assert (Ke : holds w2 this (OEdge eo')) by apply holds_insert_eq.
      assert (K1 : holds w2 (EdgeObj.vertex1 eo') (OVertex v1)).
      { apply holds_insert_ne with (c := World.canvas w); [exact D1|].
        apply holds_insert_fresh; assumption. }
      assert (K2 : holds w2 (EdgeObj.vertex2 eo') (OVertex N)).
      { apply holds_insert_ne with (c := World.canvas w);
          [apply not_eq_sym, (holds_fresh_distinct w _ _ _ He Hl)|].
        apply holds_insert_eq. }
      destruct (clip_return_run this eo' v1 N w2 Ke K1 K2) as (r & w' & Hr & Hc & Fr & Hk & Hv).
      exists r, w'. split; [exact Hr|]. split; [rewrite Hc; reflexivity|].
      split.
      { unfold fresh_for in *. destruct (World.objects w !! r) as [o|] eqn:E; [|reflexivity].
        destruct (decide (r = this)) as [->|Hne].
        - unfold holds in Ke. congruence.
        - assert (holds w2 r o); [|unfold holds in *; congruence].
          apply holds_insert_ne with (c := World.canvas w); [exact Hne|].
          apply holds_insert_fresh; assumption. }
      split.
      { intros l0 o Hl0 Hne. apply Hk.
        apply holds_insert_ne with (c := World.canvas w); [exact Hne|].
        apply holds_insert_fresh; assumption. }
      split; [|exact Hv].
      apply (Edge_value_run this eo'); apply Hk; assumption.
    + set (N := Vertex.new _ _ _ _).
      unfold Ref.Vertex_new. fold N.
      destruct (alloc_run (OVertex N) w) as (l & Hl & Hrun).
      assert (Hset : (v ← alloc (OVertex N); Ref.Edge_set_vertex1 this v) w
                     = (Return tt,
                        World.mk (<[this := OEdge (EdgeObj.mk l (EdgeObj.vertex2 eo)
                                                     (EdgeObj.vector eo) (EdgeObj.line eo))]>
                                    (<[l := OVertex N]> (World.objects w)))
                                 (World.canvas w))).
      { rewrite (bind_return _ _ _ _ _ Hrun). unfold Ref.Edge_set_vertex1.
        rewrite (bind_return _ _ _ _ _
                   (loadEdge_run this eo _
                      (holds_insert_fresh w this l (OEdge eo) (OVertex N) (World.canvas w)
                                          He Hl))).
        reflexivity. }
      rewrite (bind_return _ _ _ _ _ Hset).
      set (eo' := EdgeObj.mk l (EdgeObj.vertex2 eo) (EdgeObj.vector eo) (EdgeObj.line eo)).
      set (w2 := World.mk (<[this := OEdge eo']> (<[l := OVertex N]> (World.objects w)))
                          (World.canvas w)).
      assert (Ke : holds w2 this (OEdge eo')) by apply holds_insert_eq.
      assert (K1 : holds w2 (EdgeObj.vertex1 eo') (OVertex N)).
      { apply holds_insert_ne with (c := World.canvas w);
          [apply not_eq_sym, (holds_fresh_distinct w _ _ _ He Hl)|].
        apply holds_insert_eq. }
      assert (K2 : holds w2 (EdgeObj.vertex2 eo') (OVertex v2)).
      { apply holds_insert_ne with (c := World.canvas w); [exact D2|].
        apply holds_insert_fresh; assumption. }
      destruct (clip_return_run this eo' N v2 w2 Ke K1 K2) as (r & w' & Hr & Hc & Fr & Hk & Hv).
      exists r, w'. split; [exact Hr|]. split; [rewrite Hc; reflexivity|].
      split.
      { unfold fresh_for in *. destruct (World.objects w !! r) as [o|] eqn:E; [|reflexivity].
        destruct (decide (r = this)) as [->|Hne].
        - unfold holds in Ke. congruence.
        - assert (holds w2 r o); [|unfold holds in *; congruence].
          apply holds_insert_ne with (c := World.canvas w); [exact Hne|].
          apply holds_insert_fresh; assumption. }
      split.
      { intros l0 o Hl0 Hne. apply Hk.
        apply holds_insert_ne with (c := World.canvas w); [exact Hne|].
        apply holds_insert_fresh; assumption. }
      split; [|exact Hv].
      apply (Edge_value_run this eo'); apply Hk; assumption.
  - rewrite (bind_return (mret tt) _ w w tt eq_refl).
    destruct (clip_return_run this eo v1 v2 w He H1 H2) as (r & w' & Hr & Hc & Fr & Hk & Hv).
    exists r, w'. split; [exact Hr|]. split; [exact Hc|]. split; [exact Fr|].
    split; [intros l o Hl _; apply Hk, Hl|].
    split; [|exact Hv].
    apply (Edge_value_run this eo); apply Hk; assumption.
Qed.

(** One turn of the loop of [drawEdges] on an Edge object is the turn on
    its value: it ends in a TypeError, skips the edge or hands one segment
    to the rasterizer as [drawEdge] says, and leaves every object that was
    there unchanged. *)
Lemma drawEdgesTurn_run (this : Camera.t) (edge : loc) (eo : EdgeObj.t) (v1 v2 : Vertex.t)
    (w : World.t) :
  holds w edge (OEdge eo) ->
  holds w (EdgeObj.vertex1 eo) (OVertex v1) ->
  holds w (EdgeObj.vertex2 eo) (OVertex v2) ->
  let e := Edge.mk v1 v2 (EdgeObj.vector eo) (EdgeObj.line eo) in
  exists w',
    unchanged w w' /\
    match Camera.drawEdge this e with
    | TypeError =>
        fst (Camera.drawEdgesTurn this edge w) = TypeError /\
        World.canvas (snd (Camera.drawEdgesTurn this edge w)) = World.canvas w
    | Return None =>
        Camera.drawEdgesTurn this edge w = (Return tt, w') /\
        World.canvas w' = World.canvas w
    | Return (Some call) =>
        Camera.drawEdgesTurn this edge w = (Return tt, w') /\
        World.canvas w' = World.canvas w ++ [call]
    end.
Proof.
  intros He H1 H2 e. unfold Camera.drawEdgesTurn, Camera.drawEdge.
  destruct (Edge_getClone_run edge eo v1 v2 w He H1 H2)
    as (c & co & w1 & Hrun1 & U1 & Hcv1 & Fc & _ & _ & Kc & K1 & K2 & Hval).
  rewrite (bind_return _ _ _ _ _ Hrun1).
  assert (Hclone : Edge.getClone e
                   = Edge.mk (Vertex.getClone v1) (Vertex.getClone v2)
                             (EdgeObj.vector co) (EdgeObj.line co)).
  { rewrite (Edge_value_run c co _ _ _ Kc K1 K2) in Hval. unfold e. congruence. }
  destruct (Edge_setVertexInFrontOfCamera_run c co _ _ (Camera.plane this) w1 Kc K1 K2)
    as (r & w2 & Hrun2 & Hcv2 & _ & Hk & _ & Hr).
  rewrite (bind_return _ _ _ _ _ Hrun2), (bind_return _ _ _ _ _ Hr).
  rewrite <- Hclone. fold e.
  assert (U2 : unchanged w w2).
  { intros l o Hl. apply Hk; [apply U1, Hl|].
    intros ->. unfold fresh_for in Fc. unfold holds in Hl. congruence. }
  destruct (Camera.drawConvertedEdge this
              (snd (Edge.setVertexInFrontOfCamera (Edge.getClone e) (Camera.plane this))))
    as [[call|]|] eqn:Hd.
  - exists (World.mk (World.objects w2) (World.canvas w2 ++ [call])).
    split; [exact U2|]. rewrite bind_run. simpl.
    split; [reflexivity | rewrite Hcv2, Hcv1; reflexivity].
  - exists w2. split; [exact U2|]. rewrite bind_run. simpl.
    split; [reflexivity | rewrite Hcv2, Hcv1; reflexivity].
  - exists w2. split; [exact U2|]. rewrite bind_run. simpl.
    split; [reflexivity | rewrite Hcv2, Hcv1; reflexivity].
Qed.

(** In the loop of main.js an imported edge is clipped in place: the Edge
    object then holds a new first vertex and a direction vector that is not
    [vertex2 - vertex1], and the two Vertex objects it held are as they
    were. *)
Lemma clipped_in_place :
  exists r w' e',
    Ref.Edge_setVertexInFrontOfCamera 3%positive startPlane crossingWorld = (Return r, w') /\
    Ref.Edge_value 3%positive w' = (Return e', w') /\
    ~ Edge.inv e' /\
    holds w' 1%positive (OVertex behindVertex) /\
    holds w' 2%positive (OVertex aheadVertex).
Proof.
  assert (He : holds crossingWorld 3%positive (OEdge crossingEdgeObj)) by reflexivity.
  assert (H1 : holds crossingWorld (EdgeObj.vertex1 crossingEdgeObj) (OVertex behindVertex))
    by reflexivity.
  assert (H2 : holds crossingWorld (EdgeObj.vertex2 crossingEdgeObj) (OVertex aheadVertex))
    by reflexivity.
  destruct (Edge_setVertexInFrontOfCamera_run _ _ _ _ startPlane _ He H1 H2)
    as (r & w' & Hrun & _ & _ & Hk & Hthis & _).
  exists r, w'. eexists. split; [exact Hrun|]. split; [exact Hthis|].
  change (Edge.mk behindVertex aheadVertex (EdgeObj.vector crossingEdgeObj)
                  (EdgeObj.line crossingEdgeObj)) with crossingEdge.
  split; [apply crossingEdge_receiver_stale|].
  split; apply Hk; try assumption; discriminate.
Qed.

Lemma frame_unchanged {A : Type} (m : M A) (w : World.t) :
  frame w m (fun _ => True) -> unchanged w (snd (m w)).
Proof. intros H. apply (H w (unchanged_refl w)). Qed.

Lemma Camera_frames_unchanged (this : Camera.t) (w : World.t) (this' : Camera.t) (w' : World.t) :
  Camera_frames this w this' w' -> unchanged w w'.
Proof.
  induction 1 as [this w | this key w this' w' this'' w'' Hup _ IH
                  | this key w w' this'' w'' Hup _ IH].
  - apply unchanged_refl.
  - apply unchanged_trans with w'; [|exact IH].
    pose proof (frame_unchanged _ w (frame_Camera_update w this key)) as H.
    rewrite Hup in H. exact H.
  - apply unchanged_trans with w'; [|exact IH].
    pose proof (frame_unchanged _ w (frame_Camera_update w this key)) as H.
    rewrite Hup in H. exact H.
Qed.

Lemma MainCamera_frames_unchanged (vertexesList edges : list loc) (can2_width : R)
    (this : MainCamera.t) (w : World.t) (this' : MainCamera.t) (w' : World.t) :
  MainCamera_frames vertexesList edges can2_width this w this' w' -> unchanged w w'.
Proof.
  induction 1 as [this w | this key w this' w' this'' w'' Hup _ IH
                  | this key w this' w' this'' w'' Hup _ IH].
  - apply unchanged_refl.
  - apply unchanged_trans with w'; [|exact IH].
    pose proof (frame_unchanged _ w
                  (frame_MainCamera_update w this key vertexesList edges can2_width)) as H.
    rewrite Hup in H. exact H.
  - apply unchanged_trans with w'; [|exact IH].
    pose proof (frame_unchanged _ w
                  (frame_MainCamera_update w this key vertexesList edges can2_width)) as H.
    rewrite Hup in H. exact H.
Qed.

(** C9: the construction of a camera and any number of frames leave every
    object that existed before as it was: each Vertex object of the scene
    keeps its coordinates and its [i], each Edge object its two vertices,
    its vector and its line.  This holds for the camera of camera.js, which
    imports clones once and clips a clone of each imported edge, and for the
    camera of main.js, which imports clones at each frame and clips them in
    place; a frame that ends in a TypeError is no exception.  The clone of
    a Vertex object is a new object with the same coordinates and [i]; the
    clone of an Edge object is a new object that holds two new Vertex
    objects, the clones of its two vertices. *)
Theorem scene_unchanged :
  (forall pos rx rz focalLength width height canW canH expandingRatio fps speed key
          vertexes edges faces lights w,
      unchanged w (snd (Camera.new pos rx rz focalLength width height canW canH
                                   expandingRatio fps speed key
                                   vertexes edges faces lights w))) /\
  (forall this w this' w', Camera_frames this w this' w' -> unchanged w w') /\
  (forall pos rx rz focalLength width height key vertexesList edges can2_width w,
      unchanged w (snd (MainCamera.new pos rx rz focalLength width height key
                                       vertexesList edges can2_width w))) /\
  (forall vertexesList edges can2_width this w this' w',
      MainCamera_frames vertexesList edges can2_width this w this' w' -> unchanged w w') /\
  (forall this v w,
      holds w this (OVertex v) ->
      exists c w',
        Ref.Vertex_getClone this w = (Return c, w') /\
        fresh_for w c /\
        holds w' c (OVertex (Vertex.getClone v))) /\
  (forall this eo v1 v2 w,
      holds w this (OEdge eo) ->
      holds w (EdgeObj.vertex1 eo) (OVertex v1) ->
      holds w (EdgeObj.vertex2 eo) (OVertex v2) ->
      exists c co w',
        Ref.Edge_getClone this w = (Return c, w') /\
        fresh_for w c /\ fresh_for w (EdgeObj.vertex1 co) /\ fresh_for w (EdgeObj.vertex2 co) /\
        holds w' c (OEdge co) /\
        holds w' (EdgeObj.vertex1 co) (OVertex (Vertex.getClone v1)) /\
        holds w' (EdgeObj.vertex2 co) (OVertex (Vertex.getClone v2))).
Proof.
  split; [|split; [|split; [|split; [|split]]]].
  - intros. apply frame_unchanged, frame_Camera_new.
  - exact Camera_frames_unchanged.
  - intros. apply frame_unchanged. unfold MainCamera.new. apply frame_MainCamera_update.
  - exact MainCamera_frames_unchanged.
  - intros this v w Hv. destruct (Vertex_getClone_run this v w Hv) as (c & Hc & Hrun).
    exists c. eexists. split; [exact Hrun|]. split; [exact Hc|]. apply holds_insert_eq.
  - intros this eo v1 v2 w He H1 H2.
    destruct (Edge_getClone_run this eo v1 v2 w He H1 H2)
      as (c & co & w' & Hrun & _ & _ & Fc & F1 & F2 & Kc & K1 & K2 & _).
    exists c, co, w'. repeat (split; [assumption|]). assumption.
Qed.

Lemma scene_unchanged_witness :
  World.objects
    (snd (MainCamera.update mainCamera0 ∅ [1%positive; 2%positive] [3%positive] 100 cubeWorld))
    !! 3%positive = Some (OEdge cubeEdgeObj).
Proof.
  destruct (MainCamera.update mainCamera0 ∅ [1%positive; 2%positive] [3%positive] 100 cubeWorld)
    as [[this'|] w'] eqn:Hup; simpl.
  - apply (proj1 (proj2 (proj2 (proj2 scene_unchanged)))
             [1%positive; 2%positive] [3%positive] 100 mainCamera0 cubeWorld this' w').
    + eapply MainCamera_frames_update; [exact Hup | apply MainCamera_frames_done].
    + reflexivity.
  - apply (proj1 (proj2 (proj2 (proj2 scene_unchanged)))
             [1%positive; 2%positive] [3%positive] 100 mainCamera0 cubeWorld mainCamera0 w').
    + eapply MainCamera_frames_error; [exact Hup | apply MainCamera_frames_done].
    + reflexivity.
Defined.

(** * Further properties of shape.js *)

(** ** HalfLine *)

Lemma Math_sign_zero (a : R) : Math_sign a = 0 <-> a = 0.
Proof.
  unfold Math_sign. repeat case_decide; split; intros; lra.
Qed.

Lemma Math_sign_negative_scale (t a : R) : t < 0 -> a <> 0 -> Math_sign (t * a) <> Math_sign a.
Proof.
  intros Ht Ha. unfold Math_sign.
  destruct (decide (0 < a)) as [Hp|Hp].
  - rewrite (decide_False (P := 0 < t * a)) by nra.
    rewrite (decide_True (P := t * a < 0)) by nra. lra.
  - rewrite (decide_True (P := 0 < t * a)) by nra.
    rewrite (decide_True (P := a < 0)) by lra. lra.
Qed.

Lemma nonzero_vector_component (v : Vector.t) :
  v <> Vector.mk 0 0 0 -> Vector.x v <> 0 \/ Vector.y v <> 0 \/ Vector.z v <> 0.
Proof.
  destruct v as [a b c]. simpl. intros Hne.
  destruct (decide (a = 0)) as [->|]; [|tauto].
  destruct (decide (b = 0)) as [->|]; [|tauto].
  destruct (decide (c = 0)) as [->|]; [|tauto].
  exfalso. apply Hne. reflexivity.
Qed.

(** The range test of a half-line at the point [point + t.vector]. *)
Lemma HalfLine_range_parameter (h : HalfLine.t) (t : R) (p : Point.t) :
  HalfLine.vector h <> Vector.mk 0 0 0 ->
  Point.x p = Point.x (HalfLine.point h) + t * Vector.x (HalfLine.vector h) ->
  Point.y p = Point.y (HalfLine.point h) + t * Vector.y (HalfLine.vector h) ->
  Point.z p = Point.z (HalfLine.point h) + t * Vector.z (HalfLine.vector h) ->
  HalfLine.isPointInRange h p = true <-> 0 < t.
Proof.
  intros Hne Hx Hy Hz. unfold HalfLine.isPointInRange.
  rewrite !andb_true_iff, !bool_decide_eq_true.
  replace (Point.x p - Point.x (HalfLine.point h)) with (t * Vector.x (HalfLine.vector h)) by lra.
  replace (Point.y p - Point.y (HalfLine.point h)) with (t * Vector.y (HalfLine.vector h)) by lra.
  replace (Point.z p - Point.z (HalfLine.point h)) with (t * Vector.z (HalfLine.vector h)) by lra.
  split.
  - intros [[Sx Sy] Sz].
    destruct (Rlt_le_dec 0 t) as [|Hle]; [assumption|]. exfalso.
    assert (Hcase : forall a, a <> 0 -> Math_sign a = Math_sign (t * a) -> False).
    { intros a Ha Hs. destruct (decide (t = 0)) as [->|Hnz].
      - replace (0 * a) with 0 in Hs by lra.
        apply Ha, Math_sign_zero. rewrite Hs. apply Math_sign_zero. reflexivity.
      - apply (Math_sign_negative_scale t a); [lra | assumption | congruence]. }
    destruct (nonzero_vector_component _ Hne) as [H | [H | H]]; eauto.
  - intros Ht. repeat split; symmetry; apply Math_sign_scale; assumption.
Qed.

(** X1: on its own line, the range test of a half-line with a non-zero
    vector accepts the point [point + t.vector] exactly when t > 0: the
    origin of the half-line itself is out of range.  With the zero vector,
    the only point in range is the origin. *)
Theorem HalfLine_range :
  (forall h t,
      HalfLine.vector h <> Vector.mk 0 0 0 ->
      HalfLine.isPointInRange h
        (Point.move (HalfLine.point h) (Vector.multiplication (HalfLine.vector h) t)) = true
      <-> 0 < t) /\
  (forall h p,
      HalfLine.vector h = Vector.mk 0 0 0 ->
      HalfLine.isPointInRange h p = true <-> p = HalfLine.point h).
Proof.
  split.
  - intros h t Hne. apply HalfLine_range_parameter; [assumption | simpl; ring ..].
  - intros h p Hz. unfold HalfLine.isPointInRange. rewrite Hz. simpl.
    rewrite !andb_true_iff, !bool_decide_eq_true.
    assert (H0 : Math_sign 0 = 0) by (apply Math_sign_zero; reflexivity).
    rewrite H0. split.
    + intros [[Hx Hy] Hzz]. symmetry in Hx, Hy, Hzz.
      apply (proj1 (Math_sign_zero _)) in Hx, Hy, Hzz.
      destruct p as [px py pz], (HalfLine.point h) as [ox oy oz]. simpl in *.
      f_equal; lra.
    + intros ->. replace (_ - _) with 0 by lra. replace (_ - _) with 0 by lra.
      replace (_ - _) with 0 by lra. rewrite H0. repeat split.
Qed.

Lemma HalfLine_range_witness :
  HalfLine.isPointInRange diagonalRay
    (Point.move (HalfLine.point diagonalRay)
                (Vector.multiplication (HalfLine.vector diagonalRay) 2)) = true.
Proof.
  apply (proj1 HalfLine_range diagonalRay 2).
  - simpl. intros [= H _ _]. lra.
  - lra.
Defined.

(** The intersection of a half-line with a plane, by the signs of the plane
    equation at the origin and of the denominator. *)
Lemma HalfLine_plane (point : Point.t) (vector : Vector.t) (plane : Plane.t) :
  let h := HalfLine.new point vector in
  let denominator :=
    Plane.a plane * Vector.x vector + Plane.b plane * Vector.y vector
    + Plane.c plane * Vector.z vector in
  (Plane.side plane point * denominator < 0 ->
   exists t p,
     0 < t /\ t * denominator = - Plane.side plane point /\
     HalfLine.getIntersectionWithPlane h plane = Found p /\
     p = Point.move point (Vector.multiplication vector t) /\
     Plane.side plane p = 0) /\
  (denominator <> 0 -> 0 <= Plane.side plane point * denominator ->
   HalfLine.getIntersectionWithPlane h plane = Null) /\
  (HalfLine.getIntersectionWithPlane h plane = NotFinite <-> denominator = 0).
Proof.
  intros h denominator.
  assert (Hline : forall Hd : denominator <> 0,
             getIntersectionFromLineAndPlane (HalfLine.line h) plane
             = Some (Point.move point
                       (Vector.multiplication vector (- Plane.side plane point / denominator)))).
  { intros Hd. unfold getIntersectionFromLineAndPlane. simpl. fold denominator.
    rewrite decide_False by assumption.
    unfold Point.move, Vector.multiplication, Plane.side. simpl. f_equal. f_equal; ring. }
  assert (Hvec : denominator <> 0 -> vector <> Vector.mk 0 0 0).
  { intros Hd ->. apply Hd. unfold denominator. simpl. ring. }
  assert (Hrange : forall t, denominator <> 0 ->
             HalfLine.isPointInRange h (Point.move point (Vector.multiplication vector t)) = true
             <-> 0 < t).
  { intros t Hd. apply HalfLine_range_parameter; [exact (Hvec Hd) | simpl; ring ..]. }
  split; [|split].
  - intros Hsign.
    assert (Hd : denominator <> 0) by (intros Hz; rewrite Hz in Hsign; lra).
    set (t := - Plane.side plane point / denominator).
    assert (Ht : t * denominator = - Plane.side plane point) by (unfold t; field; exact Hd).
    assert (Hpos : 0 < t).
    { destruct (Rlt_le_dec 0 t) as [|Hle]; [assumption|]. exfalso.
      assert (0 <= (- t) * (denominator * denominator)) by (apply Rmult_le_pos; nra).
      nra. }
    exists t, (Point.move point (Vector.multiplication vector t)).
    split; [exact Hpos|]. split; [exact Ht|].
    unfold HalfLine.getIntersectionWithPlane. rewrite (Hline Hd). fold t.
    rewrite (proj2 (Hrange t Hd) Hpos).
    split; [reflexivity|]. split; [reflexivity|].
    rewrite side_move. simpl. fold denominator.
    replace (Plane.a plane * (Vector.x vector * t) + Plane.b plane * (Vector.y vector * t)
             + Plane.c plane * (Vector.z vector * t)) with (t * denominator)
      by (unfold denominator; ring).
    lra.
  - intros Hd Hsign. unfold HalfLine.getIntersectionWithPlane.
    rewrite (Hline Hd).
    set (t := - Plane.side plane point / denominator).
    assert (Ht : t * denominator = - Plane.side plane point) by (unfold t; field; exact Hd).
    assert (Hnp : ~ 0 < t).
    { intros Hpos. assert (0 < t * (denominator * denominator)) by (apply Rmult_lt_0_compat; nra).
      nra. }
    destruct (HalfLine.isPointInRange h _) eqn:Hr; [|reflexivity].
    exfalso. apply Hnp. apply (Hrange t Hd). exact Hr.
  - unfold HalfLine.getIntersectionWithPlane.
    destruct (decide (denominator = 0)) as [Hz | Hd].
    + unfold getIntersectionFromLineAndPlane. simpl. fold denominator.
      rewrite decide_True by assumption. split; [intros _; exact Hz | reflexivity].
    + rewrite (Hline Hd).
      destruct (HalfLine.isPointInRange h _); split; try discriminate; contradiction.
Qed.

(** X2: the intersection of a half-line with a plane.  When the plane
    equation at the origin and the denominator (the normal of the plane
    times the vector) have opposite strict signs, the result is the point
    of the plane ahead of the origin.  When the half-line is not parallel to
    the plane and points away from it or starts on it, the result is null.
    The point handed to the sign test has coordinates that are not finite
    exactly when the half-line is parallel to the plane. *)
Theorem HalfLine_intersection (point : Point.t) (vector : Vector.t) (plane : Plane.t) :
  let h := HalfLine.new point vector in
  let denominator :=
    Plane.a plane * Vector.x vector + Plane.b plane * Vector.y vector
    + Plane.c plane * Vector.z vector in
  (Plane.side plane point * denominator < 0 ->
   exists t p,
     0 < t /\ t * denominator = - Plane.side plane point /\
     HalfLine.getIntersectionWithPlane h plane = Found p /\
     p = Point.move point (Vector.multiplication vector t) /\
     Plane.side plane p = 0) /\
  (denominator <> 0 -> 0 <= Plane.side plane point * denominator ->
   HalfLine.getIntersectionWithPlane h plane = Null) /\
  (HalfLine.getIntersectionWithPlane h plane = NotFinite <-> denominator = 0).
Proof. exact (HalfLine_plane point vector plane). Qed.

Lemma HalfLine_intersection_witness :
  HalfLine.getIntersectionWithPlane (HalfLine.new (Point.mk 0 0 0) (Vector.mk 0 1 0)) startPlane
  = Null.
Proof.
  apply (HalfLine_intersection (Point.mk 0 0 0) (Vector.mk 0 1 0) startPlane).
  - simpl. lra.
  - unfold Plane.side, Plane.eval. simpl. lra.
Defined.

(** ** Edge *)

(** X3: the range test of an Edge is the bounding box of its two vertices:
    it does not depend on the order of the vertices, it accepts every point
    between them, [vertex1 + t.(vertex2 - vertex1)] with 0 <= t <= 1, and
    for an edge with two equal endpoints it accepts that one point only. *)
Theorem Edge_range :
  (forall v1 v2 p,
      Edge.isPointInRange (Edge.new v1 v2) p = Edge.isPointInRange (Edge.new v2 v1) p) /\
  (forall e t,
      0 <= t <= 1 ->
      Edge.isPointInRange e
        (Point.mk (Vertex.x (Edge.vertex1 e)
                   + t * (Vertex.x (Edge.vertex2 e) - Vertex.x (Edge.vertex1 e)))
                  (Vertex.y (Edge.vertex1 e)
                   + t * (Vertex.y (Edge.vertex2 e) - Vertex.y (Edge.vertex1 e)))
                  (Vertex.z (Edge.vertex1 e)
                   + t * (Vertex.z (Edge.vertex2 e) - Vertex.z (Edge.vertex1 e)))) = true) /\
  (forall e p,
      Vertex.x (Edge.vertex1 e) = Vertex.x (Edge.vertex2 e) ->
      Vertex.y (Edge.vertex1 e) = Vertex.y (Edge.vertex2 e) ->
      Vertex.z (Edge.vertex1 e) = Vertex.z (Edge.vertex2 e) ->
      Edge.isPointInRange e p = true <->
      p = Point.mk (Vertex.x (Edge.vertex1 e)) (Vertex.y (Edge.vertex1 e))
                   (Vertex.z (Edge.vertex1 e))).
Proof.
  split; [|split].
  - intros v1 v2 p. unfold Edge.isPointInRange. simpl.
    rewrite (Rmin_comm (Vertex.x v1)), (Rmax_comm (Vertex.x v1)),
      (Rmin_comm (Vertex.y v1)), (Rmax_comm (Vertex.y v1)),
      (Rmin_comm (Vertex.z v1)), (Rmax_comm (Vertex.z v1)).
    reflexivity.
  - intros e t Ht. apply isPointInRange_true. simpl.
    repeat split; apply between_Rmin_Rmax; assumption.
  - intros e p Hx Hy Hz. rewrite isPointInRange_true. rewrite <- Hx, <- Hy, <- Hz.
    rewrite !Rmin_left, !Rmax_left by lra.
    destruct p as [px py pz]. simpl. split.
    + intros ([? ?] & [? ?] & [? ?]). f_equal; lra.
    + intros [= -> -> ->]. repeat split; lra.
Qed.

Lemma Edge_range_witness :
  Edge.isPointInRange crossingEdge (Point.mk (0 + 1 / 2 * (0 - 0))
                                             (-2 + 1 / 2 * (3 - -2))
                                             (0 + 1 / 2 * (0 - 0))) = true.
Proof.
  apply (proj1 (proj2 Edge_range) crossingEdge (1 / 2)). lra.
Defined.

Lemma setVertexInFrontOfCamera_wf (e : Edge.t) (plane : Plane.t) :
  Edge.wf e -> Edge.wf (snd (Edge.setVertexInFrontOfCamera e plane)).
Proof.
  intros (H1 & H2 & _). rewrite setVertexInFrontOfCamera_returned.
  apply Edge_new_wf.
  - unfold Edge.setVertexInFrontOfCamera. simpl.
    destruct (Edge.getIntersectionWithPlane e plane); [|exact H1].
    destruct (Plane.isPointInFrontOf plane _); [exact H1 | reflexivity].
  - unfold Edge.setVertexInFrontOfCamera. simpl.
    destruct (Edge.getIntersectionWithPlane e plane); [|exact H2].
    destruct (Plane.isPointInFrontOf plane _); [reflexivity | exact H2].
Qed.

(** An edge with both endpoints in front of the plane is returned as it
    is. *)
Lemma clip_in_front (e : Edge.t) (plane : Plane.t) :
  Edge.wf e ->
  0 < Plane.side plane (Vertex.point (Edge.vertex1 e)) ->
  0 < Plane.side plane (Vertex.point (Edge.vertex2 e)) ->
  Edge.setVertexInFrontOfCamera e plane = (e, e).
Proof.
  intros Hwf H1 H2. rewrite setVertexInFrontOfCamera_none.
  - rewrite (Edge_wf_new e Hwf). reflexivity.
  - apply same_side_no_intersection; [assumption | nra].
Qed.

(** X4: clipping is idempotent when no endpoint lies on the plane: for an
    edge built by the constructor whose endpoints are both off the plane,
    clipping the returned edge again changes nothing and returns it. *)
Theorem clip_idempotent (e : Edge.t) (plane : Plane.t) :
  Edge.wf e ->
  Plane.side plane (Vertex.point (Edge.vertex1 e)) <> 0 ->
  Plane.side plane (Vertex.point (Edge.vertex2 e)) <> 0 ->
  let r := snd (Edge.setVertexInFrontOfCamera e plane) in
  Edge.setVertexInFrontOfCamera r plane = (r, r).
Proof.
  intros Hwf N1 N2 r.
  pose proof (setVertexInFrontOfCamera_wf e plane Hwf) as Hr. fold r in Hr.
  set (f1 := Plane.side plane (Vertex.point (Edge.vertex1 e))) in *.
  set (f2 := Plane.side plane (Vertex.point (Edge.vertex2 e))) in *.
  destruct (Rlt_le_dec 0 f1) as [P1 | Q1]; destruct (Rlt_le_dec 0 f2) as [P2 | Q2].
  - assert (E : r = e) by (unfold r; rewrite (clip_in_front e plane Hwf P1 P2); reflexivity).
    rewrite E. apply clip_in_front; assumption.
  - destruct (clip_front_to_back e plane Hwf P1 Q2) as (I & _ & _ & _ & Hnew & Hfst).
    apply clip_in_front; [exact Hr | |];
      unfold r; rewrite setVertexInFrontOfCamera_returned, Hfst; simpl.
    + exact P1.
    + exact Hnew.
  - assert (Q1' : f1 < 0) by lra.
    destruct (clip_back_to_front e plane Hwf Q1' (Rlt_le _ _ P2)) as (I & _ & _ & _ & Hnew & Hfst).
    apply clip_in_front; [exact Hr | |];
      unfold r; rewrite setVertexInFrontOfCamera_returned, Hfst; simpl.
    + exact Hnew.
    + exact P2.
  - assert (Hnone : Edge.getIntersectionWithPlane e plane = None).
    { apply same_side_no_intersection; [assumption|]. fold f1 f2. nra. }
    assert (E : r = e).
    { unfold r. rewrite (setVertexInFrontOfCamera_none e plane Hnone). simpl.
      apply Edge_wf_new, Hwf. }
    rewrite E. rewrite (setVertexInFrontOfCamera_none e plane Hnone).
    rewrite (Edge_wf_new e Hwf). reflexivity.
Qed.

Lemma clip_idempotent_witness :
  Edge.setVertexInFrontOfCamera (snd (Edge.setVertexInFrontOfCamera crossingEdge startPlane))
                                startPlane
  = (snd (Edge.setVertexInFrontOfCamera crossingEdge startPlane),
     snd (Edge.setVertexInFrontOfCamera crossingEdge startPlane)).
Proof.
  destruct crossingEdge_sides as (Hwf & H1 & H2).
  apply (clip_idempotent crossingEdge startPlane Hwf); lra.
Defined.

(** ** Face *)

(** X5: the plane of a Face built by the constructor goes through its three
    vertices, and its normal vector is orthogonal to the two edge vectors;
    when the normal vector is not zero, [isPointOnFace] accepts the three
    vertices. *)
Theorem Face_plane (v1 v2 v3 : Vertex.t) (color : option Color) (roughness : option R) :
  let f := Face.new v1 v2 v3 color roughness in
  Plane.side (Face.plane f) (Vertex.point v1) = 0 /\
  Plane.side (Face.plane f) (Vertex.point v2) = 0 /\
  Plane.side (Face.plane f) (Vertex.point v3) = 0 /\
  getInnerProduct (Face.normalVector f) (Face.vector1 f) = 0 /\
  getInnerProduct (Face.normalVector f) (Face.vector2 f) = 0 /\
  (Face.normalVector f <> Vector.mk 0 0 0 ->
   Face.isPointOnFace f (Vertex.point v1) = true /\
   Face.isPointOnFace f (Vertex.point v2) = true /\
   Face.isPointOnFace f (Vertex.point v3) = true).
Proof.
  intros f. subst f.
  split; [unfold Plane.side, Plane.eval; simpl; ring|].
  split; [unfold Plane.side, Plane.eval; simpl; ring|].
  split; [unfold Plane.side, Plane.eval; simpl; ring|].
  split; [unfold getInnerProduct; simpl; ring|].
  split; [unfold getInnerProduct; simpl; ring|].
  intros Hn. split; [|split].
  - apply (isPointOnFace_coefficients _ _ 0 0); [exact Hn | simpl; ring .. |].
    repeat split; lra.
  - apply (isPointOnFace_coefficients _ _ 1 0); [exact Hn | simpl; ring .. |].
    repeat split; lra.
  - apply (isPointOnFace_coefficients _ _ 0 1); [exact Hn | simpl; ring .. |].
    repeat split; lra.
Qed.

Lemma Face_plane_witness :
  Face.isPointOnFace slantFace (Point.mk 3 0 0) = true /\
  Face.isPointOnFace slantFace (Point.mk 0 3 0) = true /\
  Face.isPointOnFace slantFace (Point.mk 0 0 3) = true.
Proof.
  apply (Face_plane (Vertex.new 3 0 0 None) (Vertex.new 0 3 0 None) (Vertex.new 0 0 3 None)
                    None None).
  simpl. intros [= H _ _]. lra.
Defined.

(** X6: [getClone] of a Face does not keep the roughness: the clone has the
    colour of the face and no roughness, and for a face built by the
    constructor on constructed vertices it is that face without its
    roughness. *)
Theorem Face_getClone_roughness :
  (forall f,
      Face.roughness (Face.getClone f) = None /\
      Face.color (Face.getClone f) = Face.color f /\
      Face.wf (Face.getClone f)) /\
  (forall v1 v2 v3 color roughness,
      Vertex.inv v1 -> Vertex.inv v2 -> Vertex.inv v3 ->
      Face.getClone (Face.new v1 v2 v3 color roughness) = Face.new v1 v2 v3 color None).
Proof.
  split.
  - intros f. repeat split.
  - intros v1 v2 v3 color roughness H1 H2 H3. unfold Face.getClone. simpl.
    rewrite !Vertex_getClone_eq by assumption. reflexivity.
Qed.

Lemma Face_getClone_roughness_witness :
  Face.getClone (Face.new cubeVertex1 cubeVertex2 aheadVertex None (Some 1))
  = Face.new cubeVertex1 cubeVertex2 aheadVertex None None.
Proof.
  apply (proj2 Face_getClone_roughness); reflexivity.
Defined.

(** ** Light *)

Lemma getLengthFrom2Points_same (p : Point.t) : getLengthFrom2Points p p = 0.
Proof.
  unfold getLengthFrom2Points, getVectorFrom2Points, Vector.length. simpl.
  replace (_ + _ + _) with 0 by ring. apply sqrt_0.
Qed.

Lemma getLengthFrom2Points_nonneg (p q : Point.t) : 0 <= getLengthFrom2Points p q.
Proof. unfold getLengthFrom2Points, Vector.length. apply sqrt_pos. Qed.

(** X7: the brightness of a light of positive power at a distance
    [length >= 0] is a number of the interval (0, 1]; it is 1 exactly at
    distance 0, so at the position of the light, and it decreases strictly
    as the distance grows.  For any power, there is no brightness when
    [length + power] is zero. *)
Theorem Light_brightness (light : Light.t) :
  (0 < Light.power light ->
   (forall length,
       0 <= length ->
       exists b,
         Light.getBrightness light length = Some b /\
         0 < b <= 1 /\ (b = 1 <-> length = 0)) /\
   (forall length1 length2 b1 b2,
       0 <= length1 < length2 ->
       Light.getBrightness light length1 = Some b1 ->
       Light.getBrightness light length2 = Some b2 ->
       b2 < b1) /\
   (forall point,
       exists b,
         Light.getBrightnessFromPoint light point = Some b /\ 0 < b <= 1) /\
   Light.getBrightnessFromPoint light (Light.pos light) = Some 1) /\
  (forall length, length + Light.power light = 0 -> Light.getBrightness light length = None).
Proof.
  split.
  - intros Hp.
    assert (Hval : forall length,
               0 <= length ->
               Light.getBrightness light length
               = Some (Light.power light ^ 2 / (length + Light.power light) ^ 2) /\
               0 < (length + Light.power light) ^ 2).
    { intros length Hl. assert (0 < (length + Light.power light) ^ 2) by nra.
      unfold Light.getBrightness. rewrite decide_False by lra. split; [reflexivity | assumption]. }
    assert (Hone : forall length,
               0 <= length ->
               exists b,
                 Light.getBrightness light length = Some b /\
                 0 < b <= 1 /\ (b = 1 <-> length = 0)).
    { intros length Hl. destruct (Hval length Hl) as [-> Hden].
      eexists. split; [reflexivity|].
      set (D := (length + Light.power light) ^ 2) in *.
      assert (HP : 0 < Light.power light ^ 2) by nra.
      assert (Hle : Light.power light ^ 2 <= D) by (unfold D; nra).
      split; [split|].
      - apply Rdiv_lt_0_compat; assumption.
      - apply (Rmult_le_reg_r D); [assumption|].
        replace (Light.power light ^ 2 / D * D) with (Light.power light ^ 2) by (field; lra).
        lra.
      - split.
        + intros Hb.
          assert (Light.power light ^ 2 = D).
          { replace (Light.power light ^ 2) with (Light.power light ^ 2 / D * D) by (field; lra).
            rewrite Hb. ring. }
          unfold D in *. nra.
        + intros ->. unfold D. field. lra. }
    split; [exact Hone|]. split; [|split].
    + intros length1 length2 b1 b2 [H0 Hlt] E1 E2.
      destruct (Hval length1 H0) as [E1' D1]. rewrite E1' in E1. injection E1 as <-.
      destruct (Hval length2 ltac:(lra)) as [E2' D2]. rewrite E2' in E2. injection E2 as <-.
      assert (HP : 0 < Light.power light ^ 2) by nra.
      unfold Rdiv. apply Rmult_lt_compat_l; [assumption|].
      apply Rinv_lt_contravar; [nra | nra].
    + intros point. unfold Light.getBrightnessFromPoint.
      destruct (Hone _ (getLengthFrom2Points_nonneg (Light.pos light) point)) as (b & Hb & Hr & _).
      exists b. split; assumption.
    + unfold Light.getBrightnessFromPoint. rewrite getLengthFrom2Points_same.
      destruct (Hone 0 ltac:(lra)) as (b & Hb & _ & Hiff).
      rewrite Hb. f_equal. apply Hiff. reflexivity.
  - intros length Hz. unfold Light.getBrightness. rewrite Hz.
    rewrite decide_True by ring. reflexivity.
Qed.

Lemma Light_brightness_witness :
  Light.getBrightnessFromPoint (Light.mk (Point.mk 1 2 3) 5 []) (Point.mk 1 2 3) = Some 1 /\
  Light.getBrightness (Light.mk (Point.mk 1 2 3) 5 []) (-5) = None.
Proof.
  split.
  - apply (proj1 (Light_brightness (Light.mk (Point.mk 1 2 3) 5 []))). simpl. lra.
  - apply (proj2 (Light_brightness (Light.mk (Point.mk 1 2 3) 5 []))). simpl. lra.
Defined.

(** ** Segments, rays and triangles *)

Lemma Point_eq (p q : Point.t) :
  Point.x p = Point.x q -> Point.y p = Point.y q -> Point.z p = Point.z q -> p = q.
Proof. destruct p, q. simpl. intros -> -> ->. reflexivity. Qed.

Lemma Point_eta (p : Point.t) : Point.mk (Point.x p) (Point.y p) (Point.z p) = p.
Proof. destruct p. reflexivity. Qed.

(** The points [a + s.(b - a) + t.(c - a)] are the points of the plane of
    the face made from [a], [b] and [c]. *)
Lemma triangle_point_side (a b c q : Point.t) (s t : R) :
  Point.x q = Point.x a + s * (Point.x b - Point.x a) + t * (Point.x c - Point.x a) ->
  Point.y q = Point.y a + s * (Point.y b - Point.y a) + t * (Point.y c - Point.y a) ->
  Point.z q = Point.z a + s * (Point.z b - Point.z a) + t * (Point.z c - Point.z a) ->
  Plane.side (Face.plane (getFaceFrom3Points a b c)) q = 0.
Proof.
  intros Hx Hy Hz. unfold Plane.side, Plane.eval. simpl. rewrite Hx, Hy, Hz. ring.
Qed.

Lemma triangle_plane_point (a b c q : Point.t) :
  Face.normalVector (getFaceFrom3Points a b c) <> Vector.mk 0 0 0 ->
  Plane.side (Face.plane (getFaceFrom3Points a b c)) q = 0 ->
  exists s t,
    Point.x q = Point.x a + s * (Point.x b - Point.x a) + t * (Point.x c - Point.x a) /\
    Point.y q = Point.y a + s * (Point.y b - Point.y a) + t * (Point.y c - Point.y a) /\
    Point.z q = Point.z a + s * (Point.z b - Point.z a) + t * (Point.z c - Point.z a).
Proof.
  intros Hn Hs.
  destruct (point_of_face_plane (getFaceFrom3Points a b c) q (Face_new_wf _ _ _ _ _) Hn Hs)
    as (s & t & Hx & Hy & Hz).
  exists s, t. simpl in Hx, Hy, Hz. repeat split; assumption.
Qed.

Lemma triangle_accepts (a b c q : Point.t) (s t : R) :
  Face.normalVector (getFaceFrom3Points a b c) <> Vector.mk 0 0 0 ->
  Point.x q = Point.x a + s * (Point.x b - Point.x a) + t * (Point.x c - Point.x a) ->
  Point.y q = Point.y a + s * (Point.y b - Point.y a) + t * (Point.y c - Point.y a) ->
  Point.z q = Point.z a + s * (Point.z b - Point.z a) + t * (Point.z c - Point.z a) ->
  Face.isPointOnFace (getFaceFrom3Points a b c) q = true <-> (s >= 0 /\ t >= 0 /\ s + t <= 1).
Proof.
  intros Hn Hx Hy Hz.
  apply isPointOnFace_coefficients; [exact Hn | simpl; assumption ..].
Qed.

(** X8: the intersection of the segment from [p1] to [p2] with the
    triangle [a], [b], [c], for a triangle that is not degenerate.  A point
    returned by [getIntersectionEdgeOrHalfLineAndFace] for the edge and the
    face made from these points lies on the segment, [p1 + u.(p2 - p1)] with
    0 <= u <= 1, and in the triangle, [a + s.(b - a) + t.(c - a)] with
    s >= 0, t >= 0 and s + t <= 1.  Conversely, when the segment is not
    parallel to the plane of the triangle, every such common point is
    returned. *)
Theorem segment_triangle (p1 p2 a b c : Point.t) :
  let segment := AnEdge (getEdgeFromPoints p1 p2) in
  let face := getFaceFrom3Points a b c in
  let along (u : R) :=
    Point.mk (Point.x p1 + u * (Point.x p2 - Point.x p1))
             (Point.y p1 + u * (Point.y p2 - Point.y p1))
             (Point.z p1 + u * (Point.z p2 - Point.z p1)) in
  let inside (s t : R) :=
    Point.mk (Point.x a + s * (Point.x b - Point.x a) + t * (Point.x c - Point.x a))
             (Point.y a + s * (Point.y b - Point.y a) + t * (Point.y c - Point.y a))
             (Point.z a + s * (Point.z b - Point.z a) + t * (Point.z c - Point.z a)) in
  Face.normalVector face <> Vector.mk 0 0 0 ->
  (forall q,
      getIntersectionEdgeOrHalfLineAndFace segment face = Some q ->
      exists u s t,
        0 <= u <= 1 /\ 0 <= s /\ 0 <= t /\ s + t <= 1 /\ q = along u /\ q = inside s t) /\
  (forall u s t,
      0 <= u <= 1 -> 0 <= s -> 0 <= t -> s + t <= 1 ->
      getInnerProduct (Face.normalVector face) (getVectorFrom2Points p1 p2) <> 0 ->
      along u = inside s t ->
      getIntersectionEdgeOrHalfLineAndFace segment face = Some (along u)).
Proof.
  intros segment face along inside Hn.
  set (e := getEdgeFromPoints p1 p2).
  assert (Hwf : Edge.wf e) by (apply Edge_new_wf; reflexivity).
  set (f1 := Plane.side (Face.plane face) (Vertex.point (Edge.vertex1 e))).
  set (f2 := Plane.side (Face.plane face) (Vertex.point (Edge.vertex2 e))).
  split.
  - intros q H. apply getIntersectionEdgeOrHalfLineAndFace_some in H as [Hpl Hon].
    apply AnEdge_getIntersectionWithPlane in Hpl. fold e in Hpl.
    unfold Edge.getIntersectionWithPlane in Hpl.
    destruct (getIntersectionFromLineAndPlane (Edge.line e) (Face.plane face)) as [I|] eqn:HI;
      [|discriminate].
    destruct (Edge.isPointInRange e I) eqn:HR; [|discriminate].
    injection Hpl as ->.
    destruct (decide (f1 = f2)) as [Heq | Hne].
    { rewrite (parallel_no_intersection e (Face.plane face) Hwf Heq) in HI. discriminate. }
    destruct (crossing_intersection e (Face.plane face) Hwf Hne)
      as (u & I' & Hu & HI' & Hx & Hy & Hz).
    rewrite HI in HI'. injection HI' as <-. simpl in Hx, Hy, Hz.
    assert (Hur : 0 <= u <= 1).
    { destruct (Rlt_le_dec u 0) as [Hlt|H0].
      { rewrite (crossing_out_of_range e (Face.plane face) Hwf u q (or_introl Hlt) Hne) in HR;
          [discriminate | simpl; assumption ..]. }
      destruct (Rlt_le_dec 1 u) as [Hgt|H1]; [|split; assumption].
      rewrite (crossing_out_of_range e (Face.plane face) Hwf u q (or_intror Hgt) Hne) in HR;
        [discriminate | simpl; assumption ..]. }
    pose proof (intersection_on_plane _ _ _ HI) as Hside.
    destruct (triangle_plane_point a b c q Hn Hside) as (s & t & Sx & Sy & Sz).
    apply (triangle_accepts a b c q s t Hn Sx Sy Sz) in Hon as (Hs & Ht & Hst).
    exists u, s, t. split; [exact Hur|]. split; [lra|]. split; [lra|]. split; [exact Hst|].
    split; apply Point_eq; simpl; assumption.
  - intros u s t Hu Hs Ht Hst Hden Heq.
    assert (Hside : Plane.side (Face.plane face) (along u) = 0).
    { rewrite Heq. apply (triangle_point_side a b c _ s t); reflexivity. }
    assert (Hf : Plane.side (Face.plane face) (along u) = f1 + u * (f2 - f1)).
    { unfold f1, f2, Plane.side, Plane.eval. simpl. ring. }
    assert (Hd : f2 - f1
                 = getInnerProduct (Face.normalVector face) (getVectorFrom2Points p1 p2)).
    { unfold f1, f2, Plane.side, Plane.eval, getInnerProduct. simpl. ring. }
    assert (Hne : f1 <> f2) by lra.
    destruct (crossing_intersection e (Face.plane face) Hwf Hne)
      as (u' & I & Hu' & HI & Hx & Hy & Hz).
    fold f1 f2 in Hu'. simpl in Hx, Hy, Hz.
    assert (Huu : u' = u).
    { apply (Rmult_eq_reg_r (f2 - f1)); lra. }
    subst u'.
    assert (EI : I = along u) by (apply Point_eq; simpl; assumption).
    subst I.
    apply getIntersectionEdgeOrHalfLineAndFace_some. split.
    + apply AnEdge_getIntersectionWithPlane. fold e.
      unfold Edge.getIntersectionWithPlane. rewrite HI.
      rewrite (crossing_in_range e Hwf u (along u) Hu); reflexivity.
    + injection Heq as Ex Ey Ez.
      apply (triangle_accepts a b c (along u) s t Hn); [simpl; assumption .. |].
      repeat split; lra.
Qed.

Lemma segment_triangle_witness :
  getIntersectionEdgeOrHalfLineAndFace
    (AnEdge (getEdgeFromPoints (Point.mk 0 0 0) (Point.mk 2 2 2)))
    (getFaceFrom3Points (Point.mk 3 0 0) (Point.mk 0 3 0) (Point.mk 0 0 3))
  = Some (Point.mk (0 + 1 / 2 * (2 - 0)) (0 + 1 / 2 * (2 - 0)) (0 + 1 / 2 * (2 - 0))).
Proof.
  apply (proj2 (segment_triangle (Point.mk 0 0 0) (Point.mk 2 2 2)
                  (Point.mk 3 0 0) (Point.mk 0 3 0) (Point.mk 0 0 3)
                  ltac:(simpl; intros [= H _ _]; lra))
               (1 / 2) (1 / 3) (1 / 3)); try lra.
  - unfold getInnerProduct. simpl. lra.
  - simpl. f_equal; lra.
Defined.

(** X9: the intersection of the half-line from [o] along [v] with the
    triangle [a], [b], [c], for a triangle that is not degenerate.  A point
    returned by [getIntersectionEdgeOrHalfLineAndFace] is [o + u.v] with
    u > 0 and lies in the triangle; conversely, when the half-line is not
    parallel to the plane of the triangle, every point [o + u.v] with u > 0
    that lies in the triangle is returned.  The origin of the half-line is
    never returned. *)
Theorem ray_triangle (o : Point.t) (v : Vector.t) (a b c : Point.t) :
  let ray := AHalfLine (HalfLine.new o v) in
  let face := getFaceFrom3Points a b c in
  let along (u : R) :=
    Point.mk (Point.x o + u * Vector.x v) (Point.y o + u * Vector.y v)
             (Point.z o + u * Vector.z v) in
  let inside (s t : R) :=
    Point.mk (Point.x a + s * (Point.x b - Point.x a) + t * (Point.x c - Point.x a))
             (Point.y a + s * (Point.y b - Point.y a) + t * (Point.y c - Point.y a))
             (Point.z a + s * (Point.z b - Point.z a) + t * (Point.z c - Point.z a)) in
  Face.normalVector face <> Vector.mk 0 0 0 ->
  (forall q,
      getIntersectionEdgeOrHalfLineAndFace ray face = Some q ->
      exists u s t,
        0 < u /\ 0 <= s /\ 0 <= t /\ s + t <= 1 /\ q = along u /\ q = inside s t) /\
  (forall u s t,
      0 < u -> 0 <= s -> 0 <= t -> s + t <= 1 ->
      getInnerProduct (Face.normalVector face) v <> 0 ->
      along u = inside s t ->
      getIntersectionEdgeOrHalfLineAndFace ray face = Some (along u)).
Proof.
  intros ray face along inside Hn.
  set (den := Plane.a (Face.plane face) * Vector.x v + Plane.b (Face.plane face) * Vector.y v
              + Plane.c (Face.plane face) * Vector.z v).
  set (f0 := Plane.side (Face.plane face) o).
  destruct (HalfLine_plane o v (Face.plane face)) as (Hhit & Hmiss & Hparallel).
  fold den f0 in Hhit, Hmiss, Hparallel.
  split.
  - intros q H. apply getIntersectionEdgeOrHalfLineAndFace_some in H as [Hpl Hon].
    change (HalfLine.getIntersectionWithPlane (HalfLine.new o v) (Face.plane face) = Found q)
      in Hpl.
    destruct (decide (den = 0)) as [Hz | Hnz].
    { rewrite (proj2 Hparallel Hz) in Hpl. discriminate. }
    destruct (Rlt_le_dec (f0 * den) 0) as [Hlt | Hge].
    2: { rewrite (Hmiss Hnz Hge) in Hpl. discriminate. }
    destruct (Hhit Hlt) as (u & p & Hu & _ & Hp & Hmove & Hside).
    rewrite Hpl in Hp. injection Hp as <-.
    destruct (triangle_plane_point a b c q Hn Hside) as (s & t & Sx & Sy & Sz).
    apply (triangle_accepts a b c q s t Hn Sx Sy Sz) in Hon as (Hs & Ht & Hst).
    exists u, s, t. split; [exact Hu|]. split; [lra|]. split; [lra|]. split; [exact Hst|].
    split; apply Point_eq; simpl; try assumption; rewrite Hmove; simpl; ring.
  - intros u s t Hu Hs Ht Hst Hden Heq.
    assert (Hside : Plane.side (Face.plane face) (along u) = 0).
    { rewrite Heq. apply (triangle_point_side a b c _ s t); reflexivity. }
    assert (Hf : Plane.side (Face.plane face) (along u) = f0 + u * den).
    { unfold f0, den, Plane.side, Plane.eval. simpl. ring. }
    assert (Hd : den = getInnerProduct (Face.normalVector face) v).
    { unfold den, getInnerProduct. simpl. ring. }
    assert (Hlt : f0 * den < 0).
    { assert (0 < den * den) by nra. nra. }
    destruct (Hhit Hlt) as (u' & p & _ & Hu' & Hp & Hmove & _).
    assert (Huu : u' = u) by (apply (Rmult_eq_reg_r den); lra).
    subst u'.
    assert (EI : p = along u) by (rewrite Hmove; apply Point_eq; simpl; ring).
    rewrite EI in Hp.
    apply getIntersectionEdgeOrHalfLineAndFace_some. split.
    + exact Hp.
    + injection Heq as Ex Ey Ez.
      apply (triangle_accepts a b c (along u) s t Hn); [simpl; assumption .. |].
      repeat split; lra.
Qed.

Lemma ray_triangle_witness :
  getIntersectionEdgeOrHalfLineAndFace
    (AHalfLine (HalfLine.new (Point.mk 0 0 0) (Vector.mk 1 1 1)))
    (getFaceFrom3Points (Point.mk 3 0 0) (Point.mk 0 3 0) (Point.mk 0 0 3))
  = Some (Point.mk (0 + 1 * 1) (0 + 1 * 1) (0 + 1 * 1)).
Proof.
  apply (proj2 (ray_triangle (Point.mk 0 0 0) (Vector.mk 1 1 1)
                  (Point.mk 3 0 0) (Point.mk 0 3 0) (Point.mk 0 0 3)
                  ltac:(simpl; intros [= H _ _]; lra))
               1 (1 / 3) (1 / 3)); try lra.
  - unfold getInnerProduct. simpl. lra.
  - simpl. f_equal; lra.
Defined.

(** * Further properties of the cameras *)

(** ** The clone of an edge *)

(** An edge built by the constructor is equal to its clone. *)
Lemma Edge_getClone_wf (e : Edge.t) : Edge.wf e -> Edge.getClone e = e.
Proof.
  intros Hwf. unfold Edge.getClone.
  rewrite !Vertex_getClone_eq by apply Hwf. apply Edge_wf_new, Hwf.
Qed.

(** ** getConvertedVertex *)

Lemma sin_cos_deg (theta : R) : sin_deg theta * sin_deg theta + cos_deg theta * cos_deg theta = 1.
Proof. unfold sin_deg, cos_deg. apply (sin2_cos2 (theta * PI / 180)). Qed.

(** The two planar rotations of [getConvertedVertex] keep the sum of the
    products of the coordinates. *)
Lemma rotations_inner (sz cz sx cx x y z x' y' z' : R) :
  sz * sz + cz * cz = 1 -> sx * sx + cx * cx = 1 ->
  (cz * x - sz * y) * (cz * x' - sz * y')
  + (cx * (sz * x + cz * y) - sx * z) * (cx * (sz * x' + cz * y') - sx * z')
  + (sx * (sz * x + cz * y) + cx * z) * (sx * (sz * x' + cz * y') + cx * z')
  = x * x' + y * y' + z * z'.
Proof.
  intros Hz Hx.
  transitivity ((cz * x - sz * y) * (cz * x' - sz * y')
                + (sx * sx + cx * cx) * ((sz * x + cz * y) * (sz * x' + cz * y') + z * z'));
    [ring|].
  rewrite Hx.
  transitivity ((sz * sz + cz * cz) * (x * x' + y * y') + z * z'); [ring|].
  rewrite Hz. ring.
Qed.

(** X12: [getConvertedVertex] is a rigid motion about the position of the
    camera: it keeps the distance of any two vertices, keeps [i], leaves a
    vertex at the position of the camera where it is, and with
    [rx = rz = 0] leaves every vertex where it is.  The methods of main.js
    and of camera.js agree on a vertex whose fields are the coordinates of
    its point. *)
Theorem getConvertedVertex_rigid (this : Camera.t) :
  (forall v w,
      getLengthFrom2Points (Vertex.point (Camera.getConvertedVertex this v))
                           (Vertex.point (Camera.getConvertedVertex this w))
      = getLengthFrom2Points (Vertex.point v) (Vertex.point w)) /\
  (forall v,
      Vertex.i (Camera.getConvertedVertex this v) = Vertex.i v /\
      Vertex.inv (Camera.getConvertedVertex this v)) /\
  (forall v,
      Vertex.point v = Camera.pos this ->
      Vertex.point (Camera.getConvertedVertex this v) = Camera.pos this) /\
  (forall v,
      Camera.rx this = 0 -> Camera.rz this = 0 -> Vertex.inv v ->
      Camera.getConvertedVertex this v = v) /\
  (forall (main : MainCamera.t) v,
      MainCamera.pos main = Camera.pos this ->
      MainCamera.rx main = Camera.rx this ->
      MainCamera.rz main = Camera.rz this ->
      Vertex.inv v ->
      MainCamera.getConvertedVertex main v = Camera.getConvertedVertex this v).
Proof.
  pose proof (sin_cos_deg (Camera.rz this)) as Hz.
  pose proof (sin_cos_deg (- Camera.rx this)) as Hx.
  split; [|split; [|split; [|split]]].
  - intros v w. unfold getLengthFrom2Points, Vector.length. f_equal.
    unfold Camera.getConvertedVertex. simpl.
    set (sz := sin_deg (Camera.rz this)) in *. set (cz := cos_deg (Camera.rz this)) in *.
    set (sx := sin_deg (- Camera.rx this)) in *. set (cx := cos_deg (- Camera.rx this)) in *.
    set (p := Camera.pos this).
    rewrite <- (rotations_inner sz cz sx cx
                  (Point.x (Vertex.point w) - Point.x (Vertex.point v))
                  (Point.y (Vertex.point w) - Point.y (Vertex.point v))
                  (Point.z (Vertex.point w) - Point.z (Vertex.point v))
                  (Point.x (Vertex.point w) - Point.x (Vertex.point v))
                  (Point.y (Vertex.point w) - Point.y (Vertex.point v))
                  (Point.z (Vertex.point w) - Point.z (Vertex.point v)) Hz Hx).
    ring.
  - intros v. split; reflexivity.
  - intros v Hv. unfold Camera.getConvertedVertex. rewrite Hv.
    apply Point_eq; simpl; ring.
  - intros v Hrx Hrz Hinv. unfold Camera.getConvertedVertex. rewrite Hrx, Hrz.
    replace (- 0) with 0 by ring. rewrite sin_deg_0, cos_deg_0.
    destruct v as [x y z i p]. unfold Vertex.inv in Hinv. simpl in *. subst p. simpl.
    unfold Vertex.new. f_equal; [ring | ring | ring | f_equal; ring].
  - intros main v Hp Hrx Hrz Hinv.
    unfold MainCamera.getConvertedVertex, Camera.getConvertedVertex.
    rewrite Hp, Hrx, Hrz. unfold Vertex.inv in Hinv. rewrite Hinv. reflexivity.
Qed.

Lemma getConvertedVertex_rigid_witness :
  Camera.getConvertedVertex scenarioCamera aheadVertex = aheadVertex.
Proof.
  apply (proj1 (proj2 (proj2 (proj2 (getConvertedVertex_rigid scenarioCamera))))
           aheadVertex); reflexivity.
Defined.

(** ** move *)

Lemma held_empty (k : string) : held ∅ k = false.
Proof. unfold held. rewrite lookup_empty. reflexivity. Qed.

Lemma Camera_set_pose_same (this : Camera.t) (p : Point.t) (rx rz : R) :
  p = Camera.pos this -> rx = Camera.rx this -> rz = Camera.rz this ->
  Camera.set_pose this p rx rz = this.
Proof. intros -> -> ->. destruct this. reflexivity. Qed.

Lemma MainCamera_set_pose_same (this : MainCamera.t) (p : Point.t) (rx rz : R) :
  p = MainCamera.pos this -> rx = MainCamera.rx this -> rz = MainCamera.rz this ->
  MainCamera.set_pose this p rx rz = this.
Proof. intros -> -> ->. destruct this. reflexivity. Qed.

(** X13: [move] of both cameras.  With no key in the map the camera stays
    as it is: a key that was never pressed counts as released.  When the
    two keys of each opposite pair ("a"/"d", "w"/"s", " "/"Shift",
    "ArrowLeft"/"ArrowRight", "ArrowUp"/"ArrowDown") are in the same state,
    their effects cancel and the camera stays as it is.  With "w" alone
    among the keys of translation, the camera of camera.js moves by the
    distance |speed / fps|. *)
Theorem move_keys :
  (forall this, Camera.move this ∅ = this) /\
  (forall this key,
      Camera.fps this <> 0 ->
      held key "a" = held key "d" -> held key "w" = held key "s" ->
      held key " " = held key "Shift" ->
      held key "ArrowLeft" = held key "ArrowRight" ->
      held key "ArrowUp" = held key "ArrowDown" ->
      Camera.move this key = this) /\
  (forall this key,
      Camera.fps this <> 0 ->
      held key "a" = false -> held key "d" = false -> held key "s" = false ->
      held key " " = false -> held key "Shift" = false ->
      held key "w" = true ->
      getLengthFrom2Points (Camera.pos this) (Camera.pos (Camera.move this key))
      = Rabs (Camera.speed this / Camera.fps this)) /\
  (forall this, MainCamera.move this ∅ = this) /\
  (forall this key,
      held key "a" = held key "d" -> held key "w" = held key "s" ->
      held key " " = held key "Shift" ->
      held key "ArrowLeft" = held key "ArrowRight" ->
      held key "ArrowUp" = held key "ArrowDown" ->
      MainCamera.move this key = this).
Proof.
  split; [|split; [|split; [|split]]].
  - intros this. unfold Camera.move. rewrite !held_empty.
    apply Camera_set_pose_same; reflexivity.
  - intros this key _ H1 H2 H3 H4 H5. unfold Camera.move.
    rewrite H1, H2, H3, H4, H5.
    destruct (held key "d"), (held key "s"), (held key "Shift"), (held key "ArrowRight"),
      (held key "ArrowDown");
      (apply Camera_set_pose_same; [apply Point_eq; simpl; ring | ring | ring]).
  - intros this key _ Ha Hd Hs Hsp Hsh Hw. unfold Camera.move.
    rewrite Ha, Hd, Hs, Hsp, Hsh, Hw.
    set (v := Camera.speed this / Camera.fps this).
    unfold getLengthFrom2Points, Vector.length. simpl.
    replace (_ + _ + _)
      with ((sin_deg (Camera.rz this) * sin_deg (Camera.rz this)
             + cos_deg (Camera.rz this) * cos_deg (Camera.rz this)) * Rsqr v)
      by (unfold Rsqr; ring).
    rewrite sin_cos_deg, Rmult_1_l. apply sqrt_Rsqr_abs.
  - intros this. unfold MainCamera.move. rewrite !held_empty.
    apply MainCamera_set_pose_same; reflexivity.
  - intros this key H1 H2 H3 H4 H5. unfold MainCamera.move.
    rewrite H1, H2, H3, H4, H5.
    destruct (held key "d"), (held key "s"), (held key "Shift"), (held key "ArrowRight"),
      (held key "ArrowDown");
      (apply MainCamera_set_pose_same; [apply Point_eq; simpl; ring | ring | ring]).
Qed.

Lemma move_keys_witness :
  Camera.move scenarioCamera0 (<["a" := true]> (<["d" := true]> ∅)) = scenarioCamera0.
Proof.
  apply (proj1 (proj2 move_keys) scenarioCamera0 (<["a" := true]> (<["d" := true]> ∅))).
  - simpl. lra.
  - reflexivity.
  - reflexivity.
  - reflexivity.
  - reflexivity.
  - reflexivity.
Defined.

(** ** The rays through the pixels *)

Lemma rotate_inner (v w : Vector.t) (rx rz : R) :
  getInnerProduct (Vector.rotate v rx rz) (Vector.rotate w rx rz) = getInnerProduct v w.
Proof.
  unfold getInnerProduct, Vector.rotate. simpl.
  apply rotations_inner; apply sin_cos_deg.
Qed.

Lemma getSumOfVectors_4 (a b c d : Vector.t) :
  getSumOfVectors [a; b; c; d]
  = Vector.mk (0 + Vector.x a + Vector.x b + Vector.x c + Vector.x d)
              (0 + Vector.y a + Vector.y b + Vector.y c + Vector.y d)
              (0 + Vector.z a + Vector.z b + Vector.z c + Vector.z d).
Proof. reflexivity. Qed.

(** A ray from the focus whose vector is the normal vector plus a vector
    of the view plane meets the view plane at parameter 1. *)
Lemma ray_through_view_plane (this : Camera.t) (vec : Vector.t) :
  Camera.plane this = getPlaneFromVectorAndPoint (Camera.normalVector this) (Camera.pos this) ->
  Camera.focus this
  = Point.mk (Point.x (Camera.pos this) - Vector.x (Camera.normalVector this))
             (Point.y (Camera.pos this) - Vector.y (Camera.normalVector this))
             (Point.z (Camera.pos this) - Vector.z (Camera.normalVector this)) ->
  getInnerProduct (Camera.normalVector this) (Camera.normalVector this) <> 0 ->
  getInnerProduct (Camera.normalVector this) vec
  = getInnerProduct (Camera.normalVector this) (Camera.normalVector this) ->
  HalfLine.getIntersectionWithPlane (HalfLine.new (Camera.focus this) vec) (Camera.plane this)
  = Found (Point.move (Camera.focus this) (Vector.multiplication vec 1)).
Proof.
  intros Hplane Hfocus Hnn Hvec.
  set (n := Camera.normalVector this) in *. set (nn := getInnerProduct n n) in *.
  assert (HsideF : Plane.side (Camera.plane this) (Camera.focus this) = - nn).
  { rewrite Hplane, Hfocus. unfold nn, Plane.side, Plane.eval, getInnerProduct. simpl. ring. }
  destruct (HalfLine_plane (Camera.focus this) vec (Camera.plane this)) as [Hhit _].
  set (den := Plane.a (Camera.plane this) * Vector.x vec
              + Plane.b (Camera.plane this) * Vector.y vec
              + Plane.c (Camera.plane this) * Vector.z vec) in *.
  assert (Hden : den = nn).
  { rewrite <- Hvec. unfold den. rewrite Hplane. reflexivity. }
  assert (Hpos : 0 < nn).
  { assert (0 <= nn) by (unfold nn, getInnerProduct; nra). lra. }
  destruct Hhit as (t & p & _ & Ht & Hp & Hmove & _).
  { rewrite HsideF, Hden. nra. }
  rewrite HsideF, Hden in Ht.
  assert (t = 1) by nra. subst t. rewrite Hp, Hmove. reflexivity.
Qed.

(** The view computed by [update]: the four corner vectors are the rotated
    corners of the view rectangle, and [canW] and [canH] are not zero. *)
Lemma view_of_update (this : Camera.t) (view : CameraView.t) :
  CameraView.update this = Some view ->
  let rotate v := Vector.rotate v (Camera.rx this) (Camera.rz this) in
  let tl := rotate (Vector.mk (- Camera.width this / 2) 0 (Camera.height this / 2)) in
  let tr := rotate (Vector.mk (Camera.width this / 2) 0 (Camera.height this / 2)) in
  let bl := rotate (Vector.mk (- Camera.width this / 2) 0 (- Camera.height this / 2)) in
  let br := rotate (Vector.mk (Camera.width this / 2) 0 (- Camera.height this / 2)) in
  let corner v := Point.move (Point.getClone (Camera.pos this)) v in
  Camera.canW this <> 0 /\ Camera.canH this <> 0 /\
  view = CameraView.mk
           (Corners.mk tl tr bl br)
           (Corners.mk (corner tl) (corner tr) (corner bl) (corner br))
           (Vector.multiplication (getVectorFrom2Points (corner tl) (corner tr))
                                  (1 / Camera.canW this))
           (Vector.multiplication (getVectorFrom2Points (corner tl) (corner bl))
                                  (1 / Camera.canH this)).
Proof.
  unfold CameraView.update, CameraView.updateOnCameraPlaneVector.
  destruct (decide (Camera.canW this = 0)) as [|HW]; [discriminate|].
  destruct (decide (Camera.canH this = 0)) as [|HH]; [discriminate|].
  intros [= <-]. split; [exact HW|]. split; [exact HH|]. reflexivity.
Qed.

(** The fields that [recompute] leaves as they are, and the normal
    vector. *)
Lemma recompute_fields (this : Camera.t) :
  let this' := Camera.recompute this in
  Camera.pos this' = Camera.pos this /\ Camera.rx this' = Camera.rx this /\
  Camera.rz this' = Camera.rz this /\ Camera.width this' = Camera.width this /\
  Camera.height this' = Camera.height this /\ Camera.canW this' = Camera.canW this /\
  Camera.canH this' = Camera.canH this /\
  Camera.expandingRatio this' = Camera.expandingRatio this /\
  Camera.normalVector this'
  = Vector.rotate (Vector.mk 0 (Camera.focalLength this) 0) (Camera.rx this) (Camera.rz this).
Proof. destruct this. repeat split. Qed.

(** The vector of the ray through a pixel is the normal vector plus a
    vector of the view plane. *)
Lemma pixel_vector_normal (this : Camera.t) (view : CameraView.t) (x y : R) :
  let this' := Camera.recompute this in
  let ray := CameraView.getCameraViewLayHalfLine this' view x y in
  CameraView.update this' = Some view ->
  getInnerProduct (Camera.normalVector this') (Camera.normalVector this')
  = Camera.focalLength this * Camera.focalLength this /\
  getInnerProduct (Camera.normalVector this') (HalfLine.vector ray)
  = Camera.focalLength this * Camera.focalLength this.
Proof.
  intros this' ray Hview.
  destruct (view_of_update this' view Hview) as (HW & HH & ->).
  destruct (recompute_fields this) as (Hpos & Hrx & Hrz & Hw & Hh & HcW & HcH & _ & Hn).
  fold this' in Hpos, Hrx, Hrz, Hw, Hh, HcW, HcH, Hn.
  subst ray. unfold CameraView.getCameraViewLayHalfLine.
  cbn [CameraView.toBottom CameraView.toRight CameraView.cornerVectorsFromPos
       CameraView.cornerPoints Corners.topLeft Corners.topRight Corners.bottomLeft
       Corners.bottomRight HalfLine.vector HalfLine.new].
  rewrite getSumOfVectors_4, Hrx, Hrz, Hw, Hh.
  set (rx := Camera.rx this). set (rz := Camera.rz this).
  set (tl := Vector.rotate (Vector.mk (- Camera.width this / 2) 0 (Camera.height this / 2)) rx rz).
  set (tr := Vector.rotate (Vector.mk (Camera.width this / 2) 0 (Camera.height this / 2)) rx rz).
  set (bl := Vector.rotate (Vector.mk (- Camera.width this / 2) 0 (- Camera.height this / 2))
                           rx rz).
  rewrite Hn. fold rx rz.
  set (n := Vector.rotate (Vector.mk 0 (Camera.focalLength this) 0) rx rz).
  assert (Hnn : getInnerProduct n n = Camera.focalLength this * Camera.focalLength this).
  { unfold n. rewrite rotate_inner. unfold getInnerProduct. simpl. ring. }
  assert (Htl : getInnerProduct n tl = 0).
  { unfold n, tl. rewrite rotate_inner. unfold getInnerProduct. simpl. ring. }
  assert (Htr : getInnerProduct n tr = 0).
  { unfold n, tr. rewrite rotate_inner. unfold getInnerProduct. simpl. ring. }
  assert (Hbl : getInnerProduct n bl = 0).
  { unfold n, bl. rewrite rotate_inner. unfold getInnerProduct. simpl. ring. }
  split; [exact Hnn|].
  transitivity (y * (1 / Camera.canH this')
                * (getInnerProduct n bl - getInnerProduct n tl)
                + x * (1 / Camera.canW this')
                  * (getInnerProduct n tr - getInnerProduct n tl)
                + getInnerProduct n tl + getInnerProduct n n).
  - unfold getInnerProduct. simpl. ring.
  - rewrite Htl, Htr, Hbl, Hnn. ring.
Qed.

Lemma view_ray (this : Camera.t) (view : CameraView.t) (x y : R) :
  let this' := Camera.recompute this in
  let ray := CameraView.getCameraViewLayHalfLine this' view x y in
  let corners := CameraView.cornerPoints view in
  Camera.focalLength this <> 0 ->
  CameraView.update this' = Some view ->
  HalfLine.point ray = Camera.focus this' /\
  (exists p,
      HalfLine.getIntersectionWithPlane ray (Camera.plane this') = Found p /\
      p = Point.move (Camera.focus this') (HalfLine.vector ray) /\
      p = Point.move (Point.move (Corners.topLeft corners)
                                 (Vector.multiplication (CameraView.toRight view) x))
                     (Vector.multiplication (CameraView.toBottom view) y) /\
      (x = 0 -> y = 0 -> p = Corners.topLeft corners) /\
      (x = Camera.canW this -> y = 0 -> p = Corners.topRight corners) /\
      (x = 0 -> y = Camera.canH this -> p = Corners.bottomLeft corners) /\
      (x = Camera.canW this -> y = Camera.canH this -> p = Corners.bottomRight corners)).
Proof.
  intros this' ray corners Hf Hview.
  destruct (recompute_plane_focus this) as [Hplane Hfocus]. fold this' in Hplane, Hfocus.
  destruct (pixel_vector_normal this view x y Hview) as [Hnn Hvec].
  fold this' in Hnn, Hvec. fold ray in Hvec.
  split; [reflexivity|].
  exists (Point.move (Camera.focus this') (Vector.multiplication (HalfLine.vector ray) 1)).
  split.
  { apply (ray_through_view_plane this' (HalfLine.vector ray) Hplane Hfocus).
    - rewrite Hnn. nra.
    - rewrite Hvec, Hnn. reflexivity. }
  split; [apply Point_eq; simpl; ring|].
  destruct (view_of_update this' view Hview) as (HW & HH & Eview).
  destruct (recompute_fields this) as (Hpos & Hrx & Hrz & Hw & Hh & HcW & HcH & _ & Hn).
  fold this' in Hpos, Hrx, Hrz, Hw, Hh, HcW, HcH, Hn.
  rewrite HcW in HW. rewrite HcH in HH.
  subst ray corners. rewrite Eview. unfold CameraView.getCameraViewLayHalfLine.
  cbn [CameraView.toBottom CameraView.toRight CameraView.cornerVectorsFromPos
       CameraView.cornerPoints Corners.topLeft Corners.topRight Corners.bottomLeft
       Corners.bottomRight HalfLine.vector HalfLine.new].
  rewrite getSumOfVectors_4, Hfocus, HcW, HcH.
  split; [apply Point_eq; simpl; ring|].
  split; [intros Ex Ey; rewrite Ex, Ey; apply Point_eq; simpl; ring|].
  split; [intros Ex Ey; rewrite Ex, Ey; apply Point_eq; simpl; field; try split; assumption|].
  split; [intros Ex Ey; rewrite Ex, Ey; apply Point_eq; simpl; field; try split; assumption|].
  intros Ex Ey. rewrite Ex, Ey. unfold Vector.rotate.
  apply Point_eq; simpl; field; try split; assumption.
Qed.

(** X14: the ray of [getCameraViewLayHalfLine] through the pixel (x, y),
    for a camera of non-zero focal length recomputed by [update]: it starts
    at the focus and meets the view plane at the point
    [focus + vector], which is the top left corner of the view rectangle
    moved by x pixel vectors to the right and y pixel vectors to the bottom.
    The pixels (0, 0), (canW, 0), (0, canH) and (canW, canH) give the four
    corner points. *)
Theorem pixel_ray (this : Camera.t) (view : CameraView.t) (x y : R) :
  let this' := Camera.recompute this in
  let ray := CameraView.getCameraViewLayHalfLine this' view x y in
  let corners := CameraView.cornerPoints view in
  Camera.focalLength this <> 0 ->
  CameraView.update this' = Some view ->
  HalfLine.point ray = Camera.focus this' /\
  (exists p,
      HalfLine.getIntersectionWithPlane ray (Camera.plane this') = Found p /\
      p = Point.move (Camera.focus this') (HalfLine.vector ray) /\
      p = Point.move (Point.move (Corners.topLeft corners)
                                 (Vector.multiplication (CameraView.toRight view) x))
                     (Vector.multiplication (CameraView.toBottom view) y) /\
      (x = 0 -> y = 0 -> p = Corners.topLeft corners) /\
      (x = Camera.canW this -> y = 0 -> p = Corners.topRight corners) /\
      (x = 0 -> y = Camera.canH this -> p = Corners.bottomLeft corners) /\
      (x = Camera.canW this -> y = Camera.canH this -> p = Corners.bottomRight corners)).
Proof. exact (view_ray this view x y). Qed.

(** The view of the camera of the scenario. *)
Lemma scenarioCamera_view : exists view, CameraView.update scenarioCamera = Some view.
Proof.
  unfold CameraView.update, CameraView.updateOnCameraPlaneVector.
  rewrite decide_False by (simpl; lra). rewrite decide_False by (simpl; lra).
  eexists. reflexivity.
Qed.

Lemma pixel_ray_witness :
  exists view p,
    CameraView.update scenarioCamera = Some view /\
    HalfLine.getIntersectionWithPlane
      (CameraView.getCameraViewLayHalfLine scenarioCamera view 0 0)
      (Camera.plane scenarioCamera) = Found p /\
    p = Corners.topLeft (CameraView.cornerPoints view).
Proof.
  destruct scenarioCamera_view as [view Hview]. exists view.
  destruct (pixel_ray scenarioCamera0 view 0 0 ltac:(simpl; lra) Hview)
    as (_ & p & Hp & _ & _ & Htl & _).
  exists p. split; [exact Hview|]. split; [exact Hp|]. apply Htl; reflexivity.
Defined.

(** ** The two projections of main.js *)

Lemma MainCamera_recompute_fields (this : MainCamera.t) :
  let this' := MainCamera.updatePlane
                 (MainCamera.updateFocusPoint (MainCamera.updateNormalVector this)) in
  MainCamera.pos this' = MainCamera.pos this /\
  MainCamera.rx this' = MainCamera.rx this /\ MainCamera.rz this' = MainCamera.rz this /\
  MainCamera.normalVector this'
  = Vector.rotate (Vector.mk 0 (MainCamera.focalLength this) 0)
                  (MainCamera.rx this) (MainCamera.rz this) /\
  MainCamera.plane this'
  = getPlaneFromVectorAndPoint (MainCamera.normalVector this') (MainCamera.pos this') /\
  MainCamera.focus this'
  = Point.mk (Point.x (MainCamera.pos this') - Vector.x (MainCamera.normalVector this'))
             (Point.y (MainCamera.pos this') - Vector.y (MainCamera.normalVector this'))
             (Point.z (MainCamera.pos this') - Vector.z (MainCamera.normalVector this')).
Proof. destruct this. repeat split. Qed.

(** The projection of main.js on a camera with a derived focus and plane:
    the point [focus + nn / (nn + S) . (vertex - focus)], where [nn] is the
    square of the normal vector and [S] the plane equation at the vertex. *)
Lemma MainCamera_projection (this : MainCamera.t) (vertex : Vertex.t) :
  let n := MainCamera.normalVector this in
  let nn := getInnerProduct n n in
  let S := Plane.side (MainCamera.plane this)
                      (Point.mk (Vertex.x vertex) (Vertex.y vertex) (Vertex.z vertex)) in
  MainCamera.plane this = getPlaneFromVectorAndPoint n (MainCamera.pos this) ->
  MainCamera.focus this
  = Point.mk (Point.x (MainCamera.pos this) - Vector.x n)
             (Point.y (MainCamera.pos this) - Vector.y n)
             (Point.z (MainCamera.pos this) - Vector.z n) ->
  nn + S <> 0 ->
  MainCamera.getProjectedVertex this vertex
  = Some (Vertex.new
            (Point.x (MainCamera.focus this)
             + (Vertex.x vertex - Point.x (MainCamera.focus this)) * (nn / (nn + S)))
            (Point.y (MainCamera.focus this)
             + (Vertex.y vertex - Point.y (MainCamera.focus this)) * (nn / (nn + S)))
            (Point.z (MainCamera.focus this)
             + (Vertex.z vertex - Point.z (MainCamera.focus this)) * (nn / (nn + S)))
            (Vertex.i vertex)).
Proof.
  intros n nn S Hplane Hfocus Hne.
  assert (HsideF : Plane.eval (MainCamera.plane this) (Point.x (MainCamera.focus this))
                     (Point.y (MainCamera.focus this)) (Point.z (MainCamera.focus this))
                   = - nn).
  { rewrite Hplane, Hfocus. unfold nn, Plane.eval, getInnerProduct. simpl. ring. }
  unfold MainCamera.getProjectedVertex, getIntersectionFromLineAndPlane.
  cbn [Line.point Line.vector Vector.x Vector.y Vector.z].
  set (den := Plane.a (MainCamera.plane this) * (Point.x (MainCamera.focus this) - Vertex.x vertex)
              + Plane.b (MainCamera.plane this) * (Point.y (MainCamera.focus this) - Vertex.y vertex)
              + Plane.c (MainCamera.plane this) * (Point.z (MainCamera.focus this) - Vertex.z vertex)).
  assert (Hden : den = - (nn + S)).
  { rewrite <- (Ropp_involutive nn), <- HsideF.
    unfold den, S, Plane.side, Plane.eval. simpl. ring. }
  rewrite decide_False by lra.
  rewrite HsideF, Hden. cbn [Point.x Point.y Point.z].
  assert (E : forall a b,
             a + - - nn / - (nn + S) * (a - b) = a + (b - a) * (nn / (nn + S)))
    by (intros; field; exact Hne).
  rewrite !E. reflexivity.
Qed.

(** X16: for the camera of main.js as [update] recomputes it, with a
    non-zero focal length, and a vertex in front of the view plane or on it,
    [getProjectedVertex2], which scales the vector from the focus by the
    distance of the vertex to the plane, returns the same vertex as
    [getProjectedVertex], which intersects the line from the focus with the
    plane: a vertex with the same [i] on the view plane. *)
Theorem projections_agree (this : MainCamera.t) (vertex : Vertex.t) :
  let this' := MainCamera.updatePlane
                 (MainCamera.updateFocusPoint (MainCamera.updateNormalVector this)) in
  let S := Plane.side (MainCamera.plane this')
                      (Point.mk (Vertex.x vertex) (Vertex.y vertex) (Vertex.z vertex)) in
  MainCamera.focalLength this <> 0 ->
  0 <= S ->
  MainCamera.getProjectedVertex2 this' vertex = MainCamera.getProjectedVertex this' vertex /\
  exists projected,
    MainCamera.getProjectedVertex this' vertex = Some projected /\
    Vertex.i projected = Vertex.i vertex /\
    Plane.side (MainCamera.plane this') (Vertex.point projected) = 0.
Proof.
  intros this' S Hf HS.
  destruct (MainCamera_recompute_fields this) as (_ & _ & _ & Hn & Hplane & Hfocus).
  fold this' in Hn, Hplane, Hfocus.
  set (n := MainCamera.normalVector this') in *.
  set (nn := getInnerProduct n n).
  assert (Hnn : nn = MainCamera.focalLength this * MainCamera.focalLength this).
  { unfold nn. rewrite Hn, rotate_inner. unfold getInnerProduct. simpl. ring. }
  assert (Hpos : 0 < nn) by (rewrite Hnn; nra).
  pose proof (MainCamera_projection this' vertex Hplane Hfocus) as Hproj.
  fold n nn S in Hproj. specialize (Hproj ltac:(lra)).
  split.
  - rewrite Hproj. unfold MainCamera.getProjectedVertex2.
    set (L := Vector.length (MainCamera.normalVector this')).
    assert (HL : L * L = nn).
    { unfold L, Vector.length. fold n. rewrite sqrt_sqrt; [reflexivity|].
      unfold nn, getInnerProduct in Hpos. lra. }
    assert (HLpos : 0 < L).
    { unfold L, Vector.length. apply sqrt_lt_R0. unfold nn, getInnerProduct in Hpos. exact Hpos. }
    assert (Hsq : sqrt (Plane.a (MainCamera.plane this') ^ 2 + Plane.b (MainCamera.plane this') ^ 2
                        + Plane.c (MainCamera.plane this') ^ 2) = L).
    { unfold L, Vector.length. f_equal. rewrite Hplane. simpl. ring. }
    rewrite Hsq.
    assert (Habs : Rabs (Plane.a (MainCamera.plane this') * Vertex.x vertex
                         + Plane.b (MainCamera.plane this') * Vertex.y vertex
                         + Plane.c (MainCamera.plane this') * Vertex.z vertex
                         + Plane.d (MainCamera.plane this')) = S).
    { apply Rabs_pos_eq. exact HS. }
    rewrite Habs.
    assert (Hq : 0 <= S / L) by (apply Rmult_le_pos; [exact HS | left; apply Rinv_0_lt_compat, HLpos]).
    rewrite decide_False by lra. rewrite decide_False by lra.
    assert (Hratio : L / (L + S / L) = nn / (nn + S)).
    { rewrite <- HL. field. split; nra. }
    rewrite Hratio. cbn [Vector.x Vector.y Vector.z Vector.multiplication]. reflexivity.
  - unfold MainCamera.getProjectedVertex in Hproj |- *.
    destruct (getIntersectionFromLineAndPlane _ (MainCamera.plane this')) as [I|] eqn:HI;
      [|discriminate].
    eexists. split; [reflexivity|]. split; [reflexivity|].
    change (Vertex.point (Vertex.new ?x ?y ?z ?i)) with (Point.mk x y z).
    rewrite Point_eta. apply (intersection_on_plane _ _ _ HI).
Qed.

Lemma projections_agree_witness :
  MainCamera.getProjectedVertex2
    (MainCamera.updatePlane
       (MainCamera.updateFocusPoint (MainCamera.updateNormalVector mainCamera0)))
    aheadVertex
  = MainCamera.getProjectedVertex
      (MainCamera.updatePlane
         (MainCamera.updateFocusPoint (MainCamera.updateNormalVector mainCamera0)))
      aheadVertex.
Proof.
  apply (projections_agree mainCamera0 aheadVertex).
  - simpl. lra.
  - unfold Plane.side, Plane.eval. simpl. rewrite sin_deg_0, cos_deg_0. lra.
Defined.

(** * Further properties of the store *)

(** ** A frame of camera.js *)

Lemma edgeAt_unchanged (w w' : World.t) (l : loc) (e : Edge.t) :
  unchanged w w' -> edgeAt w l e -> edgeAt w' l e.
Proof.
  intros U (eo & He & H1 & H2 & Hv & Hl). exists eo.
  split; [apply U, He|]. split; [apply U, H1|]. split; [apply U, H2|]. split; assumption.
Qed.

Lemma vertexAt_unchanged (w w' : World.t) (l : loc) (v : Vertex.t) :
  unchanged w w' -> vertexAt w l v -> vertexAt w' l v.
Proof. intros U H. apply U, H. Qed.

Lemma forOf_cons {A : Type} (a : A) (rest : list A) (body : A -> M unit) :
  forOf (a :: rest) body = (body a;; forOf rest body).
Proof. reflexivity. Qed.

(** Clipping keeps an endpoint that is in front of the plane: it replaces
    the second vertex when the first is in front, and the first when it is
    not. *)
Lemma clip_keeps_front (e : Edge.t) (plane : Plane.t) :
  let r := snd (Edge.setVertexInFrontOfCamera e plane) in
  (Plane.isPointInFrontOf plane (Vertex.point (Edge.vertex1 e)) = true ->
   Edge.vertex1 r = Edge.vertex1 e) /\
  (Plane.isPointInFrontOf plane (Vertex.point (Edge.vertex1 e)) = false ->
   Edge.vertex2 r = Edge.vertex2 e).
Proof.
  unfold Edge.setVertexInFrontOfCamera.
  destruct (Edge.getIntersectionWithPlane e plane) as [I|];
    destruct (Plane.isPointInFrontOf plane (Vertex.point (Edge.vertex1 e)));
    split; intros H; try discriminate; reflexivity.
Qed.

(** A turn of the loop of [drawEdges] skips the edge or ends in a
    TypeError: it never hands a segment to the rasterizer. *)
Lemma drawEdge_outcome (this : Camera.t) (e : Edge.t) :
  Camera.drawEdge this e = Return None \/ Camera.drawEdge this e = TypeError.
Proof.
  unfold Camera.drawEdge.
  set (r := snd (Edge.setVertexInFrontOfCamera (Edge.getClone e) (Camera.plane this))).
  destruct (drawConvertedEdge_cases this r) as [Hskip Herr]. cbv zeta in Hskip, Herr.
  destruct (Plane.isPointInFrontOf (Camera.plane this) (Vertex.point (Edge.vertex1 r))) eqn:H1.
  - right. apply Herr. left. reflexivity.
  - destruct (Plane.isPointInFrontOf (Camera.plane this) (Vertex.point (Edge.vertex2 r))) eqn:H2.
    + right. apply Herr. right. reflexivity.
    + left. apply Hskip; reflexivity.
Qed.

(** The turn on an edge built by the constructor, by the sides of its
    endpoints. *)
Lemma drawEdge_sides (this : Camera.t) (e : Edge.t) :
  let f1 := Plane.side (Camera.plane this) (Vertex.point (Edge.vertex1 e)) in
  let f2 := Plane.side (Camera.plane this) (Vertex.point (Edge.vertex2 e)) in
  Edge.wf e ->
  (f1 < 0 -> f2 < 0 -> Camera.drawEdge this e = Return None) /\
  (0 < f1 \/ 0 < f2 -> Camera.drawEdge this e = TypeError).
Proof.
  intros f1 f2 Hwf. unfold Camera.drawEdge. rewrite (Edge_getClone_wf e Hwf). split.
  - intros H1 H2. rewrite setVertexInFrontOfCamera_none.
    + cbn [snd]. rewrite (Edge_wf_new e Hwf).
      apply (proj1 (drawConvertedEdge_cases this e)); apply isPointInFrontOf_false;
        [fold f1 | fold f2]; lra.
    + apply same_side_no_intersection; [exact Hwf|]. fold f1 f2. nra.
  - intros Hor.
    destruct (clip_keeps_front e (Camera.plane this)) as [K1 K2].
    set (r := snd (Edge.setVertexInFrontOfCamera e (Camera.plane this))) in *.
    apply (proj2 (drawConvertedEdge_cases this r)).
    destruct (Plane.isPointInFrontOf (Camera.plane this) (Vertex.point (Edge.vertex1 e)))
      eqn:F1.
    + left. rewrite (K1 eq_refl). exact F1.
    + right. rewrite (K2 eq_refl). apply isPointInFrontOf_true.
      apply isPointInFrontOf_false in F1. fold f1 in F1. fold f2.
      destruct Hor; lra.
Qed.

(** One turn of the loop of [drawEdges] at an edge of the store. *)
Lemma drawEdgesTurn_at (this : Camera.t) (l : loc) (e : Edge.t) (w : World.t) :
  edgeAt w l e ->
  World.canvas (snd (Camera.drawEdgesTurn this l w)) = World.canvas w /\
  (Camera.drawEdge this e = Return None ->
   exists w', Camera.drawEdgesTurn this l w = (Return tt, w') /\ unchanged w w') /\
  (Camera.drawEdge this e = TypeError -> fst (Camera.drawEdgesTurn this l w) = TypeError).
Proof.
  intros (eo & He & H1 & H2 & Hv & Hl).
  destruct (drawEdgesTurn_run this l eo _ _ w He H1 H2) as (w' & U & Hrun).
  assert (E : Edge.mk (Edge.vertex1 e) (Edge.vertex2 e) (EdgeObj.vector eo) (EdgeObj.line eo) = e).
  { rewrite <- Hv, <- Hl. destruct e; reflexivity. }
  cbv zeta in Hrun. rewrite E in Hrun.
  destruct (drawEdge_outcome this e) as [Hd | Hd]; rewrite Hd in Hrun |- *.
  - destruct Hrun as [Hr Hc]. rewrite Hr. split; [exact Hc|].
    split; [|discriminate]. intros _. exists w'. split; [reflexivity | exact U].
  - destruct Hrun as [Hf Hc]. split; [exact Hc|].
    split; [discriminate|]. intros _. exact Hf.
Qed.

(** The loop of [drawEdges] draws nothing; it ends when every edge is
    skipped, and in a TypeError at the first edge that is not. *)
Lemma drawEdges_loop (this : Camera.t) (ls : list loc) (es : list Edge.t) (w : World.t) :
  Forall2 (edgeAt w) ls es ->
  World.canvas (snd (forOf ls (Camera.drawEdgesTurn this) w)) = World.canvas w /\
  (Forall (fun e => Camera.drawEdge this e = Return None) es ->
   exists w', forOf ls (Camera.drawEdgesTurn this) w = (Return tt, w') /\ unchanged w w') /\
  (Exists (fun e => Camera.drawEdge this e = TypeError) es ->
   fst (forOf ls (Camera.drawEdgesTurn this) w) = TypeError).
Proof.
  revert es w.
  induction ls as [|l ls IH]; intros es w Hat.
  - apply Forall2_nil_inv_l in Hat. subst es.
    split; [reflexivity|]. split.
    + intros _. exists w. split; [reflexivity | apply unchanged_refl].
    + intros H. apply Exists_nil in H. contradiction.
  - apply Forall2_cons_inv_l in Hat as (e & es' & He & Hrest & ->).
    destruct (drawEdgesTurn_at this l e w He) as (Hc & Hskip & Herr).
    rewrite forOf_cons, bind_run.
    destruct (drawEdge_outcome this e) as [Hd | Hd].
    + destruct (Hskip Hd) as (w1 & Hrun & U1). rewrite Hrun in Hc |- *. simpl in Hc.
      destruct (IH es' w1) as (Hc' & Hskip' & Herr').
      { eapply Forall2_impl; [exact Hrest|]. intros l' e'. apply edgeAt_unchanged, U1. }
      split; [rewrite Hc'; exact Hc|]. split.
      * intros Hall. apply Forall_cons in Hall as [_ Hall].
        destruct (Hskip' Hall) as (w' & Hrun' & U'). exists w'.
        split; [exact Hrun' | eapply unchanged_trans; eassumption].
      * intros Hex. apply Exists_cons in Hex as [Hex | Hex]; [congruence|].
        apply Herr', Hex.
    + specialize (Herr Hd).
      destruct (Camera.drawEdgesTurn this l w) as [r w1]. simpl in Herr, Hc. subst r.
      split; [exact Hc|]. split.
      * intros Hall. apply Forall_cons in Hall as [Hall _]. congruence.
      * intros _. reflexivity.
Qed.

(** The loop of [drawVertexes] leaves the world as it is; it ends when no
    vertex is in front of the view plane, and in a TypeError at the first
    vertex that is. *)
Lemma drawVertexes_loop (this : Camera.t) (ls : list loc) (vs : list Vertex.t) (w : World.t) :
  let loop :=
    forOf ls (fun l =>
      vertex ← loadVertex l;
      toDrawVertex ← lift (Camera.getToDrawVertex this vertex);
      match toDrawVertex with
      | None => mret tt
      | Some xy =>
          draw (drawCircle con (XY.x xy) (XY.y xy) (5 / 2));;
          draw (fillText con (Vertex.i vertex) (XY.x xy) (XY.y xy))
      end) in
  Forall2 (vertexAt w) ls vs ->
  snd (loop w) = w /\
  (Forall (fun v => Plane.isPointInFrontOf (Camera.plane this) (Vertex.point v) = false) vs ->
   fst (loop w) = Return tt) /\
  (Exists (fun v => Plane.isPointInFrontOf (Camera.plane this) (Vertex.point v) = true) vs ->
   fst (loop w) = TypeError).
Proof.
  intros loop. subst loop. revert vs.
  induction ls as [|l ls IH]; intros vs Hat.
  - apply Forall2_nil_inv_l in Hat. subst vs.
    split; [reflexivity|]. split; [reflexivity|].
    intros H. apply Exists_nil in H. contradiction.
  - apply Forall2_cons_inv_l in Hat as (v & vs' & Hv & Hrest & ->).
    rewrite forOf_cons, bind_run.
    rewrite (bind_return _ _ _ _ _ (loadVertex_run l v w Hv)).
    rewrite bind_run. unfold lift at 1.
    destruct (Plane.isPointInFrontOf (Camera.plane this) (Vertex.point v)) eqn:Hf.
    + rewrite (proj2 (getProjectedVertex_front this v Hf)).
      split; [reflexivity|]. split; [|reflexivity].
      intros Hall. apply Forall_cons in Hall as [Hall _]. congruence.
    + rewrite (proj2 (getToDrawVertex_null this v) Hf).
      destruct (IH vs' Hrest) as (Hw & Hskip & Herr).
      split; [exact Hw|]. split.
      * intros Hall. apply Forall_cons in Hall as [_ Hall]. apply Hskip, Hall.
      * intros Hex. apply Exists_cons in Hex as [Hex | Hex]; [congruence|].
        apply Herr, Hex.
Qed.

Lemma move_recompute_imported (this : Camera.t) (key : gmap string bool) :
  Camera.importedEdges (Camera.recompute (Camera.move this key)) = Camera.importedEdges this /\
  Camera.importedVertexes (Camera.recompute (Camera.move this key))
  = Camera.importedVertexes this.
Proof. destruct this. split; reflexivity. Qed.

Lemma Camera_move_no_key (this : Camera.t) : Camera.move this ∅ = this.
Proof.
  unfold Camera.move. rewrite !held_empty. apply Camera_set_pose_same; reflexivity.
Qed.

Lemma skipped_or_error (this : Camera.t) (es : list Edge.t) :
  Forall (fun e => Camera.drawEdge this e = Return None) es \/
  Exists (fun e => Camera.drawEdge this e = TypeError) es.
Proof.
  induction es as [|e es IH]; [left; constructor|].
  destruct (drawEdge_outcome this e) as [Hd | Hd]; [|right; left; exact Hd].
  destruct IH as [IH | IH]; [left; constructor; assumption | right; right; exact IH].
Qed.

(** X18: a frame of camera.js on a store that holds the imported edges
    and vertices hands nothing to the rasterizer.  [update] returns the
    camera moved and recomputed, with every object as it was, when every
    imported edge is skipped and no imported vertex is in front of the view
    plane; when the turn of an edge ends in a TypeError or a vertex is in
    front of the plane, [update] ends in a TypeError.  One of the two is the
    case.  The turn of an edge built by the constructor skips it when both
    endpoints are behind the view plane and ends in a TypeError when an
    endpoint is in front of it. *)
Theorem Camera_update_frame (this : Camera.t) (key : gmap string bool) (w : World.t)
    (es : list Edge.t) (vs : list Vertex.t) :
  let this' := Camera.recompute (Camera.move this key) in
  let skipped (e : Edge.t) := Camera.drawEdge this' e = Return None in
  let failing (e : Edge.t) := Camera.drawEdge this' e = TypeError in
  let front (v : Vertex.t) := Plane.isPointInFrontOf (Camera.plane this') (Vertex.point v) in
  Forall2 (edgeAt w) (Camera.importedEdges this) es ->
  Forall2 (vertexAt w) (Camera.importedVertexes this) vs ->
  World.canvas (snd (Camera.update this key w)) = World.canvas w /\
  (Forall skipped es -> Forall (fun v => front v = false) vs ->
   exists w', Camera.update this key w = (Return this', w') /\ unchanged w w') /\
  (Exists failing es \/ Exists (fun v => front v = true) vs ->
   fst (Camera.update this key w) = TypeError) /\
  ((Forall skipped es /\ Forall (fun v => front v = false) vs) \/
   (Exists failing es \/ Exists (fun v => front v = true) vs)) /\
  (forall e,
      Edge.wf e ->
      (Plane.side (Camera.plane this') (Vertex.point (Edge.vertex1 e)) < 0 ->
       Plane.side (Camera.plane this') (Vertex.point (Edge.vertex2 e)) < 0 -> skipped e) /\
      (0 < Plane.side (Camera.plane this') (Vertex.point (Edge.vertex1 e)) \/
       0 < Plane.side (Camera.plane this') (Vertex.point (Edge.vertex2 e)) -> failing e)).
Proof.
  intros this' skipped failing front Hes Hvs.
  destruct (move_recompute_imported this key) as [Ee Ev]. fold this' in Ee, Ev.
  assert (Hrun : Camera.update this key w
                 = match forOf (Camera.importedEdges this) (Camera.drawEdgesTurn this') w with
                   | (Return _, w1) =>
                       match Camera.drawVertexes this' w1 with
                       | (Return _, w2) => (Return this', w2)
                       | (TypeError, w2) => (TypeError, w2)
                       end
                   | (TypeError, w1) => (TypeError, w1)
                   end).
  { unfold Camera.update. fold this'. unfold Camera.drawEdges. rewrite Ee.
    rewrite bind_run.
    destruct (forOf (Camera.importedEdges this) (Camera.drawEdgesTurn this') w) as [[[]|] w1];
      [|reflexivity].
    rewrite bind_run. destruct (Camera.drawVertexes this' w1) as [[[]|] w2]; reflexivity. }
  destruct (drawEdges_loop this' _ es w Hes) as (Hc & Hskip & Herr).
  assert (Hv : forall w1, unchanged w w1 ->
             snd (Camera.drawVertexes this' w1) = w1 /\
             (Forall (fun v => front v = false) vs ->
              fst (Camera.drawVertexes this' w1) = Return tt) /\
             (Exists (fun v => front v = true) vs ->
              fst (Camera.drawVertexes this' w1) = TypeError)).
  { intros w1 U1. unfold Camera.drawVertexes. rewrite Ev.
    apply (drawVertexes_loop this' (Camera.importedVertexes this) vs w1).
    eapply Forall2_impl; [exact Hvs|]. intros l v. apply vertexAt_unchanged, U1. }
  assert (Hcases : Forall skipped es \/ Exists failing es) by apply skipped_or_error.
  assert (Hfronts : Forall (fun v => front v = false) vs \/ Exists (fun v => front v = true) vs).
  { clear. induction vs as [|v vs IH]; [left; constructor|].
    destruct (front v) eqn:Hf; [right; left; exact Hf|].
    destruct IH as [IH | IH]; [left; constructor; assumption | right; right; exact IH]. }
  split; [|split; [|split; [|split]]].
  - rewrite Hrun. destruct Hcases as [Hall | Hex].
    + destruct (Hskip Hall) as (w1 & Hr & U1). rewrite Hr in Hc |- *. simpl in Hc.
      destruct (Hv w1 U1) as (Hw & _ & _).
      destruct (Camera.drawVertexes this' w1) as [[[]|] w2]; simpl in Hw; subst w2; exact Hc.
    + specialize (Herr Hex).
      destruct (forOf (Camera.importedEdges this) (Camera.drawEdgesTurn this') w) as [r w1].
      simpl in Herr, Hc. subst r. exact Hc.
  - intros Hall Hnone. rewrite Hrun.
    destruct (Hskip Hall) as (w1 & Hr & U1). rewrite Hr.
    destruct (Hv w1 U1) as (Hw & Hok & _). specialize (Hok Hnone).
    destruct (Camera.drawVertexes this' w1) as [r w2]. simpl in Hw, Hok. subst r w2.
    exists w1. split; [reflexivity | exact U1].
  - intros Hbad. rewrite Hrun. destruct Hcases as [Hall | Hex].
    + destruct Hbad as [Hex | Hex].
      { exfalso. clear - Hall Hex. induction Hex as [e es Hd | e es _ IH].
        - apply Forall_cons in Hall as [Hs _]. unfold skipped, failing in *. congruence.
        - apply Forall_cons in Hall as [_ Hall]. apply IH, Hall. }
      destruct (Hskip Hall) as (w1 & Hr & U1). rewrite Hr.
      destruct (Hv w1 U1) as (_ & _ & Hfail). specialize (Hfail Hex).
      destruct (Camera.drawVertexes this' w1) as [r w2]. simpl in Hfail. subst r. reflexivity.
    + specialize (Herr Hex).
      destruct (forOf (Camera.importedEdges this) (Camera.drawEdgesTurn this') w) as [r w1].
      simpl in Herr. subst r. reflexivity.
  - destruct Hcases as [Hall | Hex]; [|right; left; exact Hex].
    destruct Hfronts as [Hnone | Hsome]; [left; split; assumption | right; right; exact Hsome].
  - intros e Hwf. exact (drawEdge_sides this' e Hwf).
Qed.

(** The camera of the scenario with the first edge of the cube and its two
    vertices imported: the edge is in front of the view plane, and the frame
    ends in a TypeError with nothing drawn. *)
Lemma Camera_update_frame_witness :
  fst (Camera.update (Camera.set_imported scenarioCamera0 [1%positive; 2%positive]
                                          [3%positive] [] [])
                     ∅ cubeWorld) = TypeError /\
  World.canvas (snd (Camera.update (Camera.set_imported scenarioCamera0 [1%positive; 2%positive]
                                                        [3%positive] [] [])
                                   ∅ cubeWorld)) = [].
Proof.
  set (this := Camera.set_imported scenarioCamera0 [1%positive; 2%positive] [3%positive] [] []).
  assert (Hes : Forall2 (edgeAt cubeWorld) (Camera.importedEdges this) [cubeEdge]).
  { constructor; [|constructor]. exists cubeEdgeObj. repeat split. }
  assert (Hvs : Forall2 (vertexAt cubeWorld) (Camera.importedVertexes this)
                        [cubeVertex1; cubeVertex2]).
  { constructor; [reflexivity|]. constructor; [reflexivity|]. constructor. }
  destruct (Camera_update_frame this ∅ cubeWorld [cubeEdge] [cubeVertex1; cubeVertex2] Hes Hvs)
    as (Hc & _ & Herr & _ & Hsides).
  split; [|exact Hc]. apply Herr. left. constructor.
  apply (Hsides cubeEdge); [apply Edge_new_wf; reflexivity|].
  left. rewrite Camera_move_no_key.
  assert (Hpl : Camera.plane (Camera.recompute this) = Plane.mk 0 3 0 3)
    by (apply start_camera_derived; reflexivity).
  rewrite Hpl. unfold Plane.side, Plane.eval. simpl. lra.
Defined.

(** ** importShapes *)

Lemma faceAt_unchanged (w w' : World.t) (l : loc) (f : Face.t) :
  unchanged w w' -> faceAt w l f -> faceAt w' l f.
Proof.
  intros U (fo & Hf & H1 & H2 & H3 & E). exists fo.
  repeat (split; [apply U; assumption|]). exact E.
Qed.

Lemma lightAt_unchanged (w w' : World.t) (l : loc) (o : Light.t) :
  unchanged w w' -> lightAt w l o -> lightAt w' l o.
Proof. intros U H. apply U, H. Qed.

Lemma unchanged_insert_fresh (w : World.t) (l : loc) (o : obj) (c : list DrawCall) :
  fresh_for w l -> unchanged w (World.mk (<[l := o]> (World.objects w)) c).
Proof. intros Hl l' o' H. apply (holds_insert_fresh w l' l o' o c); assumption. Qed.

Lemma fresh_for_unchanged (w w' : World.t) (l : loc) :
  unchanged w w' -> fresh_for w' l -> fresh_for w l.
Proof.
  unfold fresh_for. intros U Hl. destruct (World.objects w !! l) as [o|] eqn:E; [|reflexivity].
  apply U in E. congruence.
Qed.

(** [Array.prototype.map] with a clone method: every element is cloned, in
    order, into a new object; [N] is what else is known of a clone, in terms
    of the world before the call and the world after it. *)
Lemma mapA_clone_with {A : Type} (P : World.t -> loc -> A -> Prop)
    (N : World.t -> World.t -> loc -> Prop) (f : loc -> M loc) (g : A -> A) :
  (forall w w' l a, unchanged w w' -> P w l a -> P w' l a) ->
  (forall w0 w w' l, unchanged w w' -> N w0 w l -> N w0 w' l) ->
  (forall w0 w0' w l, unchanged w0 w0' -> N w0' w l -> N w0 w l) ->
  (forall w l a,
      P w l a ->
      exists c w',
        f l w = (Return c, w') /\ unchanged w w' /\ World.canvas w' = World.canvas w /\
        fresh_for w c /\ (exists o, holds w' c o) /\ P w' c (g a) /\ N w w' c) ->
  forall ls xs w,
    Forall2 (P w) ls xs ->
    exists cs w',
      mapA f ls w = (Return cs, w') /\ unchanged w w' /\ World.canvas w' = World.canvas w /\
      Forall (fresh_for w) cs /\ NoDup cs /\ Forall2 (P w') cs (g <$> xs) /\
      Forall (N w w') cs.
Proof.
  intros Hmono Nmono Nbase Hf. induction ls as [|l ls IH]; intros xs w Hat.
  - apply Forall2_nil_inv_l in Hat. subst xs. exists [], w.
    split; [reflexivity|]. split; [apply unchanged_refl|]. split; [reflexivity|].
    split; [constructor|]. split; [constructor|]. split; constructor.
  - apply Forall2_cons_inv_l in Hat as (a & xs' & Ha & Hrest & ->).
    destruct (Hf w l a Ha) as (c & w1 & Hrun & U1 & Hc1 & Fc & (o & Ho) & Pc & Nc).
    destruct (IH xs' w1) as (cs & w' & Hrun' & U' & Hc' & Fcs & Ncs & Pcs & Ns).
    { eapply Forall2_impl; [exact Hrest|]. intros l' a'. apply Hmono, U1. }
    exists (c :: cs), w'. split; [|split; [|split; [|split; [|split; [|split]]]]].
    + simpl mapA. rewrite (bind_return _ _ _ _ _ Hrun), (bind_return _ _ _ _ _ Hrun').
      reflexivity.
    + eapply unchanged_trans; eassumption.
    + rewrite Hc', Hc1. reflexivity.
    + constructor; [exact Fc|].
      eapply Forall_impl; [exact Fcs|]. intros l'. apply fresh_for_unchanged, U1.
    + constructor; [|exact Ncs]. intros Hin.
      rewrite Forall_forall in Fcs. specialize (Fcs c Hin).
      unfold fresh_for in Fcs. unfold holds in Ho. congruence.
    + simpl. constructor; [apply (Hmono w1 w'); assumption | exact Pcs].
    + constructor; [apply (Nmono w w1 w'); assumption|].
      eapply Forall_impl; [exact Ns|]. intros l'. apply Nbase, U1.
Qed.

Lemma mapA_clone {A : Type} (P : World.t -> loc -> A -> Prop) (f : loc -> M loc) (g : A -> A) :
  (forall w w' l a, unchanged w w' -> P w l a -> P w' l a) ->
  (forall w l a,
      P w l a ->
      exists c w',
        f l w = (Return c, w') /\ unchanged w w' /\ World.canvas w' = World.canvas w /\
        fresh_for w c /\ (exists o, holds w' c o) /\ P w' c (g a)) ->
  forall ls xs w,
    Forall2 (P w) ls xs ->
    exists cs w',
      mapA f ls w = (Return cs, w') /\ unchanged w w' /\ World.canvas w' = World.canvas w /\
      Forall (fresh_for w) cs /\ NoDup cs /\ Forall2 (P w') cs (g <$> xs).
Proof.
  intros Hmono Hf ls xs w Hat.
  destruct (mapA_clone_with P (fun _ _ _ => True) f g Hmono
              (fun _ _ _ _ _ H => H) (fun _ _ _ _ _ H => H)) with (ls := ls) (xs := xs) (w := w)
    as (cs & w' & Hrun & U & Hc & F & Nd & K & _); [|exact Hat|].
  - intros w1 l a Ha. destruct (Hf w1 l a Ha) as (c & w2 & H).
    exists c, w2. repeat (split; [apply H|]). exact I.
  - exists cs, w'. repeat (split; [assumption|]). exact K.
Qed.

Lemma edgeOnNewVertexes_unchanged (w0 w w' : World.t) (l : loc) :
  unchanged w w' -> edgeOnNewVertexes w0 w l -> edgeOnNewVertexes w0 w' l.
Proof. intros U (eo & He & F). exists eo. split; [apply U, He | exact F]. Qed.

Lemma edgeOnNewVertexes_base (w0 w0' w : World.t) (l : loc) :
  unchanged w0 w0' -> edgeOnNewVertexes w0' w l -> edgeOnNewVertexes w0 w l.
Proof.
  intros U (eo & He & F1 & F2). exists eo. split; [exact He|].
  split; apply (fresh_for_unchanged w0 w0'); assumption.
Qed.

Lemma faceOnNewVertexes_unchanged (w0 w w' : World.t) (l : loc) :
  unchanged w w' -> faceOnNewVertexes w0 w l -> faceOnNewVertexes w0 w' l.
Proof. intros U (fo & Hf & F). exists fo. split; [apply U, Hf | exact F]. Qed.

Lemma faceOnNewVertexes_base (w0 w0' w : World.t) (l : loc) :
  unchanged w0 w0' -> faceOnNewVertexes w0' w l -> faceOnNewVertexes w0 w l.
Proof.
  intros U (fo & Hf & F1 & F2 & F3). exists fo. split; [exact Hf|].
  repeat split; apply (fresh_for_unchanged w0 w0'); assumption.
Qed.

Lemma Vertex_getClone_at (w : World.t) (l : loc) (v : Vertex.t) :
  vertexAt w l v ->
  exists c w',
    Ref.Vertex_getClone l w = (Return c, w') /\ unchanged w w' /\
    World.canvas w' = World.canvas w /\ fresh_for w c /\ (exists o, holds w' c o) /\
    vertexAt w' c (Vertex.getClone v).
Proof.
  intros Hv. destruct (Vertex_getClone_run l v w Hv) as (c & Fc & Hrun).
  exists c. eexists. split; [exact Hrun|]. split; [apply unchanged_insert_fresh, Fc|].
  split; [reflexivity|]. split; [exact Fc|].
  split; [eexists; apply holds_insert_eq | apply holds_insert_eq].
Qed.

Lemma Edge_getClone_at (w : World.t) (l : loc) (e : Edge.t) :
  edgeAt w l e ->
  exists c w',
    Ref.Edge_getClone l w = (Return c, w') /\ unchanged w w' /\
    World.canvas w' = World.canvas w /\ fresh_for w c /\ (exists o, holds w' c o) /\
    edgeAt w' c (Edge.getClone e) /\ edgeOnNewVertexes w w' c.
Proof.
  intros (eo & He & H1 & H2 & Hv & Hl).
  destruct (Edge_getClone_run l eo _ _ w He H1 H2)
    as (c & co & w' & Hrun & U & Hc & Fc & Fc1 & Fc2 & Kc & K1 & K2 & Hval).
  exists c, w'. split; [exact Hrun|]. split; [exact U|]. split; [exact Hc|].
  split; [exact Fc|].
  rewrite (Edge_value_run c co _ _ _ Kc K1 K2) in Hval.
  assert (E : Edge.getClone e
              = Edge.mk (Vertex.getClone (Edge.vertex1 e)) (Vertex.getClone (Edge.vertex2 e))
                        (EdgeObj.vector co) (EdgeObj.line co)).
  { change (Edge.getClone (Edge.mk _ _ _ _)) with (Edge.getClone e) in Hval. congruence. }
  split; [exists (OEdge co); exact Kc|]. split.
  - exists co. rewrite E. simpl. repeat (split; [assumption|]). split; reflexivity.
  - exists co. split; [exact Kc|]. split; assumption.
Qed.

Lemma Light_getClone_at (w : World.t) (l : loc) (o : Light.t) :
  lightAt w l o ->
  exists c w',
    Ref.Light_getClone l w = (Return c, w') /\ unchanged w w' /\
    World.canvas w' = World.canvas w /\ fresh_for w c /\ (exists o, holds w' c o) /\
    lightAt w' c (Light.getClone o).
Proof.
  intros Ho. unfold Ref.Light_getClone.
  assert (Hload : loadLight l w = (Return o, w)).
  { unfold loadLight. unfold lightAt, holds in Ho. rewrite Ho. reflexivity. }
  rewrite (bind_return _ _ _ _ _ Hload).
  destruct (alloc_run (OLight (Light.getClone o)) w) as (c & Fc & Hrun).
  exists c. eexists. split; [exact Hrun|]. split; [apply unchanged_insert_fresh, Fc|].
  split; [reflexivity|]. split; [exact Fc|].
  split; [eexists; apply holds_insert_eq | apply holds_insert_eq].
Qed.

Lemma Face_getClone_at (w : World.t) (l : loc) (f : Face.t) :
  faceAt w l f ->
  exists c w',
    Ref.Face_getClone l w = (Return c, w') /\ unchanged w w' /\
    World.canvas w' = World.canvas w /\ fresh_for w c /\ (exists o, holds w' c o) /\
    faceAt w' c (Face.getClone f) /\ faceOnNewVertexes w w' c.
Proof.
  intros (fo & Hf & H1 & H2 & H3 & E). unfold Ref.Face_getClone.
  assert (Hload : loadFace l w = (Return fo, w)).
  { unfold loadFace. unfold holds in Hf. rewrite Hf. reflexivity. }
  rewrite (bind_return _ _ _ _ _ Hload).
  destruct (Vertex_getClone_at w _ _ H1) as (c1 & w1 & R1 & U1 & C1 & F1 & _ & K1).
  rewrite (bind_return _ _ _ _ _ R1).
  destruct (Vertex_getClone_at w1 _ _ (U1 _ _ H2)) as (c2 & w2 & R2 & U2 & C2 & F2 & _ & K2).
  rewrite (bind_return _ _ _ _ _ R2).
  destruct (Vertex_getClone_at w2 _ _ (U2 _ _ (U1 _ _ H3)))
    as (c3 & w3 & R3 & U3 & C3 & F3 & _ & K3).
  rewrite (bind_return _ _ _ _ _ R3).
  unfold Ref.Face_new.
  assert (L1 : holds w3 c1 (OVertex (Vertex.getClone (Face.vertex1 f)))) by (apply U3, U2, K1).
  assert (L2 : holds w3 c2 (OVertex (Vertex.getClone (Face.vertex2 f)))) by (apply U3, K2).
  rewrite (bind_return _ _ _ _ _ (loadVertex_run _ _ _ L1)).
  rewrite (bind_return _ _ _ _ _ (loadVertex_run _ _ _ L2)).
  rewrite (bind_return _ _ _ _ _ (loadVertex_run _ _ _ K3)).
  match goal with
  | |- context [alloc ?o w3] => destruct (alloc_run o w3) as (c & Fc & Hrun)
  end.
  exists c. eexists. split; [exact Hrun|].
  assert (U12 : unchanged w w2) by (eapply unchanged_trans; eassumption).
  assert (U : unchanged w w3) by (eapply unchanged_trans; eassumption).
  split; [eapply unchanged_trans; [exact U | apply unchanged_insert_fresh, Fc]|].
  split; [simpl; rewrite C3, C2, C1; reflexivity|].
  split; [apply (fresh_for_unchanged w w3); assumption|].
  split; [eexists; apply holds_insert_eq|]. split.
  - eexists. split; [apply holds_insert_eq|]. simpl.
    split; [apply holds_insert_fresh; assumption|].
    split; [apply holds_insert_fresh; assumption|].
    split; [apply holds_insert_fresh; assumption|].
    rewrite E at 1. reflexivity.
  - eexists. split; [apply holds_insert_eq|]. simpl.
    split; [exact F1|].
    split; [apply (fresh_for_unchanged w w1); assumption|].
    apply (fresh_for_unchanged w w2); assumption.
Qed.

Lemma Camera_importShapes_run (this : Camera.t) (w : World.t)
    (vs : list Vertex.t) (es : list Edge.t) (fs : list Face.t) (lts : list Light.t) :
  Forall2 (vertexAt w) (Camera.vertexes this) vs ->
  Forall2 (edgeAt w) (Camera.edges this) es ->
  Forall2 (faceAt w) (Camera.faces this) fs ->
  Forall2 (lightAt w) (Camera.lights this) lts ->
  exists iv ie ifs il w',
    Camera.importShapes this w = (Return (Camera.set_imported this iv ie ifs il), w') /\
    unchanged w w' /\ World.canvas w' = World.canvas w /\
    Forall (fresh_for w) (iv ++ ie ++ ifs ++ il) /\
    (NoDup iv /\ NoDup ie /\ NoDup ifs /\ NoDup il) /\
    Forall2 (vertexAt w') iv (Vertex.getClone <$> vs) /\
    Forall2 (edgeAt w') ie (Edge.getClone <$> es) /\
    Forall2 (faceAt w') ifs (Face.getClone <$> fs) /\
    Forall2 (lightAt w') il (Light.getClone <$> lts) /\
    Forall (edgeOnNewVertexes w w') ie /\
    Forall (faceOnNewVertexes w w') ifs.
Proof.
  intros Hv He Hf Hl. unfold Camera.importShapes.
  destruct (mapA_clone vertexAt Ref.Vertex_getClone Vertex.getClone
              (fun w w' l a U => vertexAt_unchanged w w' l a U) Vertex_getClone_at
              (Camera.vertexes this) vs w Hv)
    as (iv & w1 & R1 & U1 & C1 & F1 & N1 & K1).
  rewrite (bind_return _ _ _ _ _ R1).
  destruct (mapA_clone_with edgeAt edgeOnNewVertexes Ref.Edge_getClone Edge.getClone
              (fun w w' l a U => edgeAt_unchanged w w' l a U)
              edgeOnNewVertexes_unchanged edgeOnNewVertexes_base Edge_getClone_at
              (Camera.edges this) es w1)
    as (ie & w2 & R2 & U2 & C2 & F2 & N2 & K2 & E2).
  { eapply Forall2_impl; [exact He|]. intros l a. apply edgeAt_unchanged, U1. }
  rewrite (bind_return _ _ _ _ _ R2).
  assert (U12 : unchanged w w2) by (eapply unchanged_trans; eassumption).
  destruct (mapA_clone_with faceAt faceOnNewVertexes Ref.Face_getClone Face.getClone
              (fun w w' l a U => faceAt_unchanged w w' l a U)
              faceOnNewVertexes_unchanged faceOnNewVertexes_base Face_getClone_at
              (Camera.faces this) fs w2)
    as (ifs & w3 & R3 & U3 & C3 & F3 & N3 & K3 & E3).
  { eapply Forall2_impl; [exact Hf|]. intros l a. apply faceAt_unchanged, U12. }
  rewrite (bind_return _ _ _ _ _ R3).
  assert (U13 : unchanged w w3) by (eapply unchanged_trans; eassumption).
  destruct (mapA_clone lightAt Ref.Light_getClone Light.getClone
              (fun w w' l a U => lightAt_unchanged w w' l a U) Light_getClone_at
              (Camera.lights this) lts w3)
    as (il & w4 & R4 & U4 & C4 & F4 & N4 & K4).
  { eapply Forall2_impl; [exact Hl|]. intros l a. apply lightAt_unchanged, U13. }
  rewrite (bind_return _ _ _ _ _ R4).
  assert (U24 : unchanged w2 w4) by (eapply unchanged_trans; eassumption).
  exists iv, ie, ifs, il, w4. split; [reflexivity|].
  split; [eapply unchanged_trans; eassumption|].
  split; [rewrite C4, C3, C2, C1; reflexivity|].
  split.
  { rewrite !Forall_app. split; [exact F1|]. split; [|split].
    - eapply Forall_impl; [exact F2|]. intros l. apply fresh_for_unchanged, U1.
    - eapply Forall_impl; [exact F3|]. intros l. apply fresh_for_unchanged, U12.
    - eapply Forall_impl; [exact F4|]. intros l. apply fresh_for_unchanged, U13. }
  split; [repeat split; assumption|].
  split.
  { eapply Forall2_impl; [exact K1|]. intros l a. apply vertexAt_unchanged.
    eapply unchanged_trans; [exact U2|]. exact U24. }
  split.
  { eapply Forall2_impl; [exact K2|]. intros l a. apply edgeAt_unchanged, U24. }
  split.
  { eapply Forall2_impl; [exact K3|]. intros l a. apply faceAt_unchanged, U4. }
  split; [exact K4|]. split.
  - eapply Forall_impl; [exact E2|]. intros l H.
    apply (edgeOnNewVertexes_base w w1); [exact U1|].
    apply (edgeOnNewVertexes_unchanged w1 w2 w4); assumption.
  - eapply Forall_impl; [exact E3|]. intros l H.
    apply (faceOnNewVertexes_base w w2); [exact U12|].
    apply (faceOnNewVertexes_unchanged w2 w3 w4); assumption.
Qed.

Lemma MainCamera_importShapes_run (this : MainCamera.t) (vertexesList edges : list loc)
    (w : World.t) (vs : list Vertex.t) (es : list Edge.t) :
  Forall2 (vertexAt w) vertexesList vs ->
  Forall2 (edgeAt w) edges es ->
  exists iv ie w',
    MainCamera.importShapes this vertexesList edges w
    = (Return (MainCamera.set_imported this iv ie), w') /\
    unchanged w w' /\ World.canvas w' = World.canvas w /\
    Forall (fresh_for w) (iv ++ ie) /\
    (NoDup iv /\ NoDup ie) /\
    Forall2 (vertexAt w') iv (Vertex.getClone <$> vs) /\
    Forall2 (edgeAt w') ie (Edge.getClone <$> es) /\
    Forall (edgeOnNewVertexes w w') ie.
Proof.
  intros Hv He. unfold MainCamera.importShapes.
  destruct (mapA_clone vertexAt Ref.Vertex_getClone Vertex.getClone
              (fun w w' l a U => vertexAt_unchanged w w' l a U) Vertex_getClone_at
              vertexesList vs w Hv)
    as (iv & w1 & R1 & U1 & C1 & F1 & N1 & K1).
  rewrite (bind_return _ _ _ _ _ R1).
  destruct (mapA_clone_with edgeAt edgeOnNewVertexes Ref.Edge_getClone Edge.getClone
              (fun w w' l a U => edgeAt_unchanged w w' l a U)
              edgeOnNewVertexes_unchanged edgeOnNewVertexes_base Edge_getClone_at
              edges es w1)
    as (ie & w2 & R2 & U2 & C2 & F2 & N2 & K2 & E2).
  { eapply Forall2_impl; [exact He|]. intros l a. apply edgeAt_unchanged, U1. }
  rewrite (bind_return _ _ _ _ _ R2).
  exists iv, ie, w2. split; [reflexivity|].
  split; [eapply unchanged_trans; eassumption|].
  split; [rewrite C2, C1; reflexivity|].
  split.
  { rewrite Forall_app. split; [exact F1|].
    eapply Forall_impl; [exact F2|]. intros l. apply fresh_for_unchanged, U1. }
  split; [split; assumption|].
  split.
  { eapply Forall2_impl; [exact K1|]. intros l a. apply vertexAt_unchanged, U2. }
  split; [exact K2|].
  eapply Forall_impl; [exact E2|]. intros l. apply edgeOnNewVertexes_base, U1.
Qed.

(** X19: [importShapes] on a store that holds the scene.  For the camera
    of camera.js, with its lists of vertices, edges, faces and lights, and
    for the camera of main.js, with the two global lists: the call returns,
    leaves every object as it was and draws nothing; each imported list has
    one new object for each object of the scene, in the same order and
    without repetition, whose value is the clone of that object; and the
    Vertex objects that an imported edge or face refers to are new objects
    too, not the Vertex objects of the scene. *)
Theorem importShapes_clones :
  (forall (this : Camera.t) (w : World.t) vs es fs lts,
      Forall2 (vertexAt w) (Camera.vertexes this) vs ->
      Forall2 (edgeAt w) (Camera.edges this) es ->
      Forall2 (faceAt w) (Camera.faces this) fs ->
      Forall2 (lightAt w) (Camera.lights this) lts ->
      exists iv ie ifs il w',
        Camera.importShapes this w = (Return (Camera.set_imported this iv ie ifs il), w') /\
        unchanged w w' /\ World.canvas w' = World.canvas w /\
        Forall (fresh_for w) (iv ++ ie ++ ifs ++ il) /\
        (NoDup iv /\ NoDup ie /\ NoDup ifs /\ NoDup il) /\
        Forall2 (vertexAt w') iv (Vertex.getClone <$> vs) /\
        Forall2 (edgeAt w') ie (Edge.getClone <$> es) /\
        Forall2 (faceAt w') ifs (Face.getClone <$> fs) /\
        Forall2 (lightAt w') il (Light.getClone <$> lts) /\
        Forall (edgeOnNewVertexes w w') ie /\
        Forall (faceOnNewVertexes w w') ifs) /\
  (forall (this : MainCamera.t) (vertexesList edges : list loc) (w : World.t) vs es,
      Forall2 (vertexAt w) vertexesList vs ->
      Forall2 (edgeAt w) edges es ->
      exists iv ie w',
        MainCamera.importShapes this vertexesList edges w
        = (Return (MainCamera.set_imported this iv ie), w') /\
        unchanged w w' /\ World.canvas w' = World.canvas w /\
        Forall (fresh_for w) (iv ++ ie) /\
        (NoDup iv /\ NoDup ie) /\
        Forall2 (vertexAt w') iv (Vertex.getClone <$> vs) /\
        Forall2 (edgeAt w') ie (Edge.getClone <$> es) /\
        Forall (edgeOnNewVertexes w w') ie).
Proof. split; [exact Camera_importShapes_run | exact MainCamera_importShapes_run]. Qed.

Lemma importShapes_clones_witness :
  exists iv ie w',
    MainCamera.importShapes mainCamera0 [1%positive; 2%positive] [3%positive] cubeWorld
    = (Return (MainCamera.set_imported mainCamera0 iv ie), w') /\
    Forall2 (vertexAt w') iv [cubeVertex1; cubeVertex2] /\
    Forall2 (edgeAt w') ie [cubeEdge] /\
    Forall (edgeOnNewVertexes cubeWorld w') ie.
Proof.
  destruct (proj2 importShapes_clones mainCamera0 [1%positive; 2%positive] [3%positive]
              cubeWorld [cubeVertex1; cubeVertex2] [cubeEdge])
    as (iv & ie & w' & Hrun & _ & _ & _ & _ & Hv & He & Hnew).
  - constructor; [reflexivity|]. constructor; [reflexivity|]. constructor.
  - constructor; [|constructor]. exists cubeEdgeObj. repeat split.
  - exists iv, ie, w'. split; [exact Hrun|]. split; [exact Hv|]. split; [exact He | exact Hnew].
Defined.

(** ** A frame of main.js *)

Lemma edgeAt_loads (w : World.t) (l : loc) (e : Edge.t) :
  edgeAt w l e ->
  exists eo,
    loadEdge l w = (Return eo, w) /\
    loadVertex (EdgeObj.vertex1 eo) w = (Return (Edge.vertex1 e), w) /\
    loadVertex (EdgeObj.vertex2 eo) w = (Return (Edge.vertex2 e), w) /\
    holds w (EdgeObj.vertex1 eo) (OVertex (Edge.vertex1 e)) /\
    holds w (EdgeObj.vertex2 eo) (OVertex (Edge.vertex2 e)).
Proof.
  intros (eo & He & H1 & H2 & _). exists eo.
  split; [apply loadEdge_run, He|]. split; [apply loadVertex_run, H1|].
  split; [apply loadVertex_run, H2|]. split; assumption.
Qed.

(** The Edge value read at a reference is the value of the Edge object
    there. *)
Lemma Edge_value_edgeAt (w : World.t) (l : loc) (e : Edge.t) :
  Ref.Edge_value l w = (Return e, w) -> edgeAt w l e.
Proof.
  unfold Ref.Edge_value. rewrite bind_run. unfold loadEdge at 1.
  destruct (World.objects w !! l) as [[| eo | |]|] eqn:El; try discriminate.
  rewrite bind_run. unfold loadVertex at 1.
  destruct (World.objects w !! EdgeObj.vertex1 eo) as [[v1 | | |]|] eqn:E1; try discriminate.
  rewrite bind_run. unfold loadVertex at 1.
  destruct (World.objects w !! EdgeObj.vertex2 eo) as [[v2 | | |]|] eqn:E2; try discriminate.
  intros [= <-]. exists eo. repeat split; assumption.
Qed.

(** One turn of the loop over the edges of main.js. *)
Lemma MainCamera_drawEdges_turn (this : MainCamera.t) (l : loc) (e : Edge.t) (w : World.t) :
  edgeAt w l e ->
  exists w',
    (Ref.Edge_setVertexInFrontOfCamera l (MainCamera.plane this);;
     e ← loadEdge l;
     v1 ← loadVertex (EdgeObj.vertex1 e);
     v2 ← loadVertex (EdgeObj.vertex2 e);
     if negb (MainCamera.isVertexInFrontOf (MainCamera.plane this) v1)
        && negb (MainCamera.isVertexInFrontOf (MainCamera.plane this) v2)
     then mret tt
     else
       c1 ← Ref.Vertex_getClone (EdgeObj.vertex1 e);
       c2 ← Ref.Vertex_getClone (EdgeObj.vertex2 e);
       vertex1 ← loadVertex c1;
       vertex2 ← loadVertex c2;
       match MainCamera.getOnScreenVertex this vertex1,
             MainCamera.getOnScreenVertex this vertex2 with
       | Some onScreenVertex1, Some onScreenVertex2 =>
           let toDrawVertex1 := MainCamera.getToDrawVertex this onScreenVertex1 in
           let toDrawVertex2 := MainCamera.getToDrawVertex this onScreenVertex2 in
           draw (drawLine con (XY.x toDrawVertex1) (XY.y toDrawVertex1)
                              (XY.x toDrawVertex2) (XY.y toDrawVertex2))
       | _, _ => mret tt
       end) w
    = (Return tt, w') /\
    World.canvas w' = World.canvas w ++ MainCamera_edgeCalls this e /\
    (forall l' o, holds w l' o -> l' <> l -> holds w' l' o) /\
    edgeAt w' l (fst (Edge.setVertexInFrontOfCamera e (MainCamera.plane this))).
Proof.
  intros (eo & He & H1 & H2 & Hv & Hl).
  destruct (Edge_setVertexInFrontOfCamera_run l eo _ _ (MainCamera.plane this) w He H1 H2)
    as (r & w1 & Hrun & Hc1 & _ & Hk & Hthis & _).
  assert (E : Edge.mk (Edge.vertex1 e) (Edge.vertex2 e) (EdgeObj.vector eo) (EdgeObj.line eo) = e).
  { rewrite <- Hv, <- Hl. destruct e; reflexivity. }
  cbv zeta in Hthis. rewrite E in Hthis.
  set (e1 := fst (Edge.setVertexInFrontOfCamera e (MainCamera.plane this))) in *.
  pose proof (Edge_value_edgeAt _ _ _ Hthis) as Hat1.
  destruct (edgeAt_loads _ _ _ Hat1) as (eo1 & L0 & L1 & L2 & K1 & K2).
  rewrite (bind_return _ _ _ _ _ Hrun).
  rewrite (bind_return _ _ _ _ _ L0), (bind_return _ _ _ _ _ L1), (bind_return _ _ _ _ _ L2).
  unfold MainCamera_edgeCalls. fold e1.
  destruct (negb (MainCamera.isVertexInFrontOf (MainCamera.plane this) (Edge.vertex1 e1))
            && negb (MainCamera.isVertexInFrontOf (MainCamera.plane this) (Edge.vertex2 e1))).
  - exists w1. split; [reflexivity|]. split; [rewrite Hc1, app_nil_r; reflexivity|].
    split; [exact Hk | exact Hat1].
  - destruct (Vertex_getClone_at w1 _ _ K1) as (c1 & w2 & R1 & U1 & C1 & F1 & _ & G1).
    rewrite (bind_return _ _ _ _ _ R1).
    destruct (Vertex_getClone_at w2 _ _ (U1 _ _ K2)) as (c2 & w3 & R2 & U2 & C2 & F2 & _ & G2).
    rewrite (bind_return _ _ _ _ _ R2).
    rewrite (bind_return _ _ _ _ _ (loadVertex_run _ _ _ (U2 _ _ G1))).
    rewrite (bind_return _ _ _ _ _ (loadVertex_run _ _ _ G2)).
    assert (U : unchanged w1 w3) by (eapply unchanged_trans; eassumption).
    destruct (MainCamera.getOnScreenVertex this (Vertex.getClone (Edge.vertex1 e1))) as [o1|];
      [destruct (MainCamera.getOnScreenVertex this (Vertex.getClone (Edge.vertex2 e1))) as [o2|]|].
    + eexists. split; [reflexivity|]. simpl. split; [rewrite C2, C1, Hc1; reflexivity|].
      split; [intros l' o Hl' Hne; apply U, Hk; assumption|].
      apply (edgeAt_unchanged w1); [|exact Hat1]. intros l' o Hl'. apply U, Hl'.
    + exists w3. split; [reflexivity|]. split; [rewrite C2, C1, Hc1, app_nil_r; reflexivity|].
      split; [intros l' o Hl' Hne; apply U, Hk; assumption|].
      apply (edgeAt_unchanged w1); assumption.
    + exists w3. split; [reflexivity|]. split; [rewrite C2, C1, Hc1, app_nil_r; reflexivity|].
      split; [intros l' o Hl' Hne; apply U, Hk; assumption|].
      apply (edgeAt_unchanged w1); assumption.
Qed.

Lemma Forall2_impl_elem {A B : Type} (P Q : A -> B -> Prop) (l : list A) (k : list B) :
  Forall2 P l k -> (forall a b, a ∈ l -> P a b -> Q a b) -> Forall2 Q l k.
Proof.
  induction 1 as [|a b l k Hab _ IH]; intros H; constructor.
  - apply H; [left | exact Hab].
  - apply IH. intros a' b' Hin. apply H. right. exact Hin.
Qed.

(** A reference that holds a Vertex is not one of the references of a list
    of edges. *)
Lemma vertex_not_edge (w : World.t) (ls : list loc) (es : list Edge.t) (x : loc) (v : Vertex.t) :
  Forall2 (edgeAt w) ls es -> holds w x (OVertex v) -> x ∉ ls.
Proof.
  intros Hat Hx. induction Hat as [|l e ls es (eo & He & _) _ IH].
  - apply not_elem_of_nil.
  - apply not_elem_of_cons. split; [|exact IH].
    intros ->. unfold holds in *. congruence.
Qed.

(** An edge of the store is as it was when another Edge object has been
    written to. *)
Lemma edgeAt_other (w w' : World.t) (l l' : loc) (e0 e : Edge.t) :
  edgeAt w l e0 ->
  (forall x o, holds w x o -> x <> l -> holds w' x o) ->
  l' <> l -> edgeAt w l' e -> edgeAt w' l' e.
Proof.
  intros (eo0 & He0 & _) Hk Hne (eo & He & H1 & H2 & Hv & Hl). exists eo.
  split; [apply Hk; assumption|].
  split; [apply Hk; [exact H1 | apply (holds_distinct w _ _ _ _ He0 H1)]|].
  split; [apply Hk; [exact H2 | apply (holds_distinct w _ _ _ _ He0 H2)]|].
  split; assumption.
Qed.

(** A loop over Edge objects whose turns write to the edge at hand
    only. *)
Lemma forOf_edges_in_place (body : loc -> M unit) (calls : Edge.t -> list DrawCall)
    (after : Edge.t -> Edge.t) :
  (forall l e w,
      edgeAt w l e ->
      exists w',
        body l w = (Return tt, w') /\
        World.canvas w' = World.canvas w ++ calls e /\
        (forall x o, holds w x o -> x <> l -> holds w' x o) /\
        edgeAt w' l (after e)) ->
  forall ls,
    NoDup ls ->
    forall es w,
      Forall2 (edgeAt w) ls es ->
      exists w',
        forOf ls body w = (Return tt, w') /\
        World.canvas w' = World.canvas w ++ concat (calls <$> es) /\
        (forall x o, holds w x o -> x ∉ ls -> holds w' x o) /\
        Forall2 (edgeAt w') ls (after <$> es).
Proof.
  intros Hturn ls Hnd. induction Hnd as [|l ls Hnin Hnd IH]; intros es w Hat.
  - apply Forall2_nil_inv_l in Hat. subst es. exists w. split; [reflexivity|].
    split; [simpl; rewrite app_nil_r; reflexivity|]. split; [auto|]. constructor.
  - apply Forall2_cons_inv_l in Hat as (e & es' & He & Hrest & ->).
    destruct (Hturn l e w He) as (w1 & Hrun & Hc1 & Hk1 & Hat1).
    assert (Hrest1 : Forall2 (edgeAt w1) ls es').
    { eapply Forall2_impl_elem; [exact Hrest|]. intros l' e' Hin.
      apply (edgeAt_other w w1 l l' e e' He Hk1). intros ->. contradiction. }
    destruct (IH es' w1 Hrest1) as (w' & Hrun' & Hc' & Hk' & Hat').
    exists w'. split; [|split; [|split]].
    + rewrite forOf_cons, (bind_return _ _ _ _ _ Hrun). exact Hrun'.
    + rewrite Hc', Hc1. simpl. rewrite app_assoc. reflexivity.
    + intros x o Hx Hnx. apply not_elem_of_cons in Hnx as [Hne Hnx].
      apply Hk'; [apply Hk1; assumption | exact Hnx].
    + simpl. constructor; [|exact Hat'].
      destruct Hat1 as (eo1 & Ke & K1 & K2 & Kv & Kl). exists eo1.
      split; [apply Hk'; assumption|].
      split; [apply Hk'; [exact K1 | apply (vertex_not_edge w1 ls es' _ _ Hrest1 K1)]|].
      split; [apply Hk'; [exact K2 | apply (vertex_not_edge w1 ls es' _ _ Hrest1 K2)]|].
      split; assumption.
Qed.

(** The loop over the imported edges of main.js: every edge is clipped in
    place, and the segments are handed to the rasterizer in the order of
    the edges. *)
Lemma MainCamera_drawEdges_loop (this : MainCamera.t) (w : World.t) (es : list Edge.t) :
  NoDup (MainCamera.importedEdges this) ->
  Forall2 (edgeAt w) (MainCamera.importedEdges this) es ->
  exists w',
    MainCamera.drawEdges this w = (Return tt, w') /\
    World.canvas w' = World.canvas w ++ concat (MainCamera_edgeCalls this <$> es) /\
    (forall x o, holds w x o -> x ∉ MainCamera.importedEdges this -> holds w' x o) /\
    Forall2 (edgeAt w') (MainCamera.importedEdges this)
            ((fun e => fst (Edge.setVertexInFrontOfCamera e (MainCamera.plane this))) <$> es).
Proof.
  intros Hnd Hat. unfold MainCamera.drawEdges.
  apply (forOf_edges_in_place _ (MainCamera_edgeCalls this)
           (fun e => fst (Edge.setVertexInFrontOfCamera e (MainCamera.plane this))));
    [|exact Hnd|exact Hat].
  intros l e w0 He. exact (MainCamera_drawEdges_turn this l e w0 He).
Qed.

(** A loop that reads Vertex objects and draws. *)
Lemma forOf_vertexes (body : loc -> M unit) (calls : Vertex.t -> list DrawCall) :
  (forall l v w,
      vertexAt w l v ->
      body l w = (Return tt, World.mk (World.objects w) (World.canvas w ++ calls v))) ->
  forall ls vs w,
    Forall2 (vertexAt w) ls vs ->
    forOf ls body w
    = (Return tt, World.mk (World.objects w) (World.canvas w ++ concat (calls <$> vs))).
Proof.
  intros Hturn. induction ls as [|l ls IH]; intros vs w Hat.
  - apply Forall2_nil_inv_l in Hat. subst vs. simpl. rewrite app_nil_r.
    destruct w; reflexivity.
  - apply Forall2_cons_inv_l in Hat as (v & vs' & Hv & Hrest & ->).
    rewrite forOf_cons, (bind_return _ _ _ _ _ (Hturn l v w Hv)).
    rewrite (IH vs' (World.mk (World.objects w) _) Hrest).
    simpl. rewrite <- app_assoc. reflexivity.
Qed.

Lemma forOf_edges (body : loc -> M unit) (calls : Edge.t -> list DrawCall) :
  (forall l e w,
      edgeAt w l e ->
      body l w = (Return tt, World.mk (World.objects w) (World.canvas w ++ calls e))) ->
  forall ls es w,
    Forall2 (edgeAt w) ls es ->
    forOf ls body w
    = (Return tt, World.mk (World.objects w) (World.canvas w ++ concat (calls <$> es))).
Proof.
  intros Hturn. induction ls as [|l ls IH]; intros es w Hat.
  - apply Forall2_nil_inv_l in Hat. subst es. simpl. rewrite app_nil_r.
    destruct w; reflexivity.
  - apply Forall2_cons_inv_l in Hat as (e & es' & He & Hrest & ->).
    rewrite forOf_cons, (bind_return _ _ _ _ _ (Hturn l e w He)).
    rewrite (IH es' (World.mk (World.objects w) _) Hrest).
    simpl. rewrite <- app_assoc. reflexivity.
Qed.

Lemma MainCamera_drawVertexes_run (this : MainCamera.t) (w : World.t) (vs : list Vertex.t) :
  Forall2 (vertexAt w) (MainCamera.importedVertexes this) vs ->
  MainCamera.drawVertexes this w
  = (Return tt, World.mk (World.objects w)
                         (World.canvas w ++ concat (MainCamera_vertexCalls this <$> vs))).
Proof.
  intros Hat. unfold MainCamera.drawVertexes.
  apply (forOf_vertexes _ (MainCamera_vertexCalls this)); [|exact Hat].
  intros l v w0 Hv. rewrite (bind_return _ _ _ _ _ (loadVertex_run l v w0 Hv)).
  unfold MainCamera_vertexCalls.
  destruct (negb (MainCamera.isVertexInFrontOf (MainCamera.plane this) v)).
  - rewrite app_nil_r. destruct w0; reflexivity.
  - destruct (MainCamera.getOnScreenVertex this v) as [o|].
    + cbv zeta. rewrite bind_run. unfold draw. simpl. rewrite <- app_assoc. reflexivity.
    + rewrite app_nil_r. destruct w0; reflexivity.
Qed.

Lemma concat_fmap_singleton {A B : Type} (f : A -> B) (l : list A) :
  concat ((fun x => [f x]) <$> l) = f <$> l.
Proof. induction l as [|a l IH]; [reflexivity | simpl; f_equal; exact IH]. Qed.

Lemma MainCamera_drawTopView_run (this : MainCamera.t) (vertexesList edges : list loc)
    (can2_width : R) (w : World.t) (vs : list Vertex.t) (es : list Edge.t) :
  Forall2 (vertexAt w) vertexesList vs ->
  Forall2 (edgeAt w) edges es ->
  MainCamera.drawTopView this vertexesList edges can2_width w
  = (Return tt, World.mk (World.objects w)
                         (World.canvas w ++ topViewCalls this vs es can2_width)).
Proof.
  intros Hv He. unfold MainCamera.drawTopView, topViewCalls. cbv zeta.
  rewrite bind_run. unfold draw at 1. cbv beta iota.
  rewrite bind_run. unfold draw at 1. cbv beta iota.
  rewrite bind_run.
  set (vcall := fun vertex : Vertex.t =>
                  [drawCircle con2 (Vertex.x vertex * 10 + can2_width / 2)
                                   (Vertex.y vertex * - (10) + can2_width / 2) (5 / 2)]).
  set (ecall := fun edge : Edge.t =>
                  [drawLine con2 (Vertex.x (Edge.vertex1 edge) * 10 + can2_width / 2)
                                 (Vertex.y (Edge.vertex1 edge) * - (10) + can2_width / 2)
                                 (Vertex.x (Edge.vertex2 edge) * 10 + can2_width / 2)
                                 (Vertex.y (Edge.vertex2 edge) * - (10) + can2_width / 2)]).
  match goal with
  | |- context [forOf vertexesList ?body ?w0] =>
      assert (HV : forOf vertexesList body w0
                   = (Return tt, World.mk (World.objects w0)
                                          (World.canvas w0 ++ concat (vcall <$> vs))))
  end.
  { apply (forOf_vertexes _ vcall); [|exact Hv].
    intros l v w0 Hat. rewrite (bind_return _ _ _ _ _ (loadVertex_run l v w0 Hat)).
    reflexivity. }
  rewrite HV. cbv beta iota.
  match goal with
  | |- context [forOf edges ?body ?w0] =>
      assert (HE : forOf edges body w0
                   = (Return tt, World.mk (World.objects w0)
                                          (World.canvas w0 ++ concat (ecall <$> es))))
  end.
  { apply (forOf_edges _ ecall); [|exact He].
    intros l e w0 Hat. destruct (edgeAt_loads _ _ _ Hat) as (eo & L0 & L1 & L2 & _).
    rewrite (bind_return _ _ _ _ _ L0), (bind_return _ _ _ _ _ L1),
      (bind_return _ _ _ _ _ L2). reflexivity. }
  rewrite HE. cbn [World.objects World.canvas].
  unfold vcall, ecall. rewrite !concat_fmap_singleton, <- !app_assoc. reflexivity.
Qed.



(** An object of [w] is not at a reference that was new for [w]. *)
Lemma held_not_fresh (w : World.t) (ls : list loc) (x : loc) (o : obj) :
  Forall (fresh_for w) ls -> holds w x o -> x ∉ ls.
Proof.
  intros Hf Hx Hin. rewrite Forall_forall in Hf. specialize (Hf x Hin).
  unfold fresh_for, holds in *. congruence.
Qed.

(** A vertex in front of the view plane of the camera of main.js, or on
    it, has a projection. *)
Lemma MainCamera_onScreen (this : MainCamera.t) (vertex : Vertex.t) :
  let this' := MainCamera.updatePlane
                 (MainCamera.updateFocusPoint (MainCamera.updateNormalVector this)) in
  MainCamera.focalLength this <> 0 ->
  0 <= Plane.side (MainCamera.plane this')
                  (Point.mk (Vertex.x vertex) (Vertex.y vertex) (Vertex.z vertex)) ->
  exists onScreenVertex, MainCamera.getOnScreenVertex this' vertex = Some onScreenVertex.
Proof.
  intros this' Hf HS.
  destruct (MainCamera_recompute_fields this) as (_ & _ & _ & Hn & Hplane & Hfocus).
  fold this' in Hn, Hplane, Hfocus.
  assert (Hnn : getInnerProduct (MainCamera.normalVector this') (MainCamera.normalVector this')
                = MainCamera.focalLength this * MainCamera.focalLength this).
  { rewrite Hn, rotate_inner. unfold getInnerProduct. simpl. ring. }
  unfold MainCamera.getOnScreenVertex.
  rewrite (MainCamera_projection this' vertex Hplane Hfocus).
  - eexists. reflexivity.
  - rewrite Hnn. nra.
Qed.

Lemma isVertexInFrontOf_inv (plane : Plane.t) (vertex : Vertex.t) :
  Vertex.inv vertex ->
  MainCamera.isVertexInFrontOf plane vertex = Plane.isPointInFrontOf plane (Vertex.point vertex).
Proof. unfold Vertex.inv, MainCamera.isVertexInFrontOf. intros ->. reflexivity. Qed.

Lemma MainCamera_edge_cases (this : MainCamera.t) (edge : Edge.t) :
  let this' := MainCamera.updatePlane
                 (MainCamera.updateFocusPoint (MainCamera.updateNormalVector this)) in
  let f1 := Plane.side (MainCamera.plane this') (Vertex.point (Edge.vertex1 edge)) in
  let f2 := Plane.side (MainCamera.plane this') (Vertex.point (Edge.vertex2 edge)) in
  MainCamera.focalLength this <> 0 ->
  Edge.wf edge ->
  (f1 < 0 -> f2 < 0 -> MainCamera_edgeCalls this' edge = []) /\
  (0 < f1 \/ (f1 < 0 /\ 0 <= f2) ->
   exists x1 y1 x2 y2, MainCamera_edgeCalls this' edge = [drawLine con x1 y1 x2 y2]).
Proof.
  intros this' f1 f2 Hf Hwf.
  pose proof Hwf as (I1 & I2 & _).
  assert (Hline : forall v1 v2 : Vertex.t,
             Vertex.inv v1 -> Vertex.inv v2 ->
             0 <= Plane.side (MainCamera.plane this') (Vertex.point v1) ->
             0 <= Plane.side (MainCamera.plane this') (Vertex.point v2) ->
             0 < Plane.side (MainCamera.plane this') (Vertex.point v1)
             \/ 0 < Plane.side (MainCamera.plane this') (Vertex.point v2) ->
             forall vec line,
               fst (Edge.setVertexInFrontOfCamera edge (MainCamera.plane this'))
               = Edge.mk v1 v2 vec line ->
               exists x1 y1 x2 y2,
                 MainCamera_edgeCalls this' edge = [drawLine con x1 y1 x2 y2]).
  { intros v1 v2 J1 J2 S1 S2 Hor vec line Hfst. unfold MainCamera_edgeCalls. rewrite Hfst.
    cbn [Edge.vertex1 Edge.vertex2].
    rewrite !isVertexInFrontOf_inv by assumption.
    assert (Hb : negb (Plane.isPointInFrontOf (MainCamera.plane this') (Vertex.point v1))
                 && negb (Plane.isPointInFrontOf (MainCamera.plane this') (Vertex.point v2))
                 = false).
    { destruct Hor as [P | P]; rewrite (proj2 (isPointInFrontOf_true _ _) P); simpl;
        [reflexivity | apply andb_false_r]. }
    rewrite Hb.
    destruct (MainCamera_onScreen this (Vertex.getClone v1) Hf) as [o1 Ho1].
    { unfold Vertex.inv in J1. simpl. rewrite <- J1. exact S1. }
    destruct (MainCamera_onScreen this (Vertex.getClone v2) Hf) as [o2 Ho2].
    { unfold Vertex.inv in J2. simpl. rewrite <- J2. exact S2. }
    fold this' in Ho1, Ho2. rewrite Ho1, Ho2.
    cbv zeta. eexists _, _, _, _. reflexivity. }
  split.
  - intros H1 H2. unfold MainCamera_edgeCalls.
    rewrite setVertexInFrontOfCamera_none
      by (apply same_side_no_intersection; [exact Hwf | fold f1 f2; nra]).
    cbn [fst]. rewrite !isVertexInFrontOf_inv by assumption.
    rewrite !(proj2 (isPointInFrontOf_false _ _)) by (fold f1 f2; lra). reflexivity.
  - intros [P1 | [Q1 P2]].
    + destruct (Rlt_le_dec 0 f2) as [P2 | Q2].
      * apply (Hline (Edge.vertex1 edge) (Edge.vertex2 edge) I1 I2
                 ltac:(fold f1; lra) ltac:(fold f2; lra) (or_introl P1)
                 (Edge.vector edge) (Edge.line edge)).
        rewrite (clip_in_front edge _ Hwf P1 P2). destruct edge; reflexivity.
      * destruct (clip_front_to_back edge (MainCamera.plane this') Hwf P1 Q2)
          as (I & _ & _ & _ & Hnew & Hfst).
        cbv zeta in Hnew, Hfst.
        set (N := Point.move I _) in Hnew, Hfst.
        assert (SN : 0 < Plane.side (MainCamera.plane this')
                           (Vertex.point (Vertex.new (Point.x N) (Point.y N) (Point.z N)
                                                     (Vertex.i (Edge.vertex2 edge))))).
        { change (Vertex.point (Vertex.new ?x ?y ?z ?i)) with (Point.mk x y z).
          rewrite Point_eta. exact Hnew. }
        apply (Hline _ _ I1 (Vertex_new_inv _ _ _ _) ltac:(fold f1; lra) (Rlt_le _ _ SN)
                 (or_introl P1) _ _ Hfst).
    + destruct (clip_back_to_front edge (MainCamera.plane this') Hwf Q1 P2)
        as (I & _ & _ & _ & Hnew & Hfst).
      cbv zeta in Hnew, Hfst.
      set (N := Point.move I _) in Hnew, Hfst.
      assert (SN : 0 < Plane.side (MainCamera.plane this')
                         (Vertex.point (Vertex.new (Point.x N) (Point.y N) (Point.z N)
                                                   (Vertex.i (Edge.vertex1 edge))))).
      { change (Vertex.point (Vertex.new ?x ?y ?z ?i)) with (Point.mk x y z).
        rewrite Point_eta. exact Hnew. }
      apply (Hline _ _ (Vertex_new_inv _ _ _ _) I2 (Rlt_le _ _ SN) ltac:(fold f2; lra)
               (or_introl SN) _ _ Hfst).
Qed.

(** X20: a frame of main.js on a store that holds the scene.  [update]
    returns the camera moved and recomputed, with the clones it has
    imported, and never ends in a TypeError; it leaves every object of the
    scene as it was, and hands to the rasterizer, in this order: a circle
    and a number for each vertex in front of the view plane, one segment for
    each edge that it does not skip, and the top view (the camera, its
    focus, every vertex and every edge of the scene).  For a camera of
    non-zero focal length and an edge built by the constructor: the edge is
    skipped when both endpoints are behind the view plane, and one segment
    is drawn when the first endpoint is in front of the plane, or behind it
    with the second endpoint in front of the plane or on it. *)
Theorem MainCamera_update_frame (this : MainCamera.t) (key : gmap string bool)
    (vertexesList edges : list loc) (can2_width : R) (w : World.t)
    (vs : list Vertex.t) (es : list Edge.t) :
  let this' := MainCamera.updatePlane
                 (MainCamera.updateFocusPoint
                    (MainCamera.updateNormalVector (MainCamera.move this key))) in
  (Forall2 (vertexAt w) vertexesList vs ->
   Forall2 (edgeAt w) edges es ->
   exists iv ie w',
     MainCamera.update this key vertexesList edges can2_width w
     = (Return (MainCamera.set_imported this' iv ie), w') /\
     unchanged w w' /\
     World.canvas w'
     = World.canvas w
       ++ concat (MainCamera_vertexCalls this' <$> (Vertex.getClone <$> vs))
       ++ concat (MainCamera_edgeCalls this' <$> (Edge.getClone <$> es))
       ++ topViewCalls this' vs es can2_width) /\
  (forall edge,
      MainCamera.focalLength this <> 0 ->
      Edge.wf edge ->
      let f1 := Plane.side (MainCamera.plane this') (Vertex.point (Edge.vertex1 edge)) in
      let f2 := Plane.side (MainCamera.plane this') (Vertex.point (Edge.vertex2 edge)) in
      (f1 < 0 -> f2 < 0 -> MainCamera_edgeCalls this' edge = []) /\
      (0 < f1 \/ (f1 < 0 /\ 0 <= f2) ->
       exists x1 y1 x2 y2, MainCamera_edgeCalls this' edge = [drawLine con x1 y1 x2 y2])).
Proof.
  intros this'. split.
  2: { intros edge Hf Hwf.
       apply (MainCamera_edge_cases (MainCamera.move this key) edge); [|exact Hwf].
       destruct this; exact Hf. }
  intros Hv He. unfold MainCamera.update. fold this'.
  destruct (MainCamera_importShapes_run this' vertexesList edges w vs es Hv He)
    as (iv & ie & w1 & Hrun1 & U1 & C1 & F1 & [Niv Nie] & Kv & Ke & _).
  rewrite (bind_return _ _ _ _ _ Hrun1). cbv beta.
  set (this1 := MainCamera.set_imported this' iv ie).
  pose proof (MainCamera_drawVertexes_run this1 w1 _ Kv) as Hrun2.
  set (w2 := World.mk (World.objects w1) _) in Hrun2.
  destruct (MainCamera_drawEdges_loop this1 w2 (Edge.getClone <$> es) Nie Ke)
    as (w3 & Hrun3 & C3 & K3 & _).
  apply Forall_app in F1 as [_ Fie].
  assert (U3 : unchanged w w3).
  { intros x o Hx. apply K3; [apply U1, Hx|]. apply (held_not_fresh w ie x o Fie Hx). }
  assert (Hv3 : Forall2 (vertexAt w3) vertexesList vs).
  { eapply Forall2_impl; [exact Hv|]. intros l v. apply vertexAt_unchanged, U3. }
  assert (He3 : Forall2 (edgeAt w3) edges es).
  { eapply Forall2_impl; [exact He|]. intros l e. apply edgeAt_unchanged, U3. }
  pose proof (MainCamera_drawTopView_run this1 vertexesList edges can2_width w3 vs es Hv3 He3)
    as Hrun4.
  assert (Hdraw : MainCamera.draw this1 vertexesList edges can2_width w1
                  = (Return tt,
                     World.mk (World.objects w3)
                              (World.canvas w3 ++ topViewCalls this1 vs es can2_width))).
  { unfold MainCamera.draw.
    rewrite (bind_return _ _ _ _ _ Hrun2), (bind_return _ _ _ _ _ Hrun3). exact Hrun4. }
  rewrite (bind_return _ _ _ _ _ Hdraw).
  exists iv, ie. eexists. split; [reflexivity|]. split; [exact U3|].
  cbn [World.canvas]. rewrite C3. unfold w2. cbn [World.canvas]. rewrite C1.
  rewrite <- !app_assoc. reflexivity.
Qed.

Lemma MainCamera_update_frame_witness :
  exists iv ie w',
    MainCamera.update mainCamera0 ∅ [1%positive; 2%positive] [3%positive] 100 cubeWorld
    = (Return (MainCamera.set_imported
                 (MainCamera.updatePlane
                    (MainCamera.updateFocusPoint
                       (MainCamera.updateNormalVector (MainCamera.move mainCamera0 ∅))))
                 iv ie), w') /\
    unchanged cubeWorld w'.
Proof.
  destruct (proj1 (MainCamera_update_frame mainCamera0 ∅ [1%positive; 2%positive] [3%positive]
                     100 cubeWorld [cubeVertex1; cubeVertex2] [cubeEdge]))
    as (iv & ie & w' & Hrun & U & _).
  - constructor; [reflexivity|]. constructor; [reflexivity|]. constructor.
  - constructor; [|constructor]. exists cubeEdgeObj. repeat split.
  - exists iv, ie, w'. split; [exact Hrun | exact U].
Defined.
